(** * SceneManager.cpp: texture and material registries, shader state and
      the transform pipeline

    A shallow embedding of [Source/SceneManager.cpp].  The scene manager
    owns a fixed array of texture entries with a counter, a vector of
    materials and a pointer to the shader manager; it talks to OpenGL, to
    the image decoder and to the console.  All of these are explicit state
    here.  Indexing a C++ array out of its bounds and dereferencing a null
    pointer are undefined behaviour: the model returns [Undefined] there. *)

From Stdlib Require Import ZArith QArith Reals Qreals Lia Lra.
From stdpp Require Import gmap strings list.

Local Open Scope Z_scope.

(** ** Scalars

    glm is generic in its scalar type; the scene manager instantiates it
    with the C++ [float].  The development keeps the scalar type abstract. *)

Class Scalar (T : Type) := {
  zero : T;
  one : T;
  add : T -> T -> T;
  sub : T -> T -> T;
  mul : T -> T -> T;
  cosT : T -> T;
  sinT : T -> T;
  inversesqrt : T -> T;
  (* the constant 0.01745329251994329576923690768489 of glm::radians *)
  deg2rad : T;
  (* a decimal literal of the source, such as 0.6f *)
  lit : Q -> T
}.

(** The few facts about the scalars 0 and 1 that the identity transform
    needs.  Each of them is exact in IEEE 754 arithmetic, and each holds
    in the real numbers. *)
Class UnitLaws (T : Type) `{Scalar T} : Prop := {
  add_0_0 : add zero zero = zero;
  add_0_1 : add zero one = one;
  add_1_0 : add one zero = one;
  sub_0_0 : sub zero zero = zero;
  sub_1_1 : sub one one = zero;
  mul_0_0 : mul zero zero = zero;
  mul_0_1 : mul zero one = zero;
  mul_1_0 : mul one zero = zero;
  mul_1_1 : mul one one = one;
  mul_0_deg2rad : mul zero deg2rad = zero;
  cos_zero : cosT zero = one;
  sin_zero : sinT zero = zero;
  inversesqrt_one : inversesqrt one = one
}.

(** The real numbers are one model of the scalars. *)
#[export] Instance R_Scalar : Scalar R := {|
  zero := 0%R;
  one := 1%R;
  add := Rplus;
  sub := Rminus;
  mul := Rmult;
  cosT := cos;
  sinT := sin;
  inversesqrt := fun x => (/ sqrt x)%R;
  deg2rad := (PI / 180)%R;
  lit := Q2R
|}.

(** ** The part of glm the scene manager uses *)

Module glm.
Section Glm.
Context {T : Type} `{Scalar T}.

Record vec2 := Vec2 { v2x : T; v2y : T }.
Record vec3 := Vec3 { v3x : T; v3y : T; v3z : T }.
Record vec4 := Vec4 { v4x : T; v4y : T; v4z : T; v4w : T }.

(* a matrix is four columns, as in glm: m[i] is column i *)
Record mat4 := Mat4 { col0 : vec4; col1 : vec4; col2 : vec4; col3 : vec4 }.

Definition vec4_scale (v : vec4) (s : T) : vec4 :=
Vec4 (mul (v4x v) s) (mul (v4y v) s) (mul (v4z v) s) (mul (v4w v) s).

Definition vec4_add (a b : vec4) : vec4 :=
Vec4 (add (v4x a) (v4x b)) (add (v4y a) (v4y b))
   (add (v4z a) (v4z b)) (add (v4w a) (v4w b)).

(* mat4(1): the diagonal matrix with 1 on the diagonal *)
Definition mat4_identity : mat4 :=
Mat4 (Vec4 one zero zero zero) (Vec4 zero one zero zero)
   (Vec4 zero zero one zero) (Vec4 zero zero zero one).

(* operator*(mat4, mat4): column j of the product is
 m1[0]*m2[j][0] + m1[1]*m2[j][1] + m1[2]*m2[j][2] + m1[3]*m2[j][3] *)
Definition mat4_mul_col (m1 : mat4) (b : vec4) : vec4 :=
vec4_add
(vec4_add
   (vec4_add (vec4_scale (col0 m1) (v4x b)) (vec4_scale (col1 m1) (v4y b)))
   (vec4_scale (col2 m1) (v4z b)))
(vec4_scale (col3 m1) (v4w b)).

Definition mat4_mul (m1 m2 : mat4) : mat4 :=
Mat4 (mat4_mul_col m1 (col0 m2)) (mat4_mul_col m1 (col1 m2))
   (mat4_mul_col m1 (col2 m2)) (mat4_mul_col m1 (col3 m2)).

(* glm::radians *)
Definition radians (degrees : T) : T := mul degrees deg2rad.

(* glm::dot on vec3: the componentwise product, summed x + y + z *)
Definition dot (a b : vec3) : T :=
add (add (mul (v3x a) (v3x b)) (mul (v3y a) (v3y b))) (mul (v3z a) (v3z b)).

(* glm::normalize: v * inversesqrt(dot(v, v)) *)
Definition normalize (v : vec3) : vec3 :=
let k := inversesqrt (dot v v) in
Vec3 (mul (v3x v) k) (mul (v3y v) k) (mul (v3z v) k).

(* glm::scale(m, v) *)
Definition scale_mat (m : mat4) (v : vec3) : mat4 :=
Mat4 (vec4_scale (col0 m) (v3x v)) (vec4_scale (col1 m) (v3y v))
   (vec4_scale (col2 m) (v3z v)) (col3 m).

(* glm::translate(m, v) *)
Definition translate_mat (m : mat4) (v : vec3) : mat4 :=
Mat4 (col0 m) (col1 m) (col2 m)
   (vec4_add
      (vec4_add
         (vec4_add (vec4_scale (col0 m) (v3x v)) (vec4_scale (col1 m) (v3y v)))
         (vec4_scale (col2 m) (v3z v)))
      (col3 m)).

(* glm::rotate(m, angle, v) *)
Definition rotate_mat (m : mat4) (angle : T) (v : vec3) : mat4 :=
let a := angle in
let c := cosT a in
let s := sinT a in
let axis := normalize v in
let temp := Vec3 (mul (sub one c) (v3x axis)) (mul (sub one c) (v3y axis))
               (mul (sub one c) (v3z axis)) in
let r00 := add c (mul (v3x temp) (v3x axis)) in
let r01 := add (mul (v3x temp) (v3y axis)) (mul s (v3z axis)) in
let r02 := sub (mul (v3x temp) (v3z axis)) (mul s (v3y axis)) in
let r10 := sub (mul (v3y temp) (v3x axis)) (mul s (v3z axis)) in
let r11 := add c (mul (v3y temp) (v3y axis)) in
let r12 := add (mul (v3y temp) (v3z axis)) (mul s (v3x axis)) in
let r20 := add (mul (v3z temp) (v3x axis)) (mul s (v3y axis)) in
let r21 := sub (mul (v3z temp) (v3y axis)) (mul s (v3x axis)) in
let r22 := add c (mul (v3z temp) (v3z axis)) in
let lin (x y z : T) :=
vec4_add (vec4_add (vec4_scale (col0 m) x) (vec4_scale (col1 m) y))
         (vec4_scale (col2 m) z) in
Mat4 (lin r00 r01 r02) (lin r10 r11 r12) (lin r20 r21 r22) (col3 m).

(* <glm/gtx/transform.hpp>: the one-argument forms start from mat4(1) *)
Definition scale (v : vec3) : mat4 := scale_mat mat4_identity v.
Definition translate (v : vec3) : mat4 := translate_mat mat4_identity v.
Definition rotate (angle : T) (v : vec3) : mat4 := rotate_mat mat4_identity angle v.
End Glm.
Arguments vec2 T : clear implicits.
Arguments vec3 T : clear implicits.
Arguments vec4 T : clear implicits.
Arguments mat4 T : clear implicits.
End glm.

(** ** Results of operations that may have undefined behaviour *)

Inductive fault :=
  | ArrayOutOfBounds (index : Z)
  | NullDereference
  | LoopFuel.

Inductive result (A : Type) :=
  | Ok (a : A)
  | Undefined (f : fault).
Arguments Ok {A} a.
Arguments Undefined {A} f.

Definition bind {A B} (r : result A) (k : A -> result B) : result B :=
  match r with
  | Ok a => k a
  | Undefined f => Undefined f
  end.

Notation "x <- r ;; k" := (bind r (fun x => k))
  (at level 100, r at next level, right associativity, only parsing).

(* reading element [i] of a C++ array or vector *)
Definition array_get {A} (arr : list A) (i : Z) : result A :=
  if (0 <=? i) && (i <? Z.of_nat (length arr)) then
    match arr !! Z.to_nat i with
    | Some a => Ok a
    | None => Undefined (ArrayOutOfBounds i)
    end
  else Undefined (ArrayOutOfBounds i).

(* updating element [i] of a C++ array in place *)
Definition array_update {A} (arr : list A) (i : Z) (f : A -> A) : result (list A) :=
  if (0 <=? i) && (i <? Z.of_nat (length arr)) then Ok (alter f (Z.to_nat i) arr)
  else Undefined (ArrayOutOfBounds i).

(** ** OpenGL state

    OpenGL is an external service.  The model keeps what the scene manager
    can observe or change: the texture names in use, the texture objects,
    the active texture unit and the 2D texture bound to each unit. *)

Module GL.
Inductive wrap_mode := GL_REPEAT | WRAP_DEFAULT.
Inductive filter_mode := GL_LINEAR | FILTER_DEFAULT.
Inductive internal_format := GL_RGB8 | GL_RGBA8.

Record texture_object := TexObj {
  wrap_s : wrap_mode;
  wrap_t : wrap_mode;
  min_filter : filter_mode;
  mag_filter : filter_mode;
  (* level 0: internal format, width, height *)
  image : option (internal_format * Z * Z);
  mipmaps : bool
}.

Definition new_texture : texture_object :=
  TexObj WRAP_DEFAULT WRAP_DEFAULT FILTER_DEFAULT FILTER_DEFAULT None false.

Record state := State {
  names : list Z;                    (* names handed out by glGenTextures *)
  objects : gmap Z texture_object;   (* texture objects, by name *)
  active_unit : Z;                   (* selected by glActiveTexture *)
  bound_2d : gmap Z Z                (* unit -> name bound to GL_TEXTURE_2D *)
}.

Definition GL_TEXTURE0 : Z := 33984.  (* 0x84C0 *)

(* a name that is not in use: one more than the largest name in use *)
Definition fresh_name (used : list Z) : Z := 1 + foldr Z.max 0 used.

(* glGenTextures(1, &id) *)
Definition glGenTextures1 (g : state) : Z * state :=
  let id := fresh_name (names g) in
  (id, State (id :: names g) (objects g) (active_unit g) (bound_2d g)).

(* the name bound to GL_TEXTURE_2D on a unit; 0 is the default texture *)
Definition binding (g : state) (unit : Z) : Z := default 0 (bound_2d g !! unit).

(* glBindTexture(GL_TEXTURE_2D, id): a name bound for the first time gets
   its texture object *)
Definition glBindTexture (id : Z) (g : state) : state :=
  let objs :=
    if (id =? 0) then objects g
    else match objects g !! id with
         | Some _ => objects g
         | None => <[id := new_texture]> (objects g)
         end in
  State (names g) objs (active_unit g) (<[active_unit g := id]> (bound_2d g)).

(* glActiveTexture(texture) *)
Definition glActiveTexture (texture : Z) (g : state) : state :=
  State (names g) (objects g) (texture - GL_TEXTURE0) (bound_2d g).

(* an operation on the texture bound to GL_TEXTURE_2D on the active unit *)
Definition on_bound (f : texture_object -> texture_object) (g : state) : state :=
  State (names g) (alter f (binding g (active_unit g)) (objects g))
        (active_unit g) (bound_2d g).

Inductive wrap_axis := GL_TEXTURE_WRAP_S | GL_TEXTURE_WRAP_T.
Inductive filter_kind := GL_TEXTURE_MIN_FILTER | GL_TEXTURE_MAG_FILTER.

Definition glTexParameteri_wrap (p : wrap_axis) (v : wrap_mode) : state -> state :=
  on_bound (fun t =>
    match p with
    | GL_TEXTURE_WRAP_S =>
        TexObj v (wrap_t t) (min_filter t) (mag_filter t) (image t) (mipmaps t)
    | GL_TEXTURE_WRAP_T =>
        TexObj (wrap_s t) v (min_filter t) (mag_filter t) (image t) (mipmaps t)
    end).

Definition glTexParameteri_filter (p : filter_kind) (v : filter_mode) : state -> state :=
  on_bound (fun t =>
    match p with
    | GL_TEXTURE_MIN_FILTER =>
        TexObj (wrap_s t) (wrap_t t) v (mag_filter t) (image t) (mipmaps t)
    | GL_TEXTURE_MAG_FILTER =>
        TexObj (wrap_s t) (wrap_t t) (min_filter t) v (image t) (mipmaps t)
    end).

Definition glTexImage2D (fmt : internal_format) (width height : Z) : state -> state :=
  on_bound (fun t =>
    TexObj (wrap_s t) (wrap_t t) (min_filter t) (mag_filter t)
           (Some (fmt, width, height)) (mipmaps t)).

Definition glGenerateMipmap : state -> state :=
  on_bound (fun t =>
    TexObj (wrap_s t) (wrap_t t) (min_filter t) (mag_filter t) (image t) true).
End GL.

(** ** The image decoder and the console *)

(* what stbi_load reports about a decoded file *)
Record Image := { width : Z; height : Z; colorChannels : Z }.

(* stbi_load(filename, ...): [None] is the NULL it returns for a file that
   is missing or cannot be decoded *)
Definition filesystem := string -> option Image.

(* the channel counts CreateGLTexture uploads: RGB and RGBA *)
Definition supported (image : Image) : Prop :=
  colorChannels image = 3 \/ colorChannels image = 4.

(* the lines written to std::cout *)
Inductive message :=
  | MsgLoaded (filename : string) (width height channels : Z)
  | MsgNotImplemented (channels : Z)
  | MsgCouldNotLoad (filename : string).

(** ** Scene manager data

    The structs TEXTURE_INFO and OBJECT_MATERIAL are declared in
    SceneManager.h; their fields are the ones the source reads and writes. *)

Module TEXTURE_INFO.
Record t := Make { ID : Z; tag : string }.
Definition set_ID (id : Z) (e : t) : t := Make id (tag e).
Definition set_tag (s : string) (e : t) : t := Make (ID e) s.
End TEXTURE_INFO.

(** Modelled from the spec: the array [m_textureIDs] is declared in
    SceneManager.h, which is not among the sources; the spec gives its
    capacity, 16 entries. *)
Definition MAX_TEXTURES : Z := 16.

(* the global names of the uniforms *)
Definition g_ModelName : string := "model".
Definition g_ColorValueName : string := "objectColor".
Definition g_TextureValueName : string := "objectTexture".
Definition g_UseTextureName : string := "bUseTexture".
Definition g_UseLightingName : string := "bUseLighting".

Module OBJECT_MATERIAL.
Record t (T : Type) := Make {
  diffuseColor : glm.vec3 T;
  specularColor : glm.vec3 T;
  shininess : T;
  tag : string
}.
Arguments Make {T} _ _ _ _.
Arguments diffuseColor {T} _.
Arguments specularColor {T} _.
Arguments shininess {T} _.
Arguments tag {T} _.
End OBJECT_MATERIAL.

(** Modelled from the spec: the shader manager (ShaderManager.h/.cpp) is
    not among the sources.  The spec describes it as a set of named uniform
    slots; each setter stores its value under the given name. *)
Module ShaderManager.
Inductive uniform (T : Type) :=
  | UInt (v : Z)
  | UBool (v : bool)
  | USampler2D (v : Z)
  | UVec2 (v : glm.vec2 T)
  | UVec3 (v : glm.vec3 T)
  | UVec4 (v : glm.vec4 T)
  | UMat4 (v : glm.mat4 T).
Arguments UInt {T} v.
Arguments UBool {T} v.
Arguments USampler2D {T} v.
Arguments UVec2 {T} v.
Arguments UVec3 {T} v.
Arguments UVec4 {T} v.
Arguments UMat4 {T} v.

Record t (T : Type) := Make { uniforms : gmap string (uniform T) }.
Arguments Make {T} _.
Arguments uniforms {T} _.

Section Setters.
Context {T : Type}.
Definition set (name : string) (u : uniform T) (sh : t T) : t T :=
  Make (<[name := u]> (uniforms sh)).
Definition setIntValue (name : string) (v : Z) := set name (UInt v).
Definition setBoolValue (name : string) (v : bool) := set name (UBool v).
Definition setSampler2DValue (name : string) (v : Z) := set name (USampler2D v).
Definition setVec2Value (name : string) (v : glm.vec2 T) := set name (UVec2 v).
Definition setVec3Value (name : string) (v : glm.vec3 T) := set name (UVec3 v).
Definition setVec4Value (name : string) (v : glm.vec4 T) := set name (UVec4 v).
Definition setMat4Value (name : string) (v : glm.mat4 T) := set name (UMat4 v).
Definition get (name : string) (sh : t T) : option (uniform T) :=
  uniforms sh !! name.
End Setters.
End ShaderManager.

Section Scene.
Context {T : Type} `{Scalar T}.

(* the fields of the class; the meshes (m_basicMeshes) play no part in
   the registries and the shader state and are left out *)
Record SceneManager := {
  m_pShaderManager : option (ShaderManager.t T);    (* None is NULL *)
  m_textureIDs : list TEXTURE_INFO.t;
  m_loadedTextures : Z;
  m_objectMaterials : list (OBJECT_MATERIAL.t T)
}.

(* the scene manager together with the services it calls *)
Record World := {
  gl : GL.state;
  console : list message;
  stb_buffers : Z;        (* decoded images not yet freed *)
  scene : SceneManager
}.

Definition with_shader (sh : option (ShaderManager.t T)) (sm : SceneManager) :=
  {| m_pShaderManager := sh; m_textureIDs := m_textureIDs sm;
     m_loadedTextures := m_loadedTextures sm;
     m_objectMaterials := m_objectMaterials sm |}.

Definition with_textures (arr : list TEXTURE_INFO.t) (n : Z) (sm : SceneManager) :=
  {| m_pShaderManager := m_pShaderManager sm; m_textureIDs := arr;
     m_loadedTextures := n; m_objectMaterials := m_objectMaterials sm |}.

Definition with_materials (ms : list (OBJECT_MATERIAL.t T)) (sm : SceneManager) :=
  {| m_pShaderManager := m_pShaderManager sm; m_textureIDs := m_textureIDs sm;
     m_loadedTextures := m_loadedTextures sm; m_objectMaterials := ms |}.

(** *** CreateGLTexture *)
Definition CreateGLTexture (disk : filesystem) (filename tag : string) (w : World)
  : result (bool * World) :=
  (* stbi_set_flip_vertically_on_load only affects the pixel rows *)
  match disk filename with
  | Some image =>
      let out := console w ++
        [MsgLoaded filename (width image) (height image) (colorChannels image)] in
      let bufs := stb_buffers w + 1 in
      let '(textureID, g) := GL.glGenTextures1 (gl w) in
      let g := GL.glBindTexture textureID g in
      let g := GL.glTexParameteri_wrap GL.GL_TEXTURE_WRAP_S GL.GL_REPEAT g in
      let g := GL.glTexParameteri_wrap GL.GL_TEXTURE_WRAP_T GL.GL_REPEAT g in
      let g := GL.glTexParameteri_filter GL.GL_TEXTURE_MIN_FILTER GL.GL_LINEAR g in
      let g := GL.glTexParameteri_filter GL.GL_TEXTURE_MAG_FILTER GL.GL_LINEAR g in
      let register (g : GL.state) :=
        let g := GL.glGenerateMipmap g in
        let bufs := bufs - 1 in                       (* stbi_image_free *)
        let g := GL.glBindTexture 0 g in
        let sm := scene w in
        arr <- array_update (m_textureIDs sm) (m_loadedTextures sm)
                 (TEXTURE_INFO.set_ID textureID) ;;
        arr <- array_update arr (m_loadedTextures sm) (TEXTURE_INFO.set_tag tag) ;;
        Ok (true, {| gl := g; console := out; stb_buffers := bufs;
                     scene := with_textures arr (m_loadedTextures sm + 1) sm |}) in
      if colorChannels image =? 3 then
        register (GL.glTexImage2D GL.GL_RGB8 (width image) (height image) g)
      else if colorChannels image =? 4 then
        register (GL.glTexImage2D GL.GL_RGBA8 (width image) (height image) g)
      else
        Ok (false, {| gl := g;
                      console := out ++ [MsgNotImplemented (colorChannels image)];
                      stb_buffers := bufs; scene := scene w |})
  | None =>
      Ok (false, {| gl := gl w; console := console w ++ [MsgCouldNotLoad filename];
                    stb_buffers := stb_buffers w; scene := scene w |})
  end.

(** *** BindGLTextures *)
Fixpoint BindGLTextures_loop (count : nat) (i : Z) (sm : SceneManager) (g : GL.state)
  : result GL.state :=
  match count with
  | O => Ok g
  | S count' =>
      e <- array_get (m_textureIDs sm) i ;;
      let g := GL.glActiveTexture (GL.GL_TEXTURE0 + i) g in
      let g := GL.glBindTexture (TEXTURE_INFO.ID e) g in
      BindGLTextures_loop count' (i + 1) sm g
  end.

Definition BindGLTextures (w : World) : result World :=
  g <- BindGLTextures_loop (Z.to_nat (m_loadedTextures (scene w))) 0 (scene w) (gl w) ;;
  Ok {| gl := g; console := console w; stb_buffers := stb_buffers w;
        scene := scene w |}.

(** *** DestroyGLTextures *)
Fixpoint DestroyGLTextures_loop (count : nat) (i : Z)
    (arr : list TEXTURE_INFO.t) (g : GL.state)
  : result (list TEXTURE_INFO.t * GL.state) :=
  match count with
  | O => Ok (arr, g)
  | S count' =>
      let '(id, g) := GL.glGenTextures1 g in
      arr <- array_update arr i (TEXTURE_INFO.set_ID id) ;;
      DestroyGLTextures_loop count' (i + 1) arr g
  end.

Definition DestroyGLTextures (w : World) : result World :=
  let sm := scene w in
  r <- DestroyGLTextures_loop (Z.to_nat (m_loadedTextures sm)) 0
         (m_textureIDs sm) (gl w) ;;
  Ok {| gl := r.2; console := console w; stb_buffers := stb_buffers w;
        scene := with_textures r.1 (m_loadedTextures sm) sm |}.

(** *** FindTextureSlot

    The while loop runs at most [m_loadedTextures] times: each turn
    either finds the tag, which ends the loop, or moves [index] on. *)
Fixpoint FindTextureSlot_loop (fuel : nat) (sm : SceneManager) (tag : string)
    (textureSlot index : Z) (bFound : bool) : result Z :=
  if (index <? m_loadedTextures sm) && negb bFound then
    match fuel with
    | O => Undefined LoopFuel
    | S fuel' =>
        e <- array_get (m_textureIDs sm) index ;;
        if String.eqb (TEXTURE_INFO.tag e) tag      (* compare(tag) == 0 *)
        then FindTextureSlot_loop fuel' sm tag index index true
        else FindTextureSlot_loop fuel' sm tag textureSlot (index + 1) bFound
    end
  else Ok textureSlot.

Definition FindTextureSlot (tag : string) (sm : SceneManager) : result Z :=
  FindTextureSlot_loop (Z.to_nat (m_loadedTextures sm)) sm tag (-1) 0 false.

(** *** FindMaterial

    [material] is the reference parameter: the second component of the
    result is its value when the function returns. *)
Fixpoint FindMaterial_loop (fuel : nat) (sm : SceneManager) (tag : string)
    (material : OBJECT_MATERIAL.t T) (index : Z) (bFound : bool)
  : result (OBJECT_MATERIAL.t T) :=
  if (index <? Z.of_nat (length (m_objectMaterials sm))) && negb bFound then
    match fuel with
    | O => Undefined LoopFuel
    | S fuel' =>
        e <- array_get (m_objectMaterials sm) index ;;
        if String.eqb (OBJECT_MATERIAL.tag e) tag
        then
          let material :=
            OBJECT_MATERIAL.Make (OBJECT_MATERIAL.diffuseColor e)
              (OBJECT_MATERIAL.specularColor e) (OBJECT_MATERIAL.shininess e)
              (OBJECT_MATERIAL.tag material) in
          FindMaterial_loop fuel' sm tag material index true
        else FindMaterial_loop fuel' sm tag material (index + 1) bFound
    end
  else Ok material.

Definition FindMaterial (tag : string) (material : OBJECT_MATERIAL.t T)
    (sm : SceneManager) : result (bool * OBJECT_MATERIAL.t T) :=
  if Z.of_nat (length (m_objectMaterials sm)) =? 0 then Ok (false, material)
  else
    material <- FindMaterial_loop (length (m_objectMaterials sm)) sm tag
                  material 0 false ;;
    Ok (true, material).
End Scene.
Arguments SceneManager T : clear implicits.
Arguments World T : clear implicits.

Section Shading.
Context {T : Type} `{Scalar T}.

(* run [f] on the shader manager when the pointer is not NULL *)
Definition on_shader (f : ShaderManager.t T -> ShaderManager.t T)
    (sm : SceneManager T) : SceneManager T :=
  match m_pShaderManager sm with
  | Some sh => with_shader (Some (f sh)) sm
  | None => sm
  end.

(** *** SetTransformations *)
Definition modelView (scaleXYZ : glm.vec3 T)
    (XrotationDegrees YrotationDegrees ZrotationDegrees : T)
    (positionXYZ : glm.vec3 T) : glm.mat4 T :=
  let scale := glm.scale scaleXYZ in
  let rotationX := glm.rotate (glm.radians XrotationDegrees) (glm.Vec3 one zero zero) in
  let rotationY := glm.rotate (glm.radians YrotationDegrees) (glm.Vec3 zero one zero) in
  let rotationZ := glm.rotate (glm.radians ZrotationDegrees) (glm.Vec3 zero zero one) in
  let translation := glm.translate positionXYZ in
  (* translation * rotationZ * rotationY * rotationX * scale, and * is
     left associative *)
  glm.mat4_mul
    (glm.mat4_mul (glm.mat4_mul (glm.mat4_mul translation rotationZ) rotationY)
                  rotationX)
    scale.

Definition SetTransformations (scaleXYZ : glm.vec3 T)
    (XrotationDegrees YrotationDegrees ZrotationDegrees : T)
    (positionXYZ : glm.vec3 T) (sm : SceneManager T) : SceneManager T :=
  let m := modelView scaleXYZ XrotationDegrees YrotationDegrees ZrotationDegrees
             positionXYZ in
  on_shader (ShaderManager.setMat4Value g_ModelName m) sm.

(** *** SetShaderColor *)
Definition SetShaderColor (redColorValue greenColorValue blueColorValue alphaValue : T)
    (sm : SceneManager T) : SceneManager T :=
  let currentColor :=
    glm.Vec4 redColorValue greenColorValue blueColorValue alphaValue in
  on_shader (fun sh =>
               let sh := ShaderManager.setIntValue g_UseTextureName (Z.b2z false) sh in
               ShaderManager.setVec4Value g_ColorValueName currentColor sh) sm.

(** *** SetShaderTexture *)
Definition SetShaderTexture (textureTag : string) (sm : SceneManager T)
  : result (SceneManager T) :=
  match m_pShaderManager sm with
  | Some sh =>
      let sh := ShaderManager.setIntValue g_UseTextureName (Z.b2z true) sh in
      textureID <- FindTextureSlot textureTag sm ;;
      Ok (with_shader
            (Some (ShaderManager.setSampler2DValue g_TextureValueName textureID sh)) sm)
  | None => Ok sm
  end.

(** *** SetTextureUVScale *)
Definition SetTextureUVScale (u v : T) (sm : SceneManager T) : SceneManager T :=
  on_shader (ShaderManager.setVec2Value "UVscale" (glm.Vec2 u v)) sm.

(** *** SetShaderMaterial *)
Definition SetShaderMaterial (textureTag : string) (sm : SceneManager T)
  : result (SceneManager T) :=
  match m_pShaderManager sm with
  | Some sh =>
      let sh := ShaderManager.setIntValue g_UseTextureName (Z.b2z true) sh in
      textureID <- FindTextureSlot textureTag sm ;;
      Ok (with_shader
            (Some (ShaderManager.setSampler2DValue g_TextureValueName textureID sh)) sm)
  | None => Ok sm
  end.

(** *** LoadSceneTextures: the return values of the registrations are
    overwritten one after the other and never read *)
Definition in_world (f : SceneManager T -> SceneManager T) (w : World T) : World T :=
  {| gl := gl w; console := console w; stb_buffers := stb_buffers w;
     scene := f (scene w) |}.

Definition LoadSceneTextures (disk : filesystem) (w : World T) : result (World T) :=
  r <- CreateGLTexture disk "textures/glasscup.jpg" "glasscup" w ;;
  r <- CreateGLTexture disk "textures/wood.jpg" "wood" r.2 ;;
  r <- CreateGLTexture disk "textures/vinous-liquid-with-foam-blobs.jpg" "coffee" r.2 ;;
  r <- CreateGLTexture disk "textures/lamp.jpg" "lamp" r.2 ;;
  r <- CreateGLTexture disk "textures/gold.jpg" "gold" r.2 ;;
  r <- CreateGLTexture disk "textures/keyboard.png" "keyboard" r.2 ;;
  r <- CreateGLTexture disk "textures/aluminum.png" "aluminum" r.2 ;;
  r <- CreateGLTexture disk "textures/login.jpg" "login" r.2 ;;
  r <- CreateGLTexture disk "textures/leather.jpg" "leather" r.2 ;;
  r <- CreateGLTexture disk "textures/pen.jpg" "pen" r.2 ;;
  BindGLTextures r.2.

(** *** DefineObjectMaterials *)
Definition push_back (m : OBJECT_MATERIAL.t T) (sm : SceneManager T) : SceneManager T :=
  with_materials (m_objectMaterials sm ++ [m]) sm.

Definition vec3_lit (x y z : Q) : glm.vec3 T := glm.Vec3 (lit x) (lit y) (lit z).

Definition woodMaterial : OBJECT_MATERIAL.t T :=
  OBJECT_MATERIAL.Make (vec3_lit 0.6 0.5 0.4) (vec3_lit 0.5 0.5 0.5) (lit 64) "wood".
Definition glassMaterial : OBJECT_MATERIAL.t T :=
  OBJECT_MATERIAL.Make (vec3_lit 0.7 0.7 0.8) (vec3_lit 1 1 1) (lit 128) "glass".
Definition goldMaterial : OBJECT_MATERIAL.t T :=
  OBJECT_MATERIAL.Make (vec3_lit 0.4 0.4 0.4) (vec3_lit 0.7 0.7 0.6) (lit 52) "metal".
Definition leatherMaterial : OBJECT_MATERIAL.t T :=
  OBJECT_MATERIAL.Make (vec3_lit 0.5 0.4 0.3) (vec3_lit 0.01 0.01 0.01) (lit 0.001)
    "leather".
Definition canvasMaterial : OBJECT_MATERIAL.t T :=
  OBJECT_MATERIAL.Make (vec3_lit 0.7 0.6 0.5) (vec3_lit 0.02 0.02 0.02) (lit 0.001)
    "canvas".

(* for the scenario of the spec: a second "wood", with another shininess *)
Definition shinyWoodMaterial : OBJECT_MATERIAL.t T :=
  OBJECT_MATERIAL.Make (vec3_lit 0.6 0.5 0.4) (vec3_lit 0.5 0.5 0.5) (lit 32) "wood".

Definition DefineObjectMaterials (sm : SceneManager T) : SceneManager T :=
  let sm := push_back woodMaterial sm in
  let sm := push_back glassMaterial sm in
  let sm := push_back goldMaterial sm in
  let sm := push_back leatherMaterial sm in
  push_back canvasMaterial sm.

(** *** SetupSceneLights: the pointer is used without a NULL test *)
Definition SetupSceneLights (sm : SceneManager T) : result (SceneManager T) :=
  match m_pShaderManager sm with
  | None => Undefined NullDereference
  | Some sh =>
      let sh := ShaderManager.setBoolValue g_UseLightingName true sh in
      let sh := ShaderManager.setVec3Value "directionalLight.direction"
                  (vec3_lit (-0.3) (-1) (-0.2)) sh in
      let sh := ShaderManager.setVec3Value "directionalLight.ambient"
                  (vec3_lit 0.4 0.4 0.4) sh in
      let sh := ShaderManager.setVec3Value "directionalLight.diffuse"
                  (vec3_lit 0.6 0.6 0.6) sh in
      let sh := ShaderManager.setVec3Value "directionalLight.specular"
                  (vec3_lit 0.3 0.3 0.3) sh in
      let sh := ShaderManager.setBoolValue "directionalLight.bActive" true sh in
      let sh := ShaderManager.setVec3Value "pointLights[0].position"
                  (vec3_lit 2 3 2) sh in
      let sh := ShaderManager.setVec3Value "pointLights[0].ambient"
                  (vec3_lit 0.2 0.2 0.2) sh in
      let sh := ShaderManager.setVec3Value "pointLights[0].diffuse"
                  (vec3_lit 1 0.8 0.7) sh in
      let sh := ShaderManager.setVec3Value "pointLights[0].specular"
                  (vec3_lit 0.9 0.8 0.7) sh in
      let sh := ShaderManager.setBoolValue "pointLights[0].bActive" true sh in
      Ok (with_shader (Some sh) sm)
  end.
End Shading.

(** ** Sequences of calls

    The rest of the file (PrepareScene, RenderScene) is a fixed script of
    calls to the operations above, interleaved with mesh loads and draws.
    A script is a list of calls here. *)

Inductive operation (T : Type) :=
  | CallCreateGLTexture (filename tag : string)
  | CallBindGLTextures
  | CallDestroyGLTextures
  | CallFindTextureSlot (tag : string)
  | CallFindMaterial (tag : string) (material : OBJECT_MATERIAL.t T)
  | CallSetTransformations (scaleXYZ : glm.vec3 T) (x y z : T) (positionXYZ : glm.vec3 T)
  | CallSetShaderColor (r g b a : T)
  | CallSetShaderTexture (textureTag : string)
  | CallSetTextureUVScale (u v : T)
  | CallSetShaderMaterial (textureTag : string)
  | CallLoadSceneTextures
  | CallPushMaterial (m : OBJECT_MATERIAL.t T)
  | CallDefineObjectMaterials
  | CallSetupSceneLights.
Arguments CallCreateGLTexture {T} _ _.
Arguments CallBindGLTextures {T}.
Arguments CallDestroyGLTextures {T}.
Arguments CallFindTextureSlot {T} _.
Arguments CallFindMaterial {T} _ _.
Arguments CallSetTransformations {T} _ _ _ _ _.
Arguments CallSetShaderColor {T} _ _ _ _.
Arguments CallSetShaderTexture {T} _.
Arguments CallSetTextureUVScale {T} _ _.
Arguments CallSetShaderMaterial {T} _.
Arguments CallLoadSceneTextures {T}.
Arguments CallPushMaterial {T} _.
Arguments CallDefineObjectMaterials {T}.
Arguments CallSetupSceneLights {T}.

Section Scripts.
Context {T : Type} `{Scalar T}.

Definition result_map {A B} (f : A -> B) (r : result A) : result B :=
  x <- r ;; Ok (f x).

(* a call on the scene manager alone, inside the world *)
Definition lift (r : result (SceneManager T)) (w : World T) : result (World T) :=
  result_map (fun sm => in_world (fun _ => sm) w) r.

Definition perform (disk : filesystem) (op : operation T) (w : World T)
  : result (World T) :=
  match op with
  | CallCreateGLTexture filename tag =>
      result_map snd (CreateGLTexture disk filename tag w)
  | CallBindGLTextures => BindGLTextures w
  | CallDestroyGLTextures => DestroyGLTextures w
  | CallFindTextureSlot tag => _ <- FindTextureSlot tag (scene w) ;; Ok w
  | CallFindMaterial tag material => _ <- FindMaterial tag material (scene w) ;; Ok w
  | CallSetTransformations s x y z p => Ok (in_world (SetTransformations s x y z p) w)
  | CallSetShaderColor r g b a => Ok (in_world (SetShaderColor r g b a) w)
  | CallSetShaderTexture tag => lift (SetShaderTexture tag (scene w)) w
  | CallSetTextureUVScale u v => Ok (in_world (SetTextureUVScale u v) w)
  | CallSetShaderMaterial tag => lift (SetShaderMaterial tag (scene w)) w
  | CallLoadSceneTextures => LoadSceneTextures disk w
  | CallPushMaterial m => Ok (in_world (push_back m) w)
  | CallDefineObjectMaterials => Ok (in_world DefineObjectMaterials w)
  | CallSetupSceneLights => lift (SetupSceneLights (scene w)) w
  end.

Fixpoint run (disk : filesystem) (ops : list (operation T)) (w : World T)
  : result (World T) :=
  match ops with
  | [] => Ok w
  | op :: ops' => w' <- perform disk op w ;; run disk ops' w'
  end.

(* the calls that put entries into the material registry *)
Definition is_material_definition (op : operation T) : bool :=
  match op with
  | CallPushMaterial _ | CallDefineObjectMaterials => true
  | _ => false
  end.

(* a script with its material definitions taken out *)
Definition without_material_definitions (ops : list (operation T)) : list (operation T) :=
  List.filter (fun op => negb (is_material_definition op)) ops.

(* registering a list of (file, tag) pairs, keeping each return value *)
Fixpoint register_all (disk : filesystem) (regs : list (string * string)) (w : World T)
  : result (list bool * World T) :=
  match regs with
  | [] => Ok ([], w)
  | (filename, tag) :: regs' =>
      r <- CreateGLTexture disk filename tag w ;;
      rs <- register_all disk regs' r.2 ;;
      Ok (r.1 :: rs.1, rs.2)
  end.

(** *** Vocabulary for the statements *)

(* the counter stays within the array, and the array has its declared size *)
Definition wf (sm : SceneManager T) : Prop :=
  0 <= m_loadedTextures sm <= MAX_TEXTURES /\
  Z.of_nat (length (m_textureIDs sm)) = MAX_TEXTURES.

(* the registered entries, in insertion order *)
Definition loaded (sm : SceneManager T) : list TEXTURE_INFO.t :=
  take (Z.to_nat (m_loadedTextures sm)) (m_textureIDs sm).

Definition loaded_tags (sm : SceneManager T) : list string :=
  TEXTURE_INFO.tag <$> loaded sm.

Definition material_tags (sm : SceneManager T) : list string :=
  OBJECT_MATERIAL.tag <$> m_objectMaterials sm.

(* the position of the first occurrence of [tag] at or after position
   [i], or [d] when there is none *)
Fixpoint index_from (tag : string) (tags : list string) (i d : Z) : Z :=
  match tags with
  | [] => d
  | t :: tags' => if String.eqb t tag then i else index_from tag tags' (i + 1) d
  end.

(* the test of the material loop: compare(tag) == 0 *)
Definition same_tag (tag : string) (e : OBJECT_MATERIAL.t T) : bool :=
  String.eqb (OBJECT_MATERIAL.tag e) tag.

(* the scene manager once entry [m_loadedTextures] holds [id] and [tag]
   and the counter has moved on *)
Definition registered (id : Z) (tag : string) (sm : SceneManager T) : SceneManager T :=
  let n := Z.to_nat (m_loadedTextures sm) in
  with_textures
    (alter (TEXTURE_INFO.set_tag tag) n (alter (TEXTURE_INFO.set_ID id) n (m_textureIDs sm)))
    (m_loadedTextures sm + 1) sm.

Definition shader_of (w : World T) : option (ShaderManager.t T) :=
  m_pShaderManager (scene w).

(* the value a uniform has in the shader the scene manager points to *)
Definition uniform_of (name : string) (sm : SceneManager T)
  : option (ShaderManager.uniform T) :=
  sh ← m_pShaderManager sm; ShaderManager.get name sh.

(** *** Sample states: no texture registered, no material defined *)
Definition scene0 : SceneManager T :=
  {| m_pShaderManager := Some (ShaderManager.Make ∅);
     m_textureIDs := replicate 16 (TEXTURE_INFO.Make 0 "");
     m_loadedTextures := 0;
     m_objectMaterials := [] |}.

Definition gl0 : GL.state := GL.State [] ∅ 0 ∅.

Definition world0 : World T :=
  {| gl := gl0; console := []; stb_buffers := 0; scene := scene0 |}.
End Scripts.

(* a sample disk: every .jpg decodes to three channels, every .png to four,
   "textures/gray.bmp" to a single channel, and nothing else exists *)
Definition disk0 : filesystem := fun filename =>
  if String.eqb filename "textures/gray.bmp" then
    Some {| width := 8; height := 8; colorChannels := 1 |}
  else if String.eqb (String.substring (String.length filename - 4) 4 filename) ".jpg" then
    Some {| width := 64; height := 64; colorChannels := 3 |}
  else if String.eqb (String.substring (String.length filename - 4) 4 filename) ".png" then
    Some {| width := 64; height := 64; colorChannels := 4 |}
  else None.

(* the scenario of the spec: "wood" is registered, then "glasscup" *)
Definition wood_then_glasscup : list (string * string) :=
  [("textures/wood.jpg", "wood"); ("textures/glasscup.jpg", "glasscup")].

(* sixteen registrations: the ten of LoadSceneTextures and six more *)
Definition sixteen_textures : list (string * string) :=
  [("textures/glasscup.jpg", "glasscup"); ("textures/wood.jpg", "wood");
   ("textures/vinous-liquid-with-foam-blobs.jpg", "coffee");
   ("textures/lamp.jpg", "lamp"); ("textures/gold.jpg", "gold");
   ("textures/keyboard.png", "keyboard"); ("textures/aluminum.png", "aluminum");
   ("textures/login.jpg", "login"); ("textures/leather.jpg", "leather");
   ("textures/pen.jpg", "pen"); ("textures/brick.jpg", "brick");
   ("textures/marble.jpg", "marble"); ("textures/paper.png", "paper");
   ("textures/cloth.jpg", "cloth"); ("textures/stone.jpg", "stone");
   ("textures/glass.png", "glass")].

(** ** The remaining operations of the file *)

(* the primitive meshes of the mesh object (m_basicMeshes) *)
Inductive mesh :=
  | PlaneMesh | CylinderMesh | TorusMesh | BoxMesh | ConeMesh | SphereMesh
  | TaperedCylinderMesh.

(* the statements RenderScene is made of; the numbers are the literals of
   the source *)
Inductive statement :=
  | AssignScaleXYZ (x y z : Q)
  | AssignXrotationDegrees (d : Q)
  | AssignYrotationDegrees (d : Q)
  | AssignZrotationDegrees (d : Q)
  | AssignPositionXYZ (x y z : Q)
  | DoSetTransformations      (* called on the five local variables *)
  | DoSetShaderColor (r g b a : Q)
  | DoSetShaderTexture (textureTag : string)
  | DoSetTextureUVScale (u v : Q)
  | DoSetShaderMaterial (textureTag : string)
  | Draw (m : mesh).

(* the body of RenderScene, statement by statement; the declarations
   "float XrotationDegrees = 0.0f" and its two siblings are the first three *)
Definition RenderScene_body : list statement :=
  [AssignXrotationDegrees 0.0;
   AssignYrotationDegrees 0.0;
   AssignZrotationDegrees 0.0;
   AssignScaleXYZ 20.0 1.0 10.0;
   AssignXrotationDegrees 0.0;
   AssignYrotationDegrees 0.0;
   AssignZrotationDegrees 0.0;
   AssignPositionXYZ 0.0 0.0 0.0;
   DoSetTransformations;
   DoSetShaderTexture "wood";
   DoSetTextureUVScale 1.0 1.0;
   DoSetShaderMaterial "wood";
   Draw PlaneMesh;
   AssignScaleXYZ 20.0 1.0 10.0;
   AssignXrotationDegrees 0.0;
   AssignYrotationDegrees 0.0;
   AssignZrotationDegrees 0.0;
   AssignPositionXYZ 0.0 0.0 0.0;
   DoSetTransformations;
   DoSetShaderColor 1 1 1 1;
   Draw PlaneMesh;
   AssignScaleXYZ 1.0 2.0 1.0;
   AssignXrotationDegrees 0.0;
   AssignYrotationDegrees 0.0;
   AssignZrotationDegrees 0.0;
   AssignPositionXYZ 5.0 0.0 3.0;
   DoSetTransformations;
   DoSetShaderTexture "glasscup";
   DoSetTextureUVScale 1.0 1.0;
   DoSetShaderMaterial "glass";
   Draw CylinderMesh;
   AssignScaleXYZ 0.8 0.8 1.0;
   AssignXrotationDegrees 0.0;
   AssignYrotationDegrees 0.0;
   AssignZrotationDegrees 0.0;
   AssignPositionXYZ 6.0 1.0 3.5;
   DoSetTransformations;
   DoSetShaderTexture "glasscup";
   DoSetTextureUVScale 5.0 1.0;
   DoSetShaderMaterial "glass";
   Draw TorusMesh;
   AssignScaleXYZ 0.95 0.05 0.95;
   AssignXrotationDegrees 0.0;
   AssignYrotationDegrees 0.0;
   AssignZrotationDegrees 0.0;
   AssignPositionXYZ 5.0 2.0 3.0;
   DoSetTransformations;
   DoSetShaderTexture "coffee";
   DoSetTextureUVScale 1.0 1.0;
   Draw CylinderMesh;
   AssignScaleXYZ 4.0 0.0 2.5;
   AssignXrotationDegrees 90.0;
   AssignYrotationDegrees 0.0;
   AssignZrotationDegrees 0.0;
   AssignPositionXYZ (-1.0) 2.0 (-5.5);
   DoSetTransformations;
   DoSetShaderTexture "login";
   DoSetTextureUVScale 1.0 1.0;
   Draw PlaneMesh;
   AssignScaleXYZ 8.1 0.5 6.0;
   AssignXrotationDegrees 0.0;
   AssignYrotationDegrees 0.0;
   AssignZrotationDegrees 0.0;
   AssignPositionXYZ (-1.0) 0.0 (-2.5);
   DoSetTransformations;
   DoSetShaderTexture "keyboard";
   DoSetTextureUVScale 1.0 1.0;
   Draw BoxMesh;
   AssignScaleXYZ 8.1 0.49 6.1;
   AssignXrotationDegrees 0.0;
   AssignYrotationDegrees 0.0;
   AssignZrotationDegrees 0.0;
   AssignPositionXYZ (-1.0) 0.0 (-2.5);
   DoSetTransformations;
   DoSetShaderTexture "gold";
   DoSetTextureUVScale 1.0 1.0;
   DoSetShaderMaterial "metal";
   Draw BoxMesh;
   AssignScaleXYZ 3.0 1.0 2.0;
   AssignXrotationDegrees 0.0;
   AssignYrotationDegrees 0.0;
   AssignZrotationDegrees 0.0;
   AssignPositionXYZ (-10.0) 0.0 (-3.0);
   DoSetTransformations;
   DoSetShaderTexture "gold";
   DoSetTextureUVScale 1.0 1.0;
   Draw BoxMesh;
   DoSetShaderMaterial "metal";
   AssignScaleXYZ 0.5 7.0 0.5;
   AssignXrotationDegrees 0.0;
   AssignYrotationDegrees 90.0;
   AssignZrotationDegrees 0.0;
   AssignPositionXYZ (-10.0) 0.0 (-3.0);
   DoSetTransformations;
   DoSetShaderTexture "gold";
   DoSetTextureUVScale 1.0 1.0;
   DoSetShaderMaterial "metal";
   Draw CylinderMesh;
   AssignScaleXYZ 3.0 3.0 1.0;
   AssignXrotationDegrees 0.0;
   AssignYrotationDegrees 0.0;
   AssignZrotationDegrees 0.0;
   AssignPositionXYZ (-10.0) 6.0 (-3.0);
   DoSetTransformations;
   DoSetShaderTexture "lamp";
   DoSetTextureUVScale 1.0 1.0;
   DoSetShaderMaterial "canvas";
   Draw ConeMesh;
   AssignScaleXYZ 0.2 1.0 0.2;
   AssignXrotationDegrees 90.0;
   AssignYrotationDegrees 130.0;
   AssignZrotationDegrees 0.0;
   AssignPositionXYZ (-6.0) 0.5 4.0;
   DoSetTransformations;
   DoSetShaderTexture "pen";
   DoSetTextureUVScale 1.0 1.0;
   DoSetShaderMaterial "metal";
   Draw CylinderMesh;
   AssignScaleXYZ 0.16 0.2 0.16;
   AssignXrotationDegrees 270.0;
   AssignYrotationDegrees 130.0;
   AssignZrotationDegrees 0.0;
   AssignPositionXYZ (-6.0) 0.5 4.0;
   DoSetTransformations;
   DoSetShaderTexture "aluminum";
   DoSetTextureUVScale 1.0 1.0;
   DoSetShaderMaterial "metal";
   Draw TaperedCylinderMesh;
   AssignScaleXYZ 4.0 2.0 0.3;
   AssignXrotationDegrees 270.0;
   AssignYrotationDegrees 130.0;
   AssignZrotationDegrees 0.0;
   AssignPositionXYZ (-8.0) 0.5 4.0;
   DoSetTransformations;
   DoSetShaderTexture "leather";
   DoSetTextureUVScale 1.0 1.0;
   DoSetShaderMaterial "leather";
   Draw BoxMesh;
   AssignScaleXYZ 4.0 1.98 0.2;
   AssignXrotationDegrees 270.0;
   AssignYrotationDegrees 130.0;
   AssignZrotationDegrees 0.0;
   AssignPositionXYZ (-7.93) 0.5 4.0;
   DoSetTransformations;
   DoSetShaderColor 1.0 1.0 1.0 1;
   Draw BoxMesh].

(* the registrations of LoadSceneTextures, in the order of the calls *)
Definition scene_textures : list (string * string) :=
  [("textures/glasscup.jpg", "glasscup"); ("textures/wood.jpg", "wood");
   ("textures/vinous-liquid-with-foam-blobs.jpg", "coffee");
   ("textures/lamp.jpg", "lamp"); ("textures/gold.jpg", "gold");
   ("textures/keyboard.png", "keyboard"); ("textures/aluminum.png", "aluminum");
   ("textures/login.jpg", "login"); ("textures/leather.jpg", "leather");
   ("textures/pen.jpg", "pen")].

(* whether CreateGLTexture uploads the file: it decodes, to 3 or 4 channels *)
Definition uploads (disk : filesystem) (filename : string) : bool :=
  match disk filename with
  | Some image => (colorChannels image =? 3) || (colorChannels image =? 4)
  | None => false
  end.

(* TEXTURE_INFO.ID is a 32-bit unsigned integer (its address is passed to
   glGenTextures); FindTextureID stores it in an int *)
Definition int_of_GLuint (u : Z) : Z :=
  let m := u mod 2 ^ 32 in
  if m <? 2 ^ 31 then m else m - 2 ^ 32.

Module locals.
Record t (T : Type) := Make {
  scaleXYZ : glm.vec3 T;
  XrotationDegrees : T;
  YrotationDegrees : T;
  ZrotationDegrees : T;
  positionXYZ : glm.vec3 T
}.
Arguments Make {T} _ _ _ _ _.
Arguments scaleXYZ {T} _.
Arguments XrotationDegrees {T} _.
Arguments YrotationDegrees {T} _.
Arguments ZrotationDegrees {T} _.
Arguments positionXYZ {T} _.
End locals.

Section Rendering.
Context {T : Type} `{Scalar T}.

(** *** FindTextureID *)
Fixpoint FindTextureID_loop (fuel : nat) (sm : SceneManager T) (tag : string)
    (textureID index : Z) (bFound : bool) : result Z :=
  if (index <? m_loadedTextures sm) && negb bFound then
    match fuel with
    | O => Undefined LoopFuel
    | S fuel' =>
        e <- array_get (m_textureIDs sm) index ;;
        if String.eqb (TEXTURE_INFO.tag e) tag
        then FindTextureID_loop fuel' sm tag (int_of_GLuint (TEXTURE_INFO.ID e)) index true
        else FindTextureID_loop fuel' sm tag textureID (index + 1) bFound
    end
  else Ok textureID.

Definition FindTextureID (tag : string) (sm : SceneManager T) : result Z :=
  FindTextureID_loop (Z.to_nat (m_loadedTextures sm)) sm tag (-1) 0 false.

(** *** PrepareScene

    The seven mesh loads that end the function fill the vertex buffers of
    the mesh object; they touch neither the textures nor the uniforms nor
    the scene manager, and the model leaves them out. *)
Definition PrepareScene (disk : filesystem) (w : World T) : result (World T) :=
  w <- LoadSceneTextures disk w ;;
  let w := in_world DefineObjectMaterials w in
  lift (SetupSceneLights (scene w)) w.

(** *** RenderScene *)

(** Modelled from the spec: the mesh object (ShapeMeshes) is not among the
    sources.  A draw renders one primitive mesh with the uniforms the
    shader holds at the call; the model records the mesh and the shader
    manager as it is then. *)
Record draw_call := {
  drawn : mesh;
  seen : option (ShaderManager.t T)
}.

(* the local variables, the scene manager and the draws issued so far *)
Record frame := {
  vars : locals.t T;
  manager : SceneManager T;
  draws : list draw_call
}.

Definition assign (f : locals.t T -> locals.t T) (fr : frame) : frame :=
  {| vars := f (vars fr); manager := manager fr; draws := draws fr |}.

Definition call (f : SceneManager T -> SceneManager T) (fr : frame) : frame :=
  {| vars := vars fr; manager := f (manager fr); draws := draws fr |}.

Definition execute (st : statement) (fr : frame) : result frame :=
  let v := vars fr in
  match st with
  | AssignScaleXYZ x y z =>
      Ok (assign (fun v => locals.Make (vec3_lit x y z) (locals.XrotationDegrees v)
                             (locals.YrotationDegrees v) (locals.ZrotationDegrees v)
                             (locals.positionXYZ v)) fr)
  | AssignXrotationDegrees d =>
      Ok (assign (fun v => locals.Make (locals.scaleXYZ v) (lit d)
                             (locals.YrotationDegrees v) (locals.ZrotationDegrees v)
                             (locals.positionXYZ v)) fr)
  | AssignYrotationDegrees d =>
      Ok (assign (fun v => locals.Make (locals.scaleXYZ v) (locals.XrotationDegrees v)
                             (lit d) (locals.ZrotationDegrees v)
                             (locals.positionXYZ v)) fr)
  | AssignZrotationDegrees d =>
      Ok (assign (fun v => locals.Make (locals.scaleXYZ v) (locals.XrotationDegrees v)
                             (locals.YrotationDegrees v) (lit d)
                             (locals.positionXYZ v)) fr)
  | AssignPositionXYZ x y z =>
      Ok (assign (fun v => locals.Make (locals.scaleXYZ v) (locals.XrotationDegrees v)
                             (locals.YrotationDegrees v) (locals.ZrotationDegrees v)
                             (vec3_lit x y z)) fr)
  | DoSetTransformations =>
      Ok (call (SetTransformations (locals.scaleXYZ v) (locals.XrotationDegrees v)
                  (locals.YrotationDegrees v) (locals.ZrotationDegrees v)
                  (locals.positionXYZ v)) fr)
  | DoSetShaderColor r g b a =>
      Ok (call (SetShaderColor (lit r) (lit g) (lit b) (lit a)) fr)
  | DoSetShaderTexture textureTag =>
      sm <- SetShaderTexture textureTag (manager fr) ;;
      Ok (call (fun _ => sm) fr)
  | DoSetTextureUVScale u v =>
      Ok (call (SetTextureUVScale (lit u) (lit v)) fr)
  | DoSetShaderMaterial textureTag =>
      sm <- SetShaderMaterial textureTag (manager fr) ;;
      Ok (call (fun _ => sm) fr)
  | Draw m =>
      Ok {| vars := vars fr; manager := manager fr;
            draws := draws fr ++ [{| drawn := m;
                                     seen := m_pShaderManager (manager fr) |}] |}
  end.

Fixpoint execute_all (script : list statement) (fr : frame) : result frame :=
  match script with
  | [] => Ok fr
  | st :: script' => fr' <- execute st fr ;; execute_all script' fr'
  end.

(* [uninitialised] holds what the locals contain before their first
   assignment: scaleXYZ and positionXYZ are declared without a value *)
Definition RenderScene (uninitialised : locals.t T) (sm : SceneManager T)
  : result frame :=
  execute_all RenderScene_body
    {| vars := uninitialised; manager := sm; draws := [] |}.

(** *** Vocabulary for the statements about rendering *)

(* what a draw is textured with: the use-texture flag and the sampler *)
Definition selection : Type :=
  option (ShaderManager.uniform T) * option (ShaderManager.uniform T).

Definition selection_in (sh : option (ShaderManager.t T)) : selection :=
  (sh ≫= ShaderManager.get g_UseTextureName,
   sh ≫= ShaderManager.get g_TextureValueName).

Definition selection_of (sm : SceneManager T) : selection :=
  selection_in (m_pShaderManager sm).

(* a draw that samples texture unit [k], and a draw in the flat colour
   (the sampler keeps the value [k] it had) *)
Definition textured (k : Z) : selection :=
  (Some (ShaderManager.UInt 1), Some (ShaderManager.USampler2D k)).
Definition flat (k : Z) : selection :=
  (Some (ShaderManager.UInt 0), Some (ShaderManager.USampler2D k)).

(* the mesh and the selection a draw was issued with *)
Definition drawn_with (d : draw_call) : mesh * selection :=
  (drawn d, selection_in (seen d)).

(* the selection after a statement, given the registered tags *)
Definition select (tags : list string) (st : statement) (sel : selection) : selection :=
  match st with
  | DoSetShaderColor _ _ _ _ => (Some (ShaderManager.UInt 0), sel.2)
  | DoSetShaderTexture tag | DoSetShaderMaterial tag =>
      (Some (ShaderManager.UInt 1),
       Some (ShaderManager.USampler2D (index_from tag tags 0 (-1))))
  | _ => sel
  end.

(* the mesh and the selection of every draw of a script *)
Fixpoint draw_selections (tags : list string) (script : list statement) (sel : selection)
  : list (mesh * selection) :=
  match script with
  | [] => []
  | Draw m :: script' => (m, sel) :: draw_selections tags script' sel
  | st :: script' => draw_selections tags script' (select tags st sel)
  end.

(* [sm'] is well formed and holds the registered tags and the materials of
   [sm], in the same places, possibly followed by more *)
Definition grows_from (sm sm' : SceneManager T) : Prop :=
  wf sm' /\
  (exists more, loaded_tags sm' = loaded_tags sm ++ more) /\
  (exists more, m_objectMaterials sm' = m_objectMaterials sm ++ more).

(* the materials DefineObjectMaterials pushes, in order *)
Definition scene_materials : list (OBJECT_MATERIAL.t T) :=
  [woodMaterial; glassMaterial; goldMaterial; leatherMaterial; canvasMaterial].

(* [material] after the three assignments FindMaterial makes from [e] *)
Definition assigned_from (e material : OBJECT_MATERIAL.t T) : OBJECT_MATERIAL.t T :=
  OBJECT_MATERIAL.Make (OBJECT_MATERIAL.diffuseColor e) (OBJECT_MATERIAL.specularColor e)
    (OBJECT_MATERIAL.shininess e) (OBJECT_MATERIAL.tag material).

(* the texture array, the counter and the materials are the same *)
Definition same_registries (sm sm' : SceneManager T) : Prop :=
  m_textureIDs sm' = m_textureIDs sm /\
  m_loadedTextures sm' = m_loadedTextures sm /\
  m_objectMaterials sm' = m_objectMaterials sm.

(* the uniforms SetupSceneLights writes *)
Definition light_uniforms : list string :=
  [g_UseLightingName; "directionalLight.direction"; "directionalLight.ambient";
   "directionalLight.diffuse"; "directionalLight.specular"; "directionalLight.bActive";
   "pointLights[0].position"; "pointLights[0].ambient"; "pointLights[0].diffuse";
   "pointLights[0].specular"; "pointLights[0].bActive"].

(* GL hands out names only through glGenTextures: every texture object has
   a name that is in use *)
Definition objects_named (g : GL.state) : Prop :=
  forall id, is_Some (GL.objects g !! id) -> id ∈ GL.names g.

(* the IDs of the registered entries are names in use, all different *)
Definition ids_in_use (w : World T) : Prop :=
  NoDup (TEXTURE_INFO.ID <$> loaded (scene w)) /\
  forall id, id ∈ (TEXTURE_INFO.ID <$> loaded (scene w)) -> id ∈ GL.names (gl w).
End Rendering.
Arguments draw_call T : clear implicits.
Arguments frame T : clear implicits.
Arguments selection T : clear implicits.

(* the sample world after "wood" and "glasscup" have been registered *)
Definition world2 {T : Type} : World T :=
  match register_all disk0 wood_then_glasscup world0 with
  | Ok r => r.2
  | Undefined _ => world0
  end.

(** * Properties *)

(** ** The transform pipeline *)

Lemma R_UnitLaws : UnitLaws R.
Proof.
  split; cbn; try lra.
  - rewrite cos_0. reflexivity.
  - apply sin_0.
  - rewrite sqrt_1. apply Rinv_1.
Qed.

Section Transform.
Context {T : Type} `{UnitLaws T}.

Ltac units :=
  repeat first
    [ rewrite add_0_0 | rewrite add_0_1 | rewrite add_1_0 | rewrite sub_0_0
    | rewrite sub_1_1 | rewrite mul_0_0 | rewrite mul_0_1 | rewrite mul_1_0
    | rewrite mul_1_1 | rewrite mul_0_deg2rad | rewrite cos_zero
    | rewrite sin_zero | rewrite inversesqrt_one ].

Lemma radians_zero : glm.radians zero = zero.
Proof. unfold glm.radians. now units. Qed.

Lemma scale_one : glm.scale (glm.Vec3 one one one) = glm.mat4_identity.
Proof. unfold glm.scale, glm.scale_mat, glm.vec4_scale; cbn. now units. Qed.

Lemma translate_zero : glm.translate (glm.Vec3 zero zero zero) = glm.mat4_identity.
Proof.
  unfold glm.translate, glm.translate_mat, glm.vec4_add, glm.vec4_scale; cbn.
  now units.
Qed.

Lemma rotate_zero_X : glm.rotate zero (glm.Vec3 one zero zero) = glm.mat4_identity.
Proof.
  unfold glm.rotate, glm.rotate_mat, glm.normalize, glm.dot, glm.vec4_add,
    glm.vec4_scale; cbn.
  now units.
Qed.

Lemma rotate_zero_Y : glm.rotate zero (glm.Vec3 zero one zero) = glm.mat4_identity.
Proof.
  unfold glm.rotate, glm.rotate_mat, glm.normalize, glm.dot, glm.vec4_add,
    glm.vec4_scale; cbn.
  now units.
Qed.

Lemma rotate_zero_Z : glm.rotate zero (glm.Vec3 zero zero one) = glm.mat4_identity.
Proof.
  unfold glm.rotate, glm.rotate_mat, glm.normalize, glm.dot, glm.vec4_add,
    glm.vec4_scale; cbn.
  now units.
Qed.

Lemma mat4_mul_identity : glm.mat4_mul glm.mat4_identity glm.mat4_identity = glm.mat4_identity.
Proof.
  unfold glm.mat4_mul, glm.mat4_mul_col, glm.vec4_add, glm.vec4_scale; cbn.
  now units.
Qed.

Lemma modelView_identity :
  modelView (glm.Vec3 one one one) zero zero zero (glm.Vec3 zero zero zero)
  = glm.mat4_identity.
Proof.
  unfold modelView.
  rewrite radians_zero, scale_one, translate_zero, rotate_zero_X, rotate_zero_Y,
    rotate_zero_Z.
  now rewrite !mat4_mul_identity.
Qed.
End Transform.

Section TransformClaim.
Context {T : Type} `{Scalar T}.

Lemma uniform_of_on_shader_set name u (sm : SceneManager T) sh :
  m_pShaderManager sm = Some sh ->
  uniform_of name (on_shader (ShaderManager.set name u) sm) = Some u.
Proof.
  intros Hsh. unfold uniform_of, on_shader. rewrite Hsh. cbn.
  unfold ShaderManager.get. cbn. apply lookup_insert_eq.
Qed.
End TransformClaim.

(** C1.  With a shader manager attached, SetTransformations stores in the
    "model" uniform the product translation * rotationZ * rotationY *
    rotationX * scale, the factors being glm's translate, rotate (about the
    Z, Y and X axes, by the angles converted to radians) and scale, with the
    X rotation next to the scale; and for scale (1,1,1), zero angles and
    position (0,0,0) that matrix is the identity matrix. *)
Theorem SetTransformations_model_matrix
    {T : Type} `{UnitLaws T} (sm : SceneManager T) (sh : ShaderManager.t T) :
  m_pShaderManager sm = Some sh ->
  (forall scaleXYZ X Y Z positionXYZ,
      uniform_of g_ModelName (SetTransformations scaleXYZ X Y Z positionXYZ sm)
      = Some (ShaderManager.UMat4
          (glm.mat4_mul
            (glm.mat4_mul
              (glm.mat4_mul
                (glm.mat4_mul (glm.translate positionXYZ)
                   (glm.rotate (glm.radians Z) (glm.Vec3 zero zero one)))
                (glm.rotate (glm.radians Y) (glm.Vec3 zero one zero)))
              (glm.rotate (glm.radians X) (glm.Vec3 one zero zero)))
            (glm.scale scaleXYZ)))) /\
  modelView (glm.Vec3 one one one) zero zero zero (glm.Vec3 zero zero zero)
    = glm.mat4_identity /\
  uniform_of g_ModelName
    (SetTransformations (glm.Vec3 one one one) zero zero zero
       (glm.Vec3 zero zero zero) sm)
  = Some (ShaderManager.UMat4 glm.mat4_identity).
Proof.
  intros Hsh. split; [|split].
  - intros. unfold SetTransformations, ShaderManager.setMat4Value.
    now rewrite (uniform_of_on_shader_set _ _ _ _ Hsh).
  - apply modelView_identity.
  - unfold SetTransformations, ShaderManager.setMat4Value.
    rewrite (uniform_of_on_shader_set _ _ _ _ Hsh). now rewrite modelView_identity.
Qed.

Lemma SetTransformations_model_matrix_witness :
  uniform_of g_ModelName
    (SetTransformations (glm.Vec3 1%R 1%R 1%R) 0%R 0%R 0%R (glm.Vec3 0%R 0%R 0%R)
       (scene0 (T := R)))
  = Some (ShaderManager.UMat4 glm.mat4_identity).
Proof.
  exact (proj2 (proj2 (SetTransformations_model_matrix (H0 := R_UnitLaws)
                         scene0 (ShaderManager.Make ∅) eq_refl))).
Defined.

(** ** Arrays and the lookup loops *)

Section Arrays.
Context {A : Type}.

Lemma array_get_Some (arr : list A) (i : Z) (a : A) :
  0 <= i -> arr !! Z.to_nat i = Some a -> array_get arr i = Ok a.
Proof.
  intros Hi Ha. unfold array_get. rewrite Ha.
  apply lookup_lt_Some in Ha.
  replace (0 <=? i) with true by (symmetry; apply Z.leb_le; lia).
  replace (i <? Z.of_nat (length arr)) with true by (symmetry; apply Z.ltb_lt; lia).
  reflexivity.
Qed.

Lemma array_get_in_range (arr : list A) (i : Z) :
  0 <= i < Z.of_nat (length arr) ->
  exists a, arr !! Z.to_nat i = Some a /\ array_get arr i = Ok a.
Proof.
  intros Hi. destruct (lookup_lt_is_Some_2 arr (Z.to_nat i)) as [a Ha]; [lia|].
  exists a. split; [exact Ha|]. apply array_get_Some; [lia|exact Ha].
Qed.

Lemma array_update_in_range (arr : list A) (i : Z) (f : A -> A) :
  0 <= i < Z.of_nat (length arr) ->
  array_update arr i f = Ok (alter f (Z.to_nat i) arr).
Proof.
  intros Hi. unfold array_update.
  replace (0 <=? i) with true by (symmetry; apply Z.leb_le; lia).
  replace (i <? Z.of_nat (length arr)) with true by (symmetry; apply Z.ltb_lt; lia).
  reflexivity.
Qed.

Lemma array_update_out_of_range (arr : list A) (i : Z) (f : A -> A) :
  Z.of_nat (length arr) <= i ->
  array_update arr i f = Undefined (ArrayOutOfBounds i).
Proof.
  intros Hi. unfold array_update.
  replace (i <? Z.of_nat (length arr)) with false by (symmetry; apply Z.ltb_ge; lia).
  now rewrite andb_false_r.
Qed.

Lemma array_update_Ok (arr arr' : list A) (i : Z) (f : A -> A) :
  array_update arr i f = Ok arr' ->
  0 <= i < Z.of_nat (length arr) /\ arr' = alter f (Z.to_nat i) arr.
Proof.
  unfold array_update. intros Hu.
  destruct (0 <=? i) eqn:H0; [|discriminate].
  destruct (i <? Z.of_nat (length arr)) eqn:H1; [|discriminate].
  apply Z.leb_le in H0. apply Z.ltb_lt in H1. cbn in Hu.
  split; [lia|congruence].
Qed.
End Arrays.

Section IndexFrom.
Lemma index_from_absent (tag : string) (tags : list string) (i d : Z) :
  tag ∉ tags -> index_from tag tags i d = d.
Proof.
  revert i. induction tags as [|t tags IH]; intros i Hnot; cbn; [reflexivity|].
  apply not_elem_of_cons in Hnot as [Hne Hnot].
  destruct (String.eqb_spec t tag) as [->|_]; [contradiction|].
  now apply IH.
Qed.

Lemma index_from_first (tag : string) (pre post : list string) (i d : Z) :
  tag ∉ pre ->
  index_from tag (pre ++ tag :: post) i d = i + Z.of_nat (length pre).
Proof.
  revert i. induction pre as [|t pre IH]; intros i Hnot; cbn [app index_from length].
  - rewrite String.eqb_refl. lia.
  - apply not_elem_of_cons in Hnot as [Hne Hnot].
    destruct (String.eqb_spec t tag) as [->|_]; [contradiction|].
    rewrite IH by assumption. lia.
Qed.

Lemma index_from_NoDup (tag : string) (tags : list string) (k : nat) (d : Z) :
  NoDup tags -> tags !! k = Some tag -> index_from tag tags 0 d = Z.of_nat k.
Proof.
  intros Hnd Hk.
  rewrite <- (take_drop_middle tags k tag Hk) in Hnd |- *.
  apply NoDup_app in Hnd as (_ & Hdisj & _).
  rewrite index_from_first.
  - rewrite length_take. apply lookup_lt_Some in Hk. lia.
  - intros Hin. apply (Hdisj _ Hin). left.
Qed.

Lemma index_from_range (tag : string) (tags : list string) (i d : Z) :
  index_from tag tags i d = d \/
  i <= index_from tag tags i d < i + Z.of_nat (length tags).
Proof.
  revert i. induction tags as [|t tags IH]; intros i; cbn; [now left|].
  destruct (String.eqb t tag); [right; lia|].
  destruct (IH (i + 1)) as [->|Hr]; [now left|right; lia].
Qed.
End IndexFrom.

Section Lookups.
Context {T : Type}.
Implicit Types (sm : SceneManager T) (tag : string).

Lemma length_loaded_tags sm :
  wf sm -> length (loaded_tags sm) = Z.to_nat (m_loadedTextures sm).
Proof.
  intros [Hn Hlen]. unfold loaded_tags, loaded.
  rewrite length_fmap, length_take. lia.
Qed.

Lemma loaded_tags_lookup sm (i : nat) e :
  (Z.of_nat i < m_loadedTextures sm) ->
  m_textureIDs sm !! i = Some e ->
  loaded_tags sm !! i = Some (TEXTURE_INFO.tag e).
Proof.
  intros Hi He. unfold loaded_tags, loaded.
  rewrite list_lookup_fmap, lookup_take_lt by lia. now rewrite He.
Qed.

Lemma FindTextureSlot_loop_found fuel sm tag slot index :
  FindTextureSlot_loop fuel sm tag slot index true = Ok slot.
Proof. destruct fuel; cbn; now rewrite andb_false_r. Qed.

Lemma FindTextureSlot_loop_spec sm tag (k : nat) :
  wf sm ->
  forall (fuel : nat) (index slot : Z),
    0 <= index ->
    Z.of_nat k = m_loadedTextures sm - index ->
    (k <= fuel)%nat ->
    FindTextureSlot_loop fuel sm tag slot index false
    = Ok (index_from tag (drop (Z.to_nat index) (loaded_tags sm)) index slot).
Proof.
  intros Hwf. pose proof (length_loaded_tags sm Hwf) as Hlen.
  destruct Hwf as [Hn Harr].
  induction k as [|k IH]; intros fuel index slot Hi Hk Hfuel.
  - rewrite drop_ge by lia. cbn [index_from].
    destruct fuel; cbn;
      replace (index <? m_loadedTextures sm) with false
        by (symmetry; apply Z.ltb_ge; lia); reflexivity.
  - destruct fuel as [|fuel]; [lia|]. cbn [FindTextureSlot_loop].
    replace (index <? m_loadedTextures sm) with true
      by (symmetry; apply Z.ltb_lt; lia).
    cbn [andb negb].
    destruct (array_get_in_range (m_textureIDs sm) index) as (e & He & ->); [lia|].
    cbn [bind].
    rewrite (drop_S _ (TEXTURE_INFO.tag e) (Z.to_nat index))
      by (apply loaded_tags_lookup; [lia|exact He]).
    cbn [index_from].
    destruct (String.eqb (TEXTURE_INFO.tag e) tag).
    + apply FindTextureSlot_loop_found.
    + rewrite IH by lia. now replace (Z.to_nat (index + 1)) with (S (Z.to_nat index)) by lia.
Qed.

(** FindTextureSlot returns the position of the first registered entry
    with the tag, and -1 when there is none. *)
Lemma FindTextureSlot_spec sm tag :
  wf sm -> FindTextureSlot tag sm = Ok (index_from tag (loaded_tags sm) 0 (-1)).
Proof.
  intros Hwf. unfold FindTextureSlot.
  rewrite (FindTextureSlot_loop_spec sm tag (Z.to_nat (m_loadedTextures sm)) Hwf);
    [reflexivity|lia| |lia].
  destruct Hwf as [Hn _]. lia.
Qed.

Lemma FindTextureSlot_absent sm tag :
  wf sm -> tag ∉ loaded_tags sm -> FindTextureSlot tag sm = Ok (-1).
Proof.
  intros Hwf Hnot. rewrite FindTextureSlot_spec by assumption.
  now rewrite index_from_absent.
Qed.

(* the lookup reads the array and the counter, nothing else *)
Lemma FindTextureSlot_loop_ext sm sm' tag fuel :
  m_textureIDs sm = m_textureIDs sm' ->
  m_loadedTextures sm = m_loadedTextures sm' ->
  forall slot index b,
    FindTextureSlot_loop fuel sm tag slot index b
    = FindTextureSlot_loop fuel sm' tag slot index b.
Proof.
  intros Harr Hn. induction fuel as [|fuel IH]; intros slot index b; cbn.
  - now rewrite Hn.
  - rewrite Hn, Harr.
    destruct ((index <? m_loadedTextures sm') && negb b); [|reflexivity].
    destruct (array_get (m_textureIDs sm') index) as [e|f]; cbn; [|reflexivity].
    destruct (String.eqb (TEXTURE_INFO.tag e) tag); apply IH.
Qed.

Lemma FindTextureSlot_ext sm sm' tag :
  m_textureIDs sm = m_textureIDs sm' ->
  m_loadedTextures sm = m_loadedTextures sm' ->
  FindTextureSlot tag sm = FindTextureSlot tag sm'.
Proof.
  intros Harr Hn. unfold FindTextureSlot. rewrite Hn.
  now apply FindTextureSlot_loop_ext.
Qed.

(** *** FindMaterial *)

Lemma FindMaterial_loop_found fuel sm tag material index :
  FindMaterial_loop fuel sm tag material index true = Ok material.
Proof. destruct fuel; cbn; now rewrite andb_false_r. Qed.

Lemma FindMaterial_loop_spec sm tag material (k : nat) :
  forall (fuel : nat) (index : Z),
    0 <= index ->
    Z.of_nat k = Z.of_nat (length (m_objectMaterials sm)) - index ->
    (k <= fuel)%nat ->
    FindMaterial_loop fuel sm tag material index false
    = Ok match List.find (same_tag tag) (drop (Z.to_nat index) (m_objectMaterials sm)) with
         | Some e =>
             OBJECT_MATERIAL.Make (OBJECT_MATERIAL.diffuseColor e)
               (OBJECT_MATERIAL.specularColor e) (OBJECT_MATERIAL.shininess e)
               (OBJECT_MATERIAL.tag material)
         | None => material
         end.
Proof.
  induction k as [|k IH]; intros fuel index Hi Hk Hfuel.
  - rewrite drop_ge by lia. cbn [List.find].
    destruct fuel; cbn;
      replace (index <? Z.of_nat (length (m_objectMaterials sm))) with false
        by (symmetry; apply Z.ltb_ge; lia); reflexivity.
  - destruct fuel as [|fuel]; [lia|]. cbn [FindMaterial_loop].
    replace (index <? Z.of_nat (length (m_objectMaterials sm))) with true
      by (symmetry; apply Z.ltb_lt; lia).
    cbn [andb negb].
    destruct (array_get_in_range (m_objectMaterials sm) index) as (e & He & ->); [lia|].
    cbn [bind].
    rewrite (drop_S _ e (Z.to_nat index)) by exact He.
    cbn [List.find]. unfold same_tag at 1.
    destruct (String.eqb (OBJECT_MATERIAL.tag e) tag).
    + apply FindMaterial_loop_found.
    + rewrite IH by lia. now replace (Z.to_nat (index + 1)) with (S (Z.to_nat index)) by lia.
Qed.

(** FindMaterial copies the three values of the first entry with the tag
    into [material]; it answers [false] on an empty registry and [true]
    on every other one, whether or not an entry has the tag. *)
Lemma FindMaterial_spec sm tag material :
  FindMaterial tag material sm
  = Ok (negb (Z.of_nat (length (m_objectMaterials sm)) =? 0),
        match List.find (same_tag tag) (m_objectMaterials sm) with
        | Some e =>
            OBJECT_MATERIAL.Make (OBJECT_MATERIAL.diffuseColor e)
              (OBJECT_MATERIAL.specularColor e) (OBJECT_MATERIAL.shininess e)
              (OBJECT_MATERIAL.tag material)
        | None => material
        end).
Proof.
  unfold FindMaterial.
  destruct (Z.of_nat (length (m_objectMaterials sm)) =? 0) eqn:Hlen.
  - apply Z.eqb_eq in Hlen.
    destruct (m_objectMaterials sm); [reflexivity|cbn in Hlen; lia].
  - rewrite (FindMaterial_loop_spec sm tag material (length (m_objectMaterials sm)))
      by lia.
    reflexivity.
Qed.

Lemma find_same_tag_absent tag (ms : list (OBJECT_MATERIAL.t T)) :
  tag ∉ (OBJECT_MATERIAL.tag <$> ms) -> List.find (same_tag tag) ms = None.
Proof.
  induction ms as [|m ms IH]; cbn; [reflexivity|]. intros Hnot.
  apply not_elem_of_cons in Hnot as [Hne Hnot]. unfold same_tag at 1.
  destruct (String.eqb_spec (OBJECT_MATERIAL.tag m) tag) as [E|_]; [congruence|].
  now apply IH.
Qed.

Lemma find_same_tag_first tag (pre post : list (OBJECT_MATERIAL.t T)) m :
  tag ∉ (OBJECT_MATERIAL.tag <$> pre) ->
  OBJECT_MATERIAL.tag m = tag ->
  List.find (same_tag tag) (pre ++ m :: post) = Some m.
Proof.
  intros Hnot Hm. induction pre as [|p pre IH]; cbn.
  - unfold same_tag. now rewrite Hm, String.eqb_refl.
  - cbn in Hnot. apply not_elem_of_cons in Hnot as [Hne Hnot]. unfold same_tag at 1.
    destruct (String.eqb_spec (OBJECT_MATERIAL.tag p) tag) as [E|_]; [congruence|].
    now apply IH.
Qed.
End Lookups.

(** ** Registration *)

Section Registration.
Context {T : Type}.
Implicit Types (w : World T) (sm : SceneManager T) (disk : filesystem).

Ltac open_CreateGLTexture :=
  unfold CreateGLTexture;
  cbn -[GL.glBindTexture GL.glTexParameteri_wrap GL.glTexParameteri_filter
        GL.glTexImage2D GL.glGenerateMipmap GL.fresh_name Z.add Z.sub].

Lemma CreateGLTexture_missing disk filename tag w :
  disk filename = None ->
  CreateGLTexture disk filename tag w
  = Ok (false, {| gl := gl w; console := console w ++ [MsgCouldNotLoad filename];
                  stb_buffers := stb_buffers w; scene := scene w |}).
Proof. intros Hd. unfold CreateGLTexture. now rewrite Hd. Qed.

Lemma CreateGLTexture_unsupported disk filename tag w image :
  disk filename = Some image ->
  ~ supported image ->
  exists w',
    CreateGLTexture disk filename tag w = Ok (false, w') /\
    scene w' = scene w /\
    GL.names (gl w') = GL.fresh_name (GL.names (gl w)) :: GL.names (gl w) /\
    stb_buffers w' = stb_buffers w + 1.
Proof.
  intros Hd Hs. open_CreateGLTexture. rewrite Hd.
  destruct (Z.eqb_spec (colorChannels image) 3) as [E|_]; [elim Hs; now left|].
  destruct (Z.eqb_spec (colorChannels image) 4) as [E|_]; [elim Hs; now right|].
  eexists. split; [reflexivity|]. cbn. auto.
Qed.

Lemma CreateGLTexture_success disk filename tag w image :
  disk filename = Some image ->
  supported image ->
  0 <= m_loadedTextures (scene w) < Z.of_nat (length (m_textureIDs (scene w))) ->
  exists w',
    CreateGLTexture disk filename tag w = Ok (true, w') /\
    scene w' = registered (GL.fresh_name (GL.names (gl w))) tag (scene w) /\
    GL.names (gl w') = GL.fresh_name (GL.names (gl w)) :: GL.names (gl w) /\
    stb_buffers w' = stb_buffers w + 1 - 1.
Proof.
  intros Hd Hs Hn. open_CreateGLTexture. rewrite Hd.
  rewrite !array_update_in_range by exact Hn. cbn [bind].
  rewrite !array_update_in_range by (rewrite length_alter; exact Hn). cbn [bind].
  destruct Hs as [-> | ->]; cbn [Z.eqb Pos.eqb];
    (eexists; split; [reflexivity|]; cbn; auto).
Qed.

Lemma CreateGLTexture_overflow disk filename tag w image :
  disk filename = Some image ->
  supported image ->
  Z.of_nat (length (m_textureIDs (scene w))) <= m_loadedTextures (scene w) ->
  CreateGLTexture disk filename tag w
  = Undefined (ArrayOutOfBounds (m_loadedTextures (scene w))).
Proof.
  intros Hd Hs Hn. open_CreateGLTexture. rewrite Hd.
  rewrite !array_update_out_of_range by exact Hn. cbn [bind].
  now destruct Hs as [-> | ->].
Qed.

(** What a registration that returns leaves in the scene manager. *)
Lemma CreateGLTexture_scene disk filename tag w b w' :
  CreateGLTexture disk filename tag w = Ok (b, w') ->
  if b then
    0 <= m_loadedTextures (scene w) < Z.of_nat (length (m_textureIDs (scene w))) /\
    (exists image, disk filename = Some image /\ supported image) /\
    scene w' = registered (GL.fresh_name (GL.names (gl w))) tag (scene w)
  else scene w' = scene w.
Proof.
  intros Hr. unfold CreateGLTexture in Hr.
  destruct (disk filename) as [image|] eqn:Hd.
  - cbn -[GL.glBindTexture GL.glTexParameteri_wrap GL.glTexParameteri_filter
          GL.glTexImage2D GL.glGenerateMipmap GL.fresh_name Z.add Z.sub] in Hr.
    destruct (Z.eqb_spec (colorChannels image) 3) as [E3|N3];
      [|destruct (Z.eqb_spec (colorChannels image) 4) as [E4|N4]].
    3:{ injection Hr as <- <-. reflexivity. }
    all: destruct (array_update (m_textureIDs (scene w)) _ _) as [arr1|] eqn:U1;
           cbn [bind] in Hr; [|discriminate].
    all: destruct (array_update arr1 _ _) as [arr2|] eqn:U2;
           cbn [bind] in Hr; [|discriminate].
    all: injection Hr as <- <-.
    all: apply array_update_Ok in U1 as [Hn ->].
    all: apply array_update_Ok in U2 as [_ ->].
    all: split; [exact Hn|split; [exists image; unfold supported; auto|reflexivity]].
  - injection Hr as <- <-. reflexivity.
Qed.

Lemma loaded_registered id tag sm :
  0 <= m_loadedTextures sm < Z.of_nat (length (m_textureIDs sm)) ->
  loaded (registered id tag sm) = loaded sm ++ [TEXTURE_INFO.Make id tag].
Proof.
  intros Hn. unfold loaded, registered; cbn.
  destruct (lookup_lt_is_Some_2 (m_textureIDs sm) (Z.to_nat (m_loadedTextures sm)))
    as [e He]; [lia|].
  replace (Z.to_nat (m_loadedTextures sm + 1)) with (S (Z.to_nat (m_loadedTextures sm)))
    by lia.
  erewrite take_S_r.
  - rewrite !take_alter_ge by lia. reflexivity.
  - rewrite !list_lookup_alter_eq, He. reflexivity.
Qed.

Lemma loaded_tags_registered id tag sm :
  0 <= m_loadedTextures sm < Z.of_nat (length (m_textureIDs sm)) ->
  loaded_tags (registered id tag sm) = loaded_tags sm ++ [tag].
Proof.
  intros Hn. unfold loaded_tags. rewrite loaded_registered by exact Hn.
  now rewrite fmap_app.
Qed.

Lemma wf_registered id tag sm :
  wf sm -> m_loadedTextures sm < MAX_TEXTURES -> wf (registered id tag sm).
Proof.
  intros [Hn Hlen] Hlt. unfold wf, registered; cbn.
  rewrite !length_alter. split; [lia|exact Hlen].
Qed.

(** A registration that returns keeps the scene manager well formed, and
    appends the tag to the registered ones exactly when it returns true. *)
Lemma CreateGLTexture_loaded_tags disk filename tag w b w' :
  wf (scene w) ->
  CreateGLTexture disk filename tag w = Ok (b, w') ->
  wf (scene w') /\
  loaded_tags (scene w') = loaded_tags (scene w) ++ (if b then [tag] else []) /\
  m_loadedTextures (scene w') = m_loadedTextures (scene w) + Z.b2z b.
Proof.
  intros Hwf Hr. apply CreateGLTexture_scene in Hr. destruct b.
  - destruct Hr as (Hn & _ & ->). split; [|split].
    + apply wf_registered; [exact Hwf|]. destruct Hwf as [_ Hlen]. lia.
    + now apply loaded_tags_registered.
    + reflexivity.
  - rewrite Hr, app_nil_r. cbn. split; [exact Hwf|split; [reflexivity|lia]].
Qed.
End Registration.

Section RegistrationSequences.
Context {T : Type}.
Implicit Types (w : World T) (sm : SceneManager T) (disk : filesystem).

Lemma index_from_app_found (tag : string) (tags more : list string) (i d : Z) :
  tag ∈ tags -> index_from tag (tags ++ more) i d = index_from tag tags i d.
Proof.
  revert i. induction tags as [|t tags IH]; intros i Hin; [now apply elem_of_nil in Hin|].
  cbn. destruct (String.eqb_spec t tag) as [_|Hne]; [reflexivity|].
  apply IH. apply elem_of_cons in Hin as [->|Hin]; [contradiction|exact Hin].
Qed.

(** When every registration of a list returns true, the tags are appended
    to the registered ones in the order of the calls. *)
Lemma register_all_success disk regs :
  forall w w',
    wf (scene w) ->
    register_all disk regs w = Ok (replicate (length regs) true, w') ->
    wf (scene w') /\ loaded_tags (scene w') = loaded_tags (scene w) ++ regs.*2.
Proof.
  induction regs as [|[filename tag] regs IH]; intros w w' Hwf Hr.
  - cbn in Hr. injection Hr as <-. now rewrite app_nil_r.
  - cbn [register_all] in Hr.
    destruct (CreateGLTexture disk filename tag w) as [[b w1]|] eqn:Hc;
      cbn [bind fst snd] in Hr; [|discriminate].
    destruct (register_all disk regs w1) as [[bs w2]|] eqn:Hrest;
      cbn [bind] in Hr; [|discriminate].
    cbn in Hr. injection Hr as -> -> ->.
    destruct (CreateGLTexture_loaded_tags disk filename tag w true w1 Hwf Hc)
      as (Hwf1 & Htags1 & _).
    destruct (IH w1 w' Hwf1 Hrest) as (Hwf' & Htags').
    split; [exact Hwf'|]. rewrite Htags', Htags1. cbn. now rewrite <- app_assoc.
Qed.

(** Whatever the registrations of a list return, the tags registered
    before stay where they are. *)
Lemma register_all_extends disk regs :
  forall w bs w',
    wf (scene w) ->
    register_all disk regs w = Ok (bs, w') ->
    wf (scene w') /\ exists more, loaded_tags (scene w') = loaded_tags (scene w) ++ more.
Proof.
  induction regs as [|[filename tag] regs IH]; intros w bs w' Hwf Hr.
  - cbn in Hr. injection Hr as <- <-. split; [exact Hwf|]. exists []. now rewrite app_nil_r.
  - cbn [register_all] in Hr.
    destruct (CreateGLTexture disk filename tag w) as [[b w1]|] eqn:Hc;
      cbn [bind fst snd] in Hr; [|discriminate].
    destruct (register_all disk regs w1) as [[bs1 w2]|] eqn:Hrest;
      cbn [bind] in Hr; [|discriminate].
    cbn in Hr. injection Hr as <- <-.
    destruct (CreateGLTexture_loaded_tags disk filename tag w b w1 Hwf Hc)
      as (Hwf1 & Htags1 & _).
    destruct (IH w1 bs1 w2 Hwf1 Hrest) as (Hwf' & more & Htags').
    split; [exact Hwf'|]. eexists. rewrite Htags', Htags1, <- app_assoc. reflexivity.
Qed.
End RegistrationSequences.

(** C5.  Starting from an empty registry, when every registration of a
    list with pairwise distinct tags returns true, FindTextureSlot of the
    i-th tag returns i (0 for the first one): a non-negative index that
    differs from tag to tag.  The index is stable: it is still i after any
    further registrations. *)
Theorem FindTextureSlot_insertion_order
    {T : Type} (disk : filesystem) (regs : list (string * string)) (w w' : World T) :
  wf (scene w) ->
  m_loadedTextures (scene w) = 0 ->
  NoDup regs.*2 ->
  register_all disk regs w = Ok (replicate (length regs) true, w') ->
  forall (i : nat) filename tag,
    regs !! i = Some (filename, tag) ->
    FindTextureSlot tag (scene w') = Ok (Z.of_nat i) /\
    forall more bs w'',
      register_all disk more w' = Ok (bs, w'') ->
      FindTextureSlot tag (scene w'') = Ok (Z.of_nat i).
Proof.
  intros Hwf Hzero Hnd Hr i filename tag Hi.
  destruct (register_all_success disk regs w w' Hwf Hr) as (Hwf' & Htags).
  assert (loaded_tags (scene w) = []) as Hempty.
  { unfold loaded_tags, loaded. now rewrite Hzero. }
  rewrite Hempty in Htags. cbn in Htags.
  assert (regs.*2 !! i = Some tag) as Htag.
  { rewrite list_lookup_fmap, Hi. reflexivity. }
  assert (index_from tag (loaded_tags (scene w')) 0 (-1) = Z.of_nat i) as Hidx.
  { rewrite Htags. now apply index_from_NoDup. }
  split.
  - rewrite FindTextureSlot_spec by exact Hwf'. now rewrite Hidx.
  - intros more bs w'' Hmore.
    destruct (register_all_extends disk more w' bs w'' Hwf' Hmore) as (Hwf'' & extra & Hext).
    rewrite FindTextureSlot_spec by exact Hwf''. rewrite Hext.
    rewrite index_from_app_found; [now rewrite Hidx|].
    rewrite Htags. apply list_elem_of_lookup. eauto.
Qed.

Lemma wf_scene0 {T : Type} : wf (scene0 (T := T)).
Proof. unfold wf, MAX_TEXTURES; cbn. lia. Qed.

Lemma FindTextureSlot_insertion_order_witness :
  exists w',
    register_all disk0 wood_then_glasscup (world0 (T := R)) = Ok ([true; true], w') /\
    FindTextureSlot "glasscup" (scene w') = Ok 1.
Proof.
  eexists. split.
  - vm_compute. reflexivity.
  - refine (proj1 (FindTextureSlot_insertion_order disk0 wood_then_glasscup world0 _
                     wf_scene0 eq_refl _ _ 1%nat "textures/glasscup.jpg" "glasscup"
                     eq_refl)).
    + apply (bool_decide_unpack _). vm_compute. exact I.
    + vm_compute. reflexivity.
Defined.

(** ** Binding the textures to units *)

Section Binding.
Context {T : Type}.
Implicit Types (w : World T) (sm : SceneManager T) (g : GL.state).

Lemma fresh_name_above (used : list Z) : forall x, x ∈ used -> x < GL.fresh_name used.
Proof.
  unfold GL.fresh_name. induction used as [|y used IH]; intros x Hin.
  - now apply elem_of_nil in Hin.
  - cbn. apply elem_of_cons in Hin as [->|Hin]; [lia|].
    specialize (IH x Hin). lia.
Qed.

Lemma fresh_name_fresh (used : list Z) : GL.fresh_name used ∉ used.
Proof. intros Hin. apply fresh_name_above in Hin. lia. Qed.

Lemma fresh_name_positive (used : list Z) : 0 < GL.fresh_name used.
Proof.
  unfold GL.fresh_name. induction used as [|y used IH]; cbn; lia.
Qed.

Lemma binding_select_bind g (i id j : Z) :
  GL.binding (GL.glBindTexture id (GL.glActiveTexture (GL.GL_TEXTURE0 + i) g)) j
  = if decide (i = j) then id else GL.binding g j.
Proof.
  unfold GL.binding, GL.glBindTexture, GL.glActiveTexture; cbn [GL.bound_2d GL.active_unit].
  replace (GL.GL_TEXTURE0 + i - GL.GL_TEXTURE0) with i by lia.
  rewrite lookup_insert. destruct (decide (i = j)); reflexivity.
Qed.

Lemma BindGLTextures_loop_spec sm (count : nat) :
  forall (i : Z) g,
    0 <= i ->
    i + Z.of_nat count <= Z.of_nat (length (m_textureIDs sm)) ->
    exists g',
      BindGLTextures_loop count i sm g = Ok g' /\
      GL.names g' = GL.names g /\
      (forall (j : nat) e,
          i <= Z.of_nat j < i + Z.of_nat count ->
          m_textureIDs sm !! j = Some e ->
          GL.binding g' (Z.of_nat j) = TEXTURE_INFO.ID e) /\
      (forall j, ~ (i <= j < i + Z.of_nat count) -> GL.binding g' j = GL.binding g j).
Proof.
  induction count as [|count IH]; intros i g Hi Hlen.
  - exists g. cbn. split; [reflexivity|]. split; [reflexivity|].
    split; [intros; lia|reflexivity].
  - cbn [BindGLTextures_loop].
    destruct (array_get_in_range (m_textureIDs sm) i) as (e & He & ->); [lia|].
    cbn [bind].
    destruct (IH (i + 1)
                (GL.glBindTexture (TEXTURE_INFO.ID e)
                   (GL.glActiveTexture (GL.GL_TEXTURE0 + i) g)))
      as (g' & Hloop & Hnames & Hin & Hout); [lia|lia|].
    exists g'. split; [exact Hloop|]. split; [rewrite Hnames; reflexivity|]. split.
    + intros j e' Hj He'.
      destruct (decide (Z.of_nat j = i)) as [E|N].
      * rewrite Hout by lia. rewrite binding_select_bind.
        destruct (decide (i = Z.of_nat j)); [|lia].
        replace (Z.to_nat i) with j in He by lia. congruence.
      * apply Hin; [lia|exact He'].
    + intros j Hj. rewrite Hout by lia. rewrite binding_select_bind.
      destruct (decide (i = j)); [lia|reflexivity].
Qed.

Lemma BindGLTextures_spec w :
  wf (scene w) ->
  exists w',
    BindGLTextures w = Ok w' /\
    scene w' = scene w /\
    GL.names (gl w') = GL.names (gl w) /\
    forall (i : nat) e,
      loaded (scene w) !! i = Some e ->
      GL.binding (gl w') (Z.of_nat i) = TEXTURE_INFO.ID e.
Proof.
  intros [Hn Hlen]. unfold BindGLTextures.
  destruct (BindGLTextures_loop_spec (scene w) (Z.to_nat (m_loadedTextures (scene w)))
              0 (gl w)) as (g' & -> & Hnames & Hin & _); [lia|lia|].
  cbn [bind]. eexists. split; [reflexivity|]. cbn. split; [reflexivity|].
  split; [exact Hnames|].
  intros i e Hi. unfold loaded in Hi.
  apply lookup_take_Some in Hi as [He Hlt]. apply (Hin i e); [lia|exact He].
Qed.
End Binding.

Section Scenario.
Context {T : Type}.
Implicit Types (w : World T) (disk : filesystem).

Lemma CreateGLTexture_true disk filename tag w w' :
  CreateGLTexture disk filename tag w = Ok (true, w') ->
  0 <= m_loadedTextures (scene w) < Z.of_nat (length (m_textureIDs (scene w))) /\
  scene w' = registered (GL.fresh_name (GL.names (gl w))) tag (scene w) /\
  GL.names (gl w') = GL.fresh_name (GL.names (gl w)) :: GL.names (gl w).
Proof.
  intros Hr. pose proof (CreateGLTexture_scene _ _ _ _ _ _ Hr) as (Hn & (image & Hd & Hs) & Hsc).
  destruct (CreateGLTexture_success disk filename tag w image Hd Hs Hn)
    as (w1 & Hr1 & _ & Hnames & _).
  rewrite Hr in Hr1. injection Hr1 as <-. auto.
Qed.

Lemma register_two disk f1 t1 f2 t2 w w' :
  wf (scene w) ->
  m_loadedTextures (scene w) = 0 ->
  register_all disk [(f1, t1); (f2, t2)] w = Ok ([true; true], w') ->
  exists id1 id2,
    wf (scene w') /\ id1 <> id2 /\
    loaded (scene w') = [TEXTURE_INFO.Make id1 t1; TEXTURE_INFO.Make id2 t2].
Proof.
  intros Hwf Hzero Hr. cbn [register_all] in Hr.
  destruct (CreateGLTexture disk f1 t1 w) as [[b1 w1]|] eqn:H1;
    cbn [bind fst snd] in Hr; [|discriminate].
  destruct (CreateGLTexture disk f2 t2 w1) as [[b2 w2]|] eqn:H2;
    cbn [bind fst snd] in Hr; [|discriminate].
  injection Hr as -> -> <-.
  destruct (CreateGLTexture_loaded_tags _ _ _ _ _ _ Hwf H1) as (Hwf1 & _ & _).
  destruct (CreateGLTexture_loaded_tags _ _ _ _ _ _ Hwf1 H2) as (Hwf2 & _ & _).
  apply CreateGLTexture_true in H1 as (Hn1 & Hs1 & Hnames1).
  apply CreateGLTexture_true in H2 as (Hn2 & Hs2 & Hnames2).
  exists (GL.fresh_name (GL.names (gl w))), (GL.fresh_name (GL.names (gl w1))).
  split; [exact Hwf2|]. split.
  - rewrite Hnames1.
    pose proof (fresh_name_above (GL.fresh_name (GL.names (gl w)) :: GL.names (gl w))
                  (GL.fresh_name (GL.names (gl w)))) as Hlt.
    specialize (Hlt ltac:(left)). lia.
  - rewrite Hs2, loaded_registered by exact Hn2.
    rewrite Hs1, loaded_registered by exact Hn1.
    unfold loaded. now rewrite Hzero.
Qed.
End Scenario.

(** C6.  BindGLTextures binds the texture of the i-th registered entry to
    texture unit i, for every registered entry, counting from unit 0 in
    insertion order.  In particular, after "wood" and then "glasscup" have
    been registered in an empty registry, binding all textures leaves the
    texture of "wood" on unit 0 and the texture of "glasscup", a different
    one, on unit 1. *)
Theorem BindGLTextures_sequential_units {T : Type} (disk : filesystem) (w : World T) :
  wf (scene w) ->
  (exists w',
      BindGLTextures w = Ok w' /\
      scene w' = scene w /\
      forall (i : nat) e,
        loaded (scene w) !! i = Some e ->
        GL.binding (gl w') (Z.of_nat i) = TEXTURE_INFO.ID e) /\
  (m_loadedTextures (scene w) = 0 ->
   forall wood_jpg glasscup_jpg w1,
     register_all disk [(wood_jpg, "wood"); (glasscup_jpg, "glasscup")] w
     = Ok ([true; true], w1) ->
     exists w2 id_wood id_glasscup,
       BindGLTextures w1 = Ok w2 /\
       loaded (scene w2) = [TEXTURE_INFO.Make id_wood "wood";
                            TEXTURE_INFO.Make id_glasscup "glasscup"] /\
       id_wood <> id_glasscup /\
       GL.binding (gl w2) 0 = id_wood /\
       GL.binding (gl w2) 1 = id_glasscup).
Proof.
  intros Hwf. split.
  - destruct (BindGLTextures_spec w Hwf) as (w' & Hb & Hsc & _ & Hunits). eauto.
  - intros Hzero wood_jpg glasscup_jpg w1 Hr.
    destruct (register_two disk _ _ _ _ w w1 Hwf Hzero Hr) as (id1 & id2 & Hwf1 & Hne & Hl).
    destruct (BindGLTextures_spec w1 Hwf1) as (w2 & Hb & Hsc & _ & Hunits).
    exists w2, id1, id2. split; [exact Hb|]. rewrite Hsc. split; [exact Hl|].
    split; [exact Hne|]. split.
    + apply (Hunits 0%nat (TEXTURE_INFO.Make id1 "wood")). now rewrite Hl.
    + apply (Hunits 1%nat (TEXTURE_INFO.Make id2 "glasscup")). now rewrite Hl.
Qed.

Lemma BindGLTextures_sequential_units_witness :
  exists w1 w2 id_wood id_glasscup,
    register_all disk0 wood_then_glasscup (world0 (T := R)) = Ok ([true; true], w1) /\
    BindGLTextures w1 = Ok w2 /\
    id_wood <> id_glasscup /\
    GL.binding (gl w2) 0 = id_wood /\ GL.binding (gl w2) 1 = id_glasscup.
Proof.
  eexists.
  assert (register_all disk0 wood_then_glasscup (world0 (T := R)) = Ok ([true; true], _))
    as Hr by (vm_compute; reflexivity).
  destruct (proj2 (BindGLTextures_sequential_units disk0 (world0 (T := R)) wf_scene0)
              eq_refl "textures/wood.jpg" "textures/glasscup.jpg" _ Hr)
    as (w2 & id_wood & id_glasscup & Hb & _ & Hne & H0 & H1).
  exists w2, id_wood, id_glasscup. auto.
Defined.

(** ** The material registry *)

Section Materials.
Context {T : Type}.
Implicit Types (sm : SceneManager T) (m : OBJECT_MATERIAL.t T).

Lemma FindMaterial_absent sm tag material :
  tag ∉ material_tags sm ->
  FindMaterial tag material sm
  = Ok (negb (Z.of_nat (length (m_objectMaterials sm)) =? 0), material).
Proof.
  intros Hnot. rewrite FindMaterial_spec.
  now rewrite find_same_tag_absent by exact Hnot.
Qed.

Lemma FindMaterial_first sm tag material pre m post :
  m_objectMaterials sm = pre ++ m :: post ->
  tag ∉ (OBJECT_MATERIAL.tag <$> pre) ->
  OBJECT_MATERIAL.tag m = tag ->
  FindMaterial tag material sm
  = Ok (true,
        OBJECT_MATERIAL.Make (OBJECT_MATERIAL.diffuseColor m)
          (OBJECT_MATERIAL.specularColor m) (OBJECT_MATERIAL.shininess m)
          (OBJECT_MATERIAL.tag material)).
Proof.
  intros Hms Hpre Hm. rewrite FindMaterial_spec, Hms.
  rewrite find_same_tag_first by assumption.
  rewrite length_app. cbn [length].
  replace (Z.of_nat (length pre + S (length post)) =? 0) with false
    by (symmetry; apply Z.eqb_neq; lia).
  reflexivity.
Qed.
End Materials.

(** C7.  Defining a material never rejects a tag: after "define m1" and
    "define m2" with the same tag both entries are in the registry, in that
    order.  Lookup takes the first entry with the tag: when no earlier
    entry has it, FindMaterial returns true and copies the diffuse colour,
    specular colour and shininess of m1, the first defined, whatever m2
    holds and whatever is defined later. *)
Theorem FindMaterial_first_defined
    {T : Type} (sm : SceneManager T) (m1 m2 material : OBJECT_MATERIAL.t T)
    (later : list (OBJECT_MATERIAL.t T)) :
  OBJECT_MATERIAL.tag m2 = OBJECT_MATERIAL.tag m1 ->
  OBJECT_MATERIAL.tag m1 ∉ material_tags sm ->
  let sm2 := push_back m2 (push_back m1 sm) in
  m_objectMaterials sm2 = m_objectMaterials sm ++ [m1; m2] /\
  FindMaterial (OBJECT_MATERIAL.tag m1) material (foldl (fun s m => push_back m s) sm2 later)
  = Ok (true,
        OBJECT_MATERIAL.Make (OBJECT_MATERIAL.diffuseColor m1)
          (OBJECT_MATERIAL.specularColor m1) (OBJECT_MATERIAL.shininess m1)
          (OBJECT_MATERIAL.tag material)).
Proof.
  intros Htag Hnot sm2.
  assert (m_objectMaterials sm2 = m_objectMaterials sm ++ [m1; m2]) as Hms.
  { unfold sm2, push_back; cbn. now rewrite <- app_assoc. }
  split; [exact Hms|].
  assert (forall (l : list (OBJECT_MATERIAL.t T)) (s : SceneManager T),
             m_objectMaterials (foldl (fun s m => push_back m s) s l)
             = m_objectMaterials s ++ l) as Hfold.
  { induction l as [|x l IH]; intros s; cbn [foldl].
    - now rewrite app_nil_r.
    - rewrite IH. unfold push_back; cbn. now rewrite <- app_assoc. }
  apply (FindMaterial_first _ _ _ (m_objectMaterials sm) m1 (m2 :: later)).
  - rewrite Hfold, Hms, <- app_assoc. reflexivity.
  - exact Hnot.
  - reflexivity.
Qed.

Lemma FindMaterial_first_defined_witness :
  OBJECT_MATERIAL.shininess (woodMaterial (T := R))
    <> OBJECT_MATERIAL.shininess (shinyWoodMaterial (T := R)) /\
  FindMaterial "wood" glassMaterial
    (push_back shinyWoodMaterial (push_back woodMaterial (scene0 (T := R))))
  = Ok (true,
        OBJECT_MATERIAL.Make (OBJECT_MATERIAL.diffuseColor woodMaterial)
          (OBJECT_MATERIAL.specularColor woodMaterial)
          (OBJECT_MATERIAL.shininess woodMaterial) "glass").
Proof.
  split.
  - cbn. unfold Q2R; cbn. lra.
  - exact (proj2 (FindMaterial_first_defined (scene0 (T := R)) woodMaterial
                    shinyWoodMaterial glassMaterial [] eq_refl (not_elem_of_nil _))).
Defined.

(** C2 (the material half fails).  On the registry that
    DefineObjectMaterials builds, which has no "plastic", FindMaterial
    answers true for "plastic" and leaves the output material as it was:
    the miss is reported as a hit. *)
Theorem FindMaterial_miss_returns_true :
  ("plastic" ∉ material_tags (DefineObjectMaterials (scene0 (T := R)))) /\
  FindMaterial "plastic" glassMaterial (DefineObjectMaterials (scene0 (T := R)))
  = Ok (true, glassMaterial).
Proof.
  assert ("plastic" ∉ material_tags (DefineObjectMaterials (scene0 (T := R)))) as Hnot.
  { cbn. rewrite !not_elem_of_cons. repeat split; try discriminate. apply not_elem_of_nil. }
  split; [exact Hnot|]. now rewrite FindMaterial_absent by exact Hnot.
Qed.

(** ** Failing registrations and the capacity of the array *)

(** C4 (the last part fails).  Registering "textures/gray.bmp", a file
    that decodes to one channel, returns false and leaves the scene manager
    as it was; but glGenTextures and glBindTexture have run before the
    channels are looked at: texture name 1 is in use, its texture object
    exists and is still bound on the active unit, and the decoded image has
    not been freed. *)
Theorem CreateGLTexture_unsupported_leaks :
  exists w',
    CreateGLTexture disk0 "textures/gray.bmp" "gray" (world0 (T := R)) = Ok (false, w') /\
    scene w' = scene world0 /\
    GL.names (gl (world0 (T := R))) = [] /\
    GL.names (gl w') = [1] /\
    GL.objects (gl w') !! 1
    = Some (GL.TexObj GL.GL_REPEAT GL.GL_REPEAT GL.GL_LINEAR GL.GL_LINEAR None false) /\
    GL.binding (gl w') 0 = 1 /\
    stb_buffers w' = 1.
Proof.
  eexists. split; [vm_compute; reflexivity|].
  repeat split; vm_compute; reflexivity.
Qed.

Section Capacity.
Context {T : Type}.
Implicit Types (w : World T) (disk : filesystem).

Lemma supported_dec (image : Image) : {supported image} + {~ supported image}.
Proof.
  unfold supported.
  destruct (Z.eq_dec (colorChannels image) 3); [left; now left|].
  destruct (Z.eq_dec (colorChannels image) 4); [left; now right|].
  right. intros [?|?]; contradiction.
Qed.

(* a registration returns whenever the counter is inside the array *)
Lemma CreateGLTexture_returns disk filename tag w :
  0 <= m_loadedTextures (scene w) < Z.of_nat (length (m_textureIDs (scene w))) ->
  exists b w', CreateGLTexture disk filename tag w = Ok (b, w').
Proof.
  intros Hn. destruct (disk filename) as [image|] eqn:Hd.
  - destruct (supported_dec image) as [Hs|Hs].
    + destruct (CreateGLTexture_success disk filename tag w image Hd Hs Hn)
        as (w' & Hr & _). eauto.
    + destruct (CreateGLTexture_unsupported disk filename tag w image Hd Hs)
        as (w' & Hr & _). eauto.
  - rewrite CreateGLTexture_missing by exact Hd. eauto.
Qed.
End Capacity.

(** C8, as the code has it.  CreateGLTexture does not compare the counter
    with the capacity of the array.  While fewer than 16 textures are
    registered, every registration returns, true or false, the counter
    grows by one exactly when it returns true and stays within 16.  With 16
    textures registered, a file that is missing or has an unsupported
    channel count still makes it return false, and a file that decodes to 3
    or 4 channels makes it index the array at 16, outside its bounds. *)
Theorem CreateGLTexture_capacity
    {T : Type} (disk : filesystem) (filename tag : string) (w : World T) :
  wf (scene w) ->
  (m_loadedTextures (scene w) < MAX_TEXTURES ->
   exists b w',
     CreateGLTexture disk filename tag w = Ok (b, w') /\
     wf (scene w') /\
     m_loadedTextures (scene w') = m_loadedTextures (scene w) + Z.b2z b) /\
  (m_loadedTextures (scene w) = MAX_TEXTURES ->
   (forall image,
       disk filename = Some image -> supported image ->
       CreateGLTexture disk filename tag w = Undefined (ArrayOutOfBounds MAX_TEXTURES)) /\
   (disk filename = None \/
    (exists image, disk filename = Some image /\ ~ supported image) ->
    exists w', CreateGLTexture disk filename tag w = Ok (false, w') /\
               scene w' = scene w)).
Proof.
  intros Hwf. split.
  - intros Hlt. destruct Hwf as [Hn Hlen].
    destruct (CreateGLTexture_returns disk filename tag w) as (b & w' & Hr); [lia|].
    exists b, w'. split; [exact Hr|].
    destruct (CreateGLTexture_loaded_tags disk filename tag w b w' (conj Hn Hlen) Hr)
      as (Hwf' & _ & Hcount). auto.
  - intros Hfull. split.
    + intros image Hd Hs. rewrite <- Hfull.
      apply (CreateGLTexture_overflow disk filename tag w image Hd Hs).
      destruct Hwf as [_ Hlen]. lia.
    + intros [Hd|(image & Hd & Hs)].
      * rewrite CreateGLTexture_missing by exact Hd. eauto.
      * destruct (CreateGLTexture_unsupported disk filename tag w image Hd Hs)
          as (w' & Hr & Hsc & _). eauto.
Qed.

Lemma CreateGLTexture_capacity_witness :
  exists b w',
    CreateGLTexture disk0 "textures/wood.jpg" "wood" (world0 (T := R)) = Ok (b, w') /\
    wf (scene w') /\
    m_loadedTextures (scene w') = m_loadedTextures (scene (world0 (T := R))) + Z.b2z b.
Proof.
  apply (proj1 (CreateGLTexture_capacity disk0 "textures/wood.jpg" "wood"
                  (world0 (T := R)) wf_scene0)).
  vm_compute. reflexivity.
Defined.

(** C8, as stated, fails: after sixteen registrations that all return true,
    the scene manager is well formed and full, and the registration of one
    more decodable file does not return false: it writes at index 16. *)
Lemma CreateGLTexture_no_bounds_check :
  exists w16,
    register_all disk0 sixteen_textures (world0 (T := R)) = Ok (replicate 16 true, w16) /\
    wf (scene w16) /\
    m_loadedTextures (scene w16) = MAX_TEXTURES /\
    CreateGLTexture disk0 "textures/rust.jpg" "rust" w16
    = Undefined (ArrayOutOfBounds 16).
Proof.
  eexists. split; [vm_compute; reflexivity|].
  split; [unfold wf, MAX_TEXTURES; cbn; lia|].
  split; vm_compute; reflexivity.
Qed.

(** ** DestroyGLTextures *)

Section Destroy.
Context {T : Type}.
Implicit Types (w : World T) (g : GL.state).

Lemma DestroyGLTextures_loop_spec (count : nat) :
  forall (i : Z) (arr : list TEXTURE_INFO.t) g,
    0 <= i ->
    i + Z.of_nat count <= Z.of_nat (length arr) ->
    exists arr' g' fresh,
      DestroyGLTextures_loop count i arr g = Ok (arr', g') /\
      TEXTURE_INFO.tag <$> arr' = TEXTURE_INFO.tag <$> arr /\
      GL.names g' = fresh ++ GL.names g /\
      length fresh = count /\
      GL.objects g' = GL.objects g /\
      GL.bound_2d g' = GL.bound_2d g /\
      (forall (j : nat) e',
          i <= Z.of_nat j < i + Z.of_nat count ->
          arr' !! j = Some e' ->
          TEXTURE_INFO.ID e' ∈ fresh /\ TEXTURE_INFO.ID e' ∉ GL.names g) /\
      (forall (j : nat), ~ (i <= Z.of_nat j < i + Z.of_nat count) -> arr' !! j = arr !! j).
Proof.
  induction count as [|count IH]; intros i arr g Hi Hlen.
  - exists arr, g, []. cbn. repeat split; try reflexivity; intros; lia.
  - cbn [DestroyGLTextures_loop GL.glGenTextures1].
    rewrite array_update_in_range by lia. cbn [bind].
    set (id := GL.fresh_name (GL.names g)).
    set (arr1 := alter (TEXTURE_INFO.set_ID id) (Z.to_nat i) arr).
    set (g1 := GL.State (id :: GL.names g) (GL.objects g) (GL.active_unit g) (GL.bound_2d g)).
    assert (length arr1 = length arr) as Hlen1 by apply length_alter.
    destruct (IH (i + 1) arr1 g1) as
      (arr' & g' & fresh & Hloop & Htags & Hnames & Hfresh & Hobj & Hbound & Hin & Hout);
      [lia|rewrite Hlen1; lia|].
    exists arr', g', (fresh ++ [id]).
    split; [exact Hloop|]. split.
    { rewrite Htags. unfold arr1. apply list_eq. intros k.
      rewrite !list_lookup_fmap. destruct (decide (k = Z.to_nat i)) as [->|Hk].
      - rewrite list_lookup_alter_eq. now destruct (arr !! Z.to_nat i).
      - now rewrite list_lookup_alter_ne by congruence. }
    split; [rewrite Hnames; cbn; now rewrite <- app_assoc|].
    split; [rewrite length_app, Hfresh; cbn; lia|].
    split; [rewrite Hobj; reflexivity|]. split; [rewrite Hbound; reflexivity|]. split.
    + intros j e' Hj He'. destruct (decide (Z.of_nat j = i)) as [E|N].
      * rewrite Hout in He' by lia. unfold arr1 in He'.
        replace (Z.to_nat i) with j in He' by lia.
        rewrite list_lookup_alter_eq in He'.
        destruct (arr !! j) as [e|]; [|discriminate]. injection He' as <-. cbn.
        split; [apply elem_of_app; right; left|apply fresh_name_fresh].
      * destruct (Hin j e') as [Hf Hn]; [lia|exact He'|].
        split; [apply elem_of_app; now left|].
        intros Hbad. apply Hn. cbn. now right.
    + intros j Hj. rewrite Hout by lia. unfold arr1.
      apply list_lookup_alter_ne. lia.
Qed.
End Destroy.

(** C9.  DestroyGLTextures returns on every well-formed scene manager and
    deletes nothing: every texture name in use before is still in use and
    the texture objects are untouched.  It generates one new name for each
    registered entry and stores it as the entry's ID, so every registered
    entry ends with a name that was not in use before.  The number of
    registered textures and the tags are unchanged. *)
Theorem DestroyGLTextures_regenerates {T : Type} (w : World T) :
  wf (scene w) ->
  exists w' fresh,
    DestroyGLTextures w = Ok w' /\
    m_loadedTextures (scene w') = m_loadedTextures (scene w) /\
    TEXTURE_INFO.tag <$> m_textureIDs (scene w') = TEXTURE_INFO.tag <$> m_textureIDs (scene w) /\
    GL.names (gl w') = fresh ++ GL.names (gl w) /\
    Z.of_nat (length fresh) = m_loadedTextures (scene w) /\
    GL.objects (gl w') = GL.objects (gl w) /\
    forall (i : nat) e',
      loaded (scene w') !! i = Some e' ->
      TEXTURE_INFO.ID e' ∈ fresh /\ TEXTURE_INFO.ID e' ∉ GL.names (gl w).
Proof.
  intros [Hn Hlen]. unfold DestroyGLTextures.
  destruct (DestroyGLTextures_loop_spec (Z.to_nat (m_loadedTextures (scene w))) 0
              (m_textureIDs (scene w)) (gl w))
    as (arr' & g' & fresh & -> & Htags & Hnames & Hfresh & Hobj & _ & Hin & _); [lia|lia|].
  cbn [bind]. eexists. exists fresh. split; [reflexivity|]. cbn.
  split; [reflexivity|]. split; [exact Htags|]. split; [exact Hnames|].
  split; [lia|]. split; [exact Hobj|].
  intros i e' Hi. unfold loaded in Hi. cbn in Hi.
  apply lookup_take_Some in Hi as [He Hlt]. apply (Hin i e'); [lia|exact He].
Qed.

Lemma DestroyGLTextures_regenerates_witness :
  exists w2 w' fresh,
    register_all disk0 wood_then_glasscup (world0 (T := R)) = Ok ([true; true], w2) /\
    DestroyGLTextures w2 = Ok w' /\
    m_loadedTextures (scene w') = m_loadedTextures (scene w2) /\
    GL.names (gl w') = fresh ++ GL.names (gl w2) /\
    Z.of_nat (length fresh) = m_loadedTextures (scene w2).
Proof.
  eexists.
  assert (register_all disk0 wood_then_glasscup (world0 (T := R)) = Ok ([true; true], _))
    as Hr by (vm_compute; reflexivity).
  destruct (register_all_success disk0 wood_then_glasscup world0 _ wf_scene0 Hr) as [Hwf _].
  destruct (DestroyGLTextures_regenerates _ Hwf)
    as (w' & fresh & Hd & Hcount & _ & Hnames & Hlen & _).
  exists w', fresh. auto.
Defined.

(** ** Shader state: colour, texture and material *)

Section ShaderState.
Context {T : Type}.
Implicit Types (sm : SceneManager T) (sh : ShaderManager.t T).

Lemma wf_with_shader sm o : wf (with_shader o sm) <-> wf sm.
Proof. reflexivity. Qed.

Lemma uniform_of_with_shader sm sh name :
  uniform_of name (with_shader (Some sh) sm) = ShaderManager.get name sh.
Proof. reflexivity. Qed.

Lemma SetShaderColor_uniforms sm sh (r g b a : T) :
  m_pShaderManager sm = Some sh ->
  uniform_of g_UseTextureName (SetShaderColor r g b a sm)
  = Some (ShaderManager.UInt 0) /\
  uniform_of g_ColorValueName (SetShaderColor r g b a sm)
  = Some (ShaderManager.UVec4 (glm.Vec4 r g b a)).
Proof.
  intros Hsh. unfold SetShaderColor, on_shader. rewrite Hsh.
  rewrite !uniform_of_with_shader.
  unfold ShaderManager.get, ShaderManager.setVec4Value, ShaderManager.setIntValue,
    ShaderManager.set; cbn [ShaderManager.uniforms].
  split.
  - rewrite lookup_insert_ne by discriminate. now rewrite lookup_insert_eq.
  - now rewrite lookup_insert_eq.
Qed.

Lemma SetShaderTexture_uniforms sm sh (tag : string) :
  m_pShaderManager sm = Some sh ->
  wf sm ->
  exists sm',
    SetShaderTexture tag sm = Ok sm' /\
    uniform_of g_UseTextureName sm' = Some (ShaderManager.UInt 1) /\
    uniform_of g_TextureValueName sm'
    = Some (ShaderManager.USampler2D (index_from tag (loaded_tags sm) 0 (-1))) /\
    sm' = with_shader (m_pShaderManager sm') sm /\
    is_Some (m_pShaderManager sm').
Proof.
  intros Hsh Hwf. unfold SetShaderTexture. rewrite Hsh.
  rewrite FindTextureSlot_spec by exact Hwf. cbn [bind].
  eexists. split; [reflexivity|].
  rewrite !uniform_of_with_shader.
  unfold ShaderManager.get, ShaderManager.setSampler2DValue, ShaderManager.setIntValue,
    ShaderManager.set; cbn [ShaderManager.uniforms].
  split; [|split; [|split]].
  - rewrite lookup_insert_ne by discriminate. now rewrite lookup_insert_eq.
  - now rewrite lookup_insert_eq.
  - reflexivity.
  - cbn. eauto.
Qed.
(* without a shader manager the two calls change nothing *)
Lemma SetShaderColor_null sm (r g b a : T) :
  m_pShaderManager sm = None -> SetShaderColor r g b a sm = sm.
Proof. intros Hsh. unfold SetShaderColor, on_shader. now rewrite Hsh. Qed.

Lemma SetShaderTexture_null sm (tag : string) :
  m_pShaderManager sm = None -> SetShaderTexture tag sm = Ok sm.
Proof. intros Hsh. unfold SetShaderTexture. now rewrite Hsh. Qed.
End ShaderState.

(** C10.  With a shader manager attached, SetShaderColor sets the
    "bUseTexture" uniform to 0 (false) and "objectColor" to the given RGBA
    value, for every RGBA value; SetShaderTexture sets "bUseTexture" to 1
    (true), for every tag.  So after either call the flag tells which of
    the two was called last: a colour after a texture leaves 0, a texture
    after a colour leaves 1. *)
Theorem use_texture_flag_last_selected
    {T : Type} (sm : SceneManager T) (sh : ShaderManager.t T) :
  m_pShaderManager sm = Some sh ->
  wf sm ->
  (forall r g b a : T,
      uniform_of g_UseTextureName (SetShaderColor r g b a sm)
      = Some (ShaderManager.UInt 0) /\
      uniform_of g_ColorValueName (SetShaderColor r g b a sm)
      = Some (ShaderManager.UVec4 (glm.Vec4 r g b a))) /\
  (forall tag,
      exists sm',
        SetShaderTexture tag sm = Ok sm' /\
        uniform_of g_UseTextureName sm' = Some (ShaderManager.UInt 1)) /\
  (forall tag (r g b a : T),
      exists sm',
        SetShaderTexture tag sm = Ok sm' /\
        uniform_of g_UseTextureName (SetShaderColor r g b a sm')
        = Some (ShaderManager.UInt 0)) /\
  (forall tag (r g b a : T),
      exists sm',
        SetShaderTexture tag (SetShaderColor r g b a sm) = Ok sm' /\
        uniform_of g_UseTextureName sm' = Some (ShaderManager.UInt 1)).
Proof.
  intros Hsh Hwf. split; [|split; [|split]].
  - intros r g b a. now apply (SetShaderColor_uniforms sm sh).
  - intros tag.
    destruct (SetShaderTexture_uniforms sm sh tag Hsh Hwf) as (sm' & Hr & Hflag & _).
    eauto.
  - intros tag r g b a.
    destruct (SetShaderTexture_uniforms sm sh tag Hsh Hwf)
      as (sm' & Hr & _ & _ & _ & [sh' Hsh']).
    exists sm'. split; [exact Hr|].
    now apply (SetShaderColor_uniforms sm' sh').
  - intros tag r g b a.
    assert (exists sh1, m_pShaderManager (SetShaderColor r g b a sm) = Some sh1) as [sh1 Hsh1].
    { unfold SetShaderColor, on_shader. rewrite Hsh. cbn. eauto. }
    assert (wf (SetShaderColor r g b a sm)) as Hwf1.
    { unfold SetShaderColor, on_shader. rewrite Hsh. exact Hwf. }
    destruct (SetShaderTexture_uniforms _ sh1 tag Hsh1 Hwf1) as (sm' & Hr & Hflag & _).
    eauto.
Qed.

Lemma use_texture_flag_last_selected_witness :
  uniform_of g_UseTextureName (SetShaderColor 1%R 1%R 1%R 1%R (scene0 (T := R)))
  = Some (ShaderManager.UInt 0) /\
  exists sm',
    SetShaderTexture "wood" (scene0 (T := R)) = Ok sm' /\
    uniform_of g_UseTextureName sm' = Some (ShaderManager.UInt 1).
Proof.
  pose proof (use_texture_flag_last_selected (scene0 (T := R)) (ShaderManager.Make ∅)
                eq_refl wf_scene0) as (Hcolor & Htexture & _).
  split.
  - exact (proj1 (Hcolor 1%R 1%R 1%R 1%R)).
  - exact (Htexture "wood").
Defined.

(** ** The material registry never reaches the shader *)

Section Independence.
Context {T : Type} `{Scalar T}.
Implicit Types (w : World T) (sm : SceneManager T) (ms : list (OBJECT_MATERIAL.t T)).

Lemma on_shader_materials f sm ms :
  on_shader f (with_materials ms sm) = with_materials ms (on_shader f sm).
Proof. unfold on_shader; cbn. now destruct (m_pShaderManager sm). Qed.

Lemma SetShaderTexture_materials tag sm ms :
  SetShaderTexture tag (with_materials ms sm)
  = result_map (with_materials ms) (SetShaderTexture tag sm).
Proof.
  unfold SetShaderTexture; cbn [m_pShaderManager with_materials].
  destruct (m_pShaderManager sm) as [sh|]; [|reflexivity].
  rewrite (FindTextureSlot_ext (with_materials ms sm) sm tag eq_refl eq_refl).
  now destruct (FindTextureSlot tag sm).
Qed.

Lemma CreateGLTexture_materials disk filename tag w ms :
  CreateGLTexture disk filename tag (in_world (with_materials ms) w)
  = result_map (fun r => (r.1, in_world (with_materials ms) r.2))
      (CreateGLTexture disk filename tag w).
Proof.
  unfold CreateGLTexture.
  cbn -[GL.glBindTexture GL.glTexParameteri_wrap GL.glTexParameteri_filter
        GL.glTexImage2D GL.glGenerateMipmap GL.fresh_name Z.add Z.sub array_update].
  destruct (disk filename) as [image|]; [|reflexivity].
  destruct (colorChannels image =? 3); [|destruct (colorChannels image =? 4)];
    [| |reflexivity].
  all: destruct (array_update (m_textureIDs (scene w)) _ _) as [arr1|];
         cbn [bind result_map]; [|reflexivity].
  all: destruct (array_update arr1 _ _) as [arr2|]; cbn [bind result_map]; reflexivity.
Qed.

Lemma BindGLTextures_loop_materials count sm ms :
  forall i g,
    BindGLTextures_loop count i (with_materials ms sm) g = BindGLTextures_loop count i sm g.
Proof.
  induction count as [|count IH]; intros i g; cbn; [reflexivity|].
  destruct (array_get (m_textureIDs sm) i); cbn; [apply IH|reflexivity].
Qed.

Lemma BindGLTextures_materials w ms :
  BindGLTextures (in_world (with_materials ms) w)
  = result_map (in_world (with_materials ms)) (BindGLTextures w).
Proof.
  unfold BindGLTextures; cbn [scene in_world gl m_loadedTextures with_materials].
  rewrite BindGLTextures_loop_materials.
  now destruct (BindGLTextures_loop _ 0 (scene w) (gl w)).
Qed.

Lemma DestroyGLTextures_materials w ms :
  DestroyGLTextures (in_world (with_materials ms) w)
  = result_map (in_world (with_materials ms)) (DestroyGLTextures w).
Proof.
  unfold DestroyGLTextures;
    cbn [scene in_world gl m_loadedTextures m_textureIDs with_materials].
  now destruct (DestroyGLTextures_loop _ 0 (m_textureIDs (scene w)) (gl w)).
Qed.

Lemma result_map_bind {A B C} (f : A -> B) (r : result A) (k : B -> result C) :
  bind (result_map f r) k = bind r (fun a => k (f a)).
Proof. now destruct r. Qed.

Lemma bind_result_map {A B C} (f : B -> C) (r : result A) (k : A -> result B) :
  result_map f (bind r k) = bind r (fun a => result_map f (k a)).
Proof. now destruct r. Qed.

Lemma bind_ext {A B} (r : result A) (k k' : A -> result B) :
  (forall a, k a = k' a) -> bind r k = bind r k'.
Proof. intros E. destruct r; cbn; [apply E|reflexivity]. Qed.

Lemma LoadSceneTextures_materials disk w ms :
  LoadSceneTextures disk (in_world (with_materials ms) w)
  = result_map (in_world (with_materials ms)) (LoadSceneTextures disk w).
Proof.
  unfold LoadSceneTextures.
  repeat (rewrite CreateGLTexture_materials, result_map_bind, bind_result_map;
          apply bind_ext; intros [? ?]; cbn [fst snd]).
  apply BindGLTextures_materials.
Qed.

(** Each call commutes with a change of the material registry: run on the
    same world with other materials, it faults or returns alike and ends in
    the same world up to the materials. *)
Lemma perform_materials disk op w ms :
  exists ms',
    perform disk op (in_world (with_materials ms) w)
    = result_map (fun w' => in_world (with_materials ms') w') (perform disk op w).
Proof.
  destruct op; cbn [perform].
  - exists ms. rewrite CreateGLTexture_materials.
    now destruct (CreateGLTexture disk filename tag w) as [[b w']|].
  - exists ms. apply BindGLTextures_materials.
  - exists ms. apply DestroyGLTextures_materials.
  - exists ms. cbn [scene in_world].
    rewrite (FindTextureSlot_ext (with_materials ms (scene w)) (scene w) tag eq_refl eq_refl).
    now destruct (FindTextureSlot tag (scene w)).
  - exists ms. rewrite !FindMaterial_spec. reflexivity.
  - exists ms. unfold SetTransformations, in_world; cbn. now rewrite on_shader_materials.
  - exists ms. unfold SetShaderColor, in_world; cbn. now rewrite on_shader_materials.
  - exists ms. unfold lift; cbn [scene in_world]. rewrite SetShaderTexture_materials.
    now destruct (SetShaderTexture textureTag (scene w)).
  - exists ms. unfold SetTextureUVScale, in_world; cbn. now rewrite on_shader_materials.
  - exists ms. unfold lift; cbn [scene in_world].
    change (SetShaderMaterial textureTag) with (SetShaderTexture (T := T) textureTag).
    rewrite SetShaderTexture_materials.
    now destruct (SetShaderTexture textureTag (scene w)).
  - exists ms. apply LoadSceneTextures_materials.
  - exists (ms ++ [m]). reflexivity.
  - exists (ms ++ [woodMaterial; glassMaterial; goldMaterial; leatherMaterial; canvasMaterial]).
    cbn. unfold in_world, DefineObjectMaterials, push_back; cbn.
    now rewrite <- !app_assoc.
  - exists ms. unfold lift, SetupSceneLights; cbn [scene in_world m_pShaderManager with_materials].
    now destruct (m_pShaderManager (scene w)).
Qed.

Lemma run_materials disk ops :
  forall w ms,
    exists ms',
      run disk ops (in_world (with_materials ms) w)
      = result_map (fun w' => in_world (with_materials ms') w') (run disk ops w).
Proof.
  induction ops as [|op ops IH]; intros w ms; cbn [run].
  - exists ms. reflexivity.
  - destruct (perform_materials disk op w ms) as (ms1 & ->).
    destruct (perform disk op w) as [w1|f]; cbn [result_map bind].
    + apply IH.
    + exists ms. reflexivity.
Qed.
Lemma shader_of_materials (r : result (World T)) ms :
  result_map shader_of (result_map (fun w' => in_world (with_materials ms) w') r)
  = result_map shader_of r.
Proof. now destruct r. Qed.

Lemma perform_material_definition disk op w :
  is_material_definition op = true ->
  exists ms, perform disk op w = Ok (in_world (with_materials ms) w).
Proof.
  destruct op; try discriminate; intros _; cbn [perform].
  - exists (m_objectMaterials (scene w) ++ [m]). reflexivity.
  - eexists. unfold in_world, DefineObjectMaterials, push_back; cbn. reflexivity.
Qed.

Lemma run_without_material_definitions disk ops :
  forall w,
    result_map shader_of (run disk ops w)
    = result_map shader_of (run disk (without_material_definitions ops) w).
Proof.
  induction ops as [|op ops IH]; intros w; [reflexivity|].
  cbn [without_material_definitions List.filter run].
  destruct (is_material_definition op) eqn:Hop; cbn [negb].
  - destruct (perform_material_definition disk op w Hop) as (ms & ->). cbn [bind].
    destruct (run_materials disk ops w ms) as (ms' & ->).
    rewrite shader_of_materials. apply IH.
  - cbn [run]. destruct (perform disk op w) as [w1|f]; cbn [bind]; [apply IH|reflexivity].
Qed.
End Independence.

(** C3.  SetShaderMaterial and SetShaderTexture are the same function of
    the tag and the scene manager.  With a shader manager attached,
    SetShaderMaterial sets "bUseTexture" to 1 (true) and the sampler
    "objectTexture" to FindTextureSlot of the tag, looked up in the texture
    registry.  It does not read the material registry: on a scene manager
    with other materials it does the same.  The same holds for every
    sequence of calls of the scene manager's operations: the shader state at
    the end does not depend on the materials the registry held at the
    start, and it is the same when the material definitions are taken out of
    the sequence; so no value of a material is ever written to the shader. *)
Theorem SetShaderMaterial_is_SetShaderTexture {T : Type} `{Scalar T} :
  (forall tag (sm : SceneManager T),
      SetShaderMaterial tag sm = SetShaderTexture tag sm) /\
  (forall tag (sm : SceneManager T) sh,
      m_pShaderManager sm = Some sh ->
      wf sm ->
      exists slot sm',
        FindTextureSlot tag sm = Ok slot /\
        SetShaderMaterial tag sm = Ok sm' /\
        uniform_of g_UseTextureName sm' = Some (ShaderManager.UInt 1) /\
        uniform_of g_TextureValueName sm' = Some (ShaderManager.USampler2D slot)) /\
  (forall tag (sm : SceneManager T) ms,
      SetShaderMaterial tag (with_materials ms sm)
      = result_map (with_materials ms) (SetShaderMaterial tag sm)) /\
  (forall disk ops (w : World T) ms,
      result_map shader_of (run disk ops (in_world (with_materials ms) w))
      = result_map shader_of (run disk ops w)) /\
  (forall disk ops (w : World T),
      result_map shader_of (run disk ops w)
      = result_map shader_of (run disk (without_material_definitions ops) w)).
Proof.
  split; [|split; [|split; [|split]]].
  - reflexivity.
  - intros tag sm sh Hsh Hwf.
    destruct (SetShaderTexture_uniforms sm sh tag Hsh Hwf)
      as (sm' & Hr & Hflag & Hsampler & _).
    exists (index_from tag (loaded_tags sm) 0 (-1)), sm'.
    split; [now apply FindTextureSlot_spec|]. auto.
  - intros tag sm ms. apply SetShaderTexture_materials.
  - intros disk ops w ms.
    destruct (run_materials disk ops w ms) as (ms' & ->).
    apply shader_of_materials.
  - intros disk ops w. apply run_without_material_definitions.
Qed.

Lemma SetShaderMaterial_is_SetShaderTexture_witness :
  exists slot sm',
    FindTextureSlot "wood" (scene0 (T := R)) = Ok slot /\
    SetShaderMaterial "wood" (scene0 (T := R)) = Ok sm' /\
    uniform_of g_UseTextureName sm' = Some (ShaderManager.UInt 1) /\
    uniform_of g_TextureValueName sm' = Some (ShaderManager.USampler2D slot).
Proof.
  exact (proj1 (proj2 (SetShaderMaterial_is_SetShaderTexture (T := R)))
           "wood" scene0 (ShaderManager.Make ∅) eq_refl wf_scene0).
Defined.

(** * Further properties of the operations *)

(** ** Lookups by tag *)

Section LookupCases.
Context {T : Type}.
Implicit Types (sm : SceneManager T) (tag : string).

Lemma index_from_cases tag (tags : list string) (i d : Z) :
  ((tag ∉ tags) /\ index_from tag tags i d = d) \/
  (exists pre post,
      tags = pre ++ tag :: post /\ (tag ∉ pre) /\
      index_from tag tags i d = i + Z.of_nat (length pre)).
Proof.
  revert i. induction tags as [|t tags IH]; intros i.
  - left. split; [apply not_elem_of_nil|reflexivity].
  - cbn [index_from]. destruct (String.eqb_spec t tag) as [->|Hne].
    + right. exists [], tags. cbn. split; [reflexivity|]. split; [apply not_elem_of_nil|lia].
    + destruct (IH (i + 1)) as [[Hnot Hd]|(pre & post & -> & Hpre & Hk)].
      * left. split; [|exact Hd]. apply not_elem_of_cons. auto.
      * right. exists (t :: pre), post. cbn [app length].
        split; [reflexivity|]. split; [apply not_elem_of_cons; auto|lia].
Qed.

Lemma FindTextureID_loop_found fuel sm tag textureID index :
  FindTextureID_loop fuel sm tag textureID index true = Ok textureID.
Proof. destruct fuel; cbn; now rewrite andb_false_r. Qed.

Lemma loaded_lookup sm (i : nat) e :
  Z.of_nat i < m_loadedTextures sm ->
  m_textureIDs sm !! i = Some e ->
  loaded sm !! i = Some e.
Proof. intros Hi He. unfold loaded. now rewrite lookup_take_lt by lia. Qed.

Lemma length_loaded sm :
  wf sm -> length (loaded sm) = Z.to_nat (m_loadedTextures sm).
Proof. intros [Hn Hlen]. unfold loaded. rewrite length_take. lia. Qed.

Lemma FindTextureID_loop_spec sm tag (k : nat) :
  wf sm ->
  forall (fuel : nat) (index textureID : Z),
    0 <= index ->
    Z.of_nat k = m_loadedTextures sm - index ->
    (k <= fuel)%nat ->
    FindTextureID_loop fuel sm tag textureID index false
    = Ok match List.find (fun e => String.eqb (TEXTURE_INFO.tag e) tag)
                 (drop (Z.to_nat index) (loaded sm)) with
         | Some e => int_of_GLuint (TEXTURE_INFO.ID e)
         | None => textureID
         end.
Proof.
  intros Hwf. pose proof (length_loaded sm Hwf) as Hlen. destruct Hwf as [Hn Harr].
  induction k as [|k IH]; intros fuel index textureID Hi Hk Hfuel.
  - rewrite drop_ge by lia. cbn [List.find].
    destruct fuel; cbn;
      replace (index <? m_loadedTextures sm) with false
        by (symmetry; apply Z.ltb_ge; lia); reflexivity.
  - destruct fuel as [|fuel]; [lia|]. cbn [FindTextureID_loop].
    replace (index <? m_loadedTextures sm) with true by (symmetry; apply Z.ltb_lt; lia).
    cbn [andb negb].
    destruct (array_get_in_range (m_textureIDs sm) index) as (e & He & ->); [lia|].
    cbn [bind].
    rewrite (drop_S _ e (Z.to_nat index)) by (apply loaded_lookup; [lia|exact He]).
    cbn [List.find].
    destruct (String.eqb (TEXTURE_INFO.tag e) tag).
    + apply FindTextureID_loop_found.
    + rewrite IH by lia.
      now replace (Z.to_nat (index + 1)) with (S (Z.to_nat index)) by lia.
Qed.

Lemma find_tag_first tag (pre post : list TEXTURE_INFO.t) e :
  tag ∉ (TEXTURE_INFO.tag <$> pre) ->
  TEXTURE_INFO.tag e = tag ->
  List.find (fun e => String.eqb (TEXTURE_INFO.tag e) tag) (pre ++ e :: post) = Some e.
Proof.
  intros Hnot He. induction pre as [|p pre IH]; cbn.
  - now rewrite He, String.eqb_refl.
  - cbn in Hnot. apply not_elem_of_cons in Hnot as [Hne Hnot].
    destruct (String.eqb_spec (TEXTURE_INFO.tag p) tag) as [E|_]; [congruence|].
    now apply IH.
Qed.

Lemma find_tag_absent tag (l : list TEXTURE_INFO.t) :
  tag ∉ (TEXTURE_INFO.tag <$> l) ->
  List.find (fun e => String.eqb (TEXTURE_INFO.tag e) tag) l = None.
Proof.
  induction l as [|p l IH]; cbn; [reflexivity|]. intros Hnot.
  apply not_elem_of_cons in Hnot as [Hne Hnot].
  destruct (String.eqb_spec (TEXTURE_INFO.tag p) tag) as [E|_]; [congruence|].
  now apply IH.
Qed.

Lemma int_of_GLuint_small (u : Z) : 0 <= u < 2 ^ 31 -> int_of_GLuint u = u.
Proof.
  intros Hu. unfold int_of_GLuint. cbn zeta.
  rewrite Z.mod_small by lia.
  now replace (u <? 2 ^ 31) with true by (symmetry; apply Z.ltb_lt; lia).
Qed.
End LookupCases.

(** X1.  On a well-formed scene manager FindTextureSlot returns either -1,
    and then no registered entry has the tag, or an index k of a registered
    entry (0 <= k < m_loadedTextures) that has the tag while no entry
    before it has. *)
Theorem FindTextureSlot_first_match {T : Type} (sm : SceneManager T) (tag : string) :
  wf sm ->
  exists k,
    FindTextureSlot tag sm = Ok k /\
    ((k = -1 /\ tag ∉ loaded_tags sm) \/
     (0 <= k < m_loadedTextures sm /\
      loaded_tags sm !! Z.to_nat k = Some tag /\
      forall j : nat, (j < Z.to_nat k)%nat -> loaded_tags sm !! j <> Some tag)).
Proof.
  intros Hwf. exists (index_from tag (loaded_tags sm) 0 (-1)).
  split; [now apply FindTextureSlot_spec|].
  pose proof (length_loaded_tags sm Hwf) as Hlen. destruct Hwf as [Hn _].
  destruct (index_from_cases tag (loaded_tags sm) 0 (-1))
    as [[Hnot ->]|(pre & post & Htags & Hpre & ->)].
  - left. auto.
  - right. rewrite Htags in Hlen |- *. rewrite length_app in Hlen. cbn in Hlen.
    split; [lia|]. replace (Z.to_nat (0 + Z.of_nat (length pre))) with (length pre) by lia.
    split.
    + now rewrite list_lookup_middle.
    + intros j Hj Hjt. rewrite lookup_app_l in Hjt by exact Hj.
      apply Hpre. apply list_elem_of_lookup. eauto.
Qed.

Lemma FindTextureSlot_first_match_witness :
  exists k,
    FindTextureSlot "wood" (scene0 (T := R)) = Ok k /\
    ((k = -1 /\ "wood" ∉ loaded_tags (scene0 (T := R))) \/
     (0 <= k < m_loadedTextures (scene0 (T := R)) /\
      loaded_tags (scene0 (T := R)) !! Z.to_nat k = Some "wood" /\
      forall j : nat, (j < Z.to_nat k)%nat ->
                      loaded_tags (scene0 (T := R)) !! j <> Some "wood")).
Proof. exact (FindTextureSlot_first_match scene0 "wood" wf_scene0). Defined.

(** X2.  FindTextureID agrees with FindTextureSlot.  On a well-formed scene
    manager it returns -1 when no registered entry has the tag; when [e] is
    the first registered entry with the tag, at position k, FindTextureSlot
    returns k and FindTextureID returns the ID of [e] converted to int,
    which is the ID itself when it is below 2^31. *)
Theorem FindTextureID_first_match {T : Type} (sm : SceneManager T) (tag : string) :
  wf sm ->
  (tag ∉ loaded_tags sm -> FindTextureID tag sm = Ok (-1)) /\
  (forall pre e post,
      loaded sm = pre ++ e :: post ->
      TEXTURE_INFO.tag e = tag ->
      tag ∉ (TEXTURE_INFO.tag <$> pre) ->
      FindTextureSlot tag sm = Ok (Z.of_nat (length pre)) /\
      FindTextureID tag sm = Ok (int_of_GLuint (TEXTURE_INFO.ID e)) /\
      (0 <= TEXTURE_INFO.ID e < 2 ^ 31 ->
       FindTextureID tag sm = Ok (TEXTURE_INFO.ID e))).
Proof.
  intros Hwf.
  assert (FindTextureID tag sm
          = Ok match List.find (fun e => String.eqb (TEXTURE_INFO.tag e) tag) (loaded sm) with
               | Some e => int_of_GLuint (TEXTURE_INFO.ID e)
               | None => -1
               end) as Hid.
  { unfold FindTextureID.
    rewrite (FindTextureID_loop_spec sm tag (Z.to_nat (m_loadedTextures sm)) Hwf);
      [reflexivity|lia| |lia].
    destruct Hwf as [Hn _]. lia. }
  split.
  - intros Hnot. rewrite Hid. now rewrite find_tag_absent.
  - intros pre e post Hl He Hpre.
    assert (FindTextureID tag sm = Ok (int_of_GLuint (TEXTURE_INFO.ID e))) as Hfound.
    { rewrite Hid, Hl. now rewrite find_tag_first. }
    split; [|split; [exact Hfound|]].
    + rewrite FindTextureSlot_spec by exact Hwf. unfold loaded_tags.
      rewrite Hl, fmap_app, fmap_cons, He.
      rewrite index_from_first by exact Hpre. now rewrite length_fmap.
    + intros Hsmall. rewrite Hfound. now rewrite int_of_GLuint_small.
Qed.

Lemma world2_registered :
  register_all disk0 wood_then_glasscup (world0 (T := R)) = Ok ([true; true], world2).
Proof. vm_compute. reflexivity. Qed.

Lemma wf_world2 : wf (scene (world2 (T := R))).
Proof.
  exact (proj1 (register_all_success disk0 wood_then_glasscup world0 world2
                  wf_scene0 world2_registered)).
Qed.

Lemma FindTextureID_first_match_witness :
  FindTextureSlot "glasscup" (scene (world2 (T := R))) = Ok 1 /\
  FindTextureID "glasscup" (scene (world2 (T := R))) = Ok 2.
Proof.
  destruct (proj2 (FindTextureID_first_match (scene (world2 (T := R))) "glasscup" wf_world2)
              [TEXTURE_INFO.Make 1 "wood"] (TEXTURE_INFO.Make 2 "glasscup") []
              eq_refl eq_refl) as (Hslot & _ & Hid).
  - cbn. apply not_elem_of_cons. split; [discriminate|apply not_elem_of_nil].
  - split; [exact Hslot|]. apply Hid. cbn. lia.
Defined.

(** ** More on registration *)

Section MoreRegistration.
Context {T : Type}.
Implicit Types (w : World T) (disk : filesystem).

Lemma uploads_supported disk filename :
  uploads disk filename = true <->
  exists image, disk filename = Some image /\ supported image.
Proof.
  unfold uploads, supported. destruct (disk filename) as [image|].
  - rewrite orb_true_iff, !Z.eqb_eq. split.
    + intros Hc. eauto.
    + intros (image' & [= <-] & Hc). exact Hc.
  - split; [discriminate|]. intros (image & Hd & _). discriminate.
Qed.

Lemma CreateGLTexture_uploads disk filename tag w :
  0 <= m_loadedTextures (scene w) < Z.of_nat (length (m_textureIDs (scene w))) ->
  exists w', CreateGLTexture disk filename tag w = Ok (uploads disk filename, w').
Proof.
  intros Hn. destruct (uploads disk filename) eqn:Hu.
  - apply uploads_supported in Hu as (image & Hd & Hs).
    destruct (CreateGLTexture_success disk filename tag w image Hd Hs Hn) as (w' & Hr & _).
    eauto.
  - destruct (disk filename) as [image|] eqn:Hd.
    + destruct (CreateGLTexture_unsupported disk filename tag w image Hd) as (w' & Hr & _).
      * intros Hs. assert (uploads disk filename = true) as Hu'
          by (apply uploads_supported; eauto). congruence.
      * eauto.
    + rewrite CreateGLTexture_missing by exact Hd. eauto.
Qed.

(** With room for all of them, the registrations of a list all return, each
    with the answer [uploads] gives for its file, and the tags of the
    uploaded ones are appended in order. *)
Lemma register_all_uploads disk regs :
  forall w,
    wf (scene w) ->
    m_loadedTextures (scene w) + Z.of_nat (length regs) <= MAX_TEXTURES ->
    exists w',
      register_all disk regs w = Ok ((fun r => uploads disk r.1) <$> regs, w') /\
      wf (scene w') /\
      loaded_tags (scene w')
      = loaded_tags (scene w) ++ (List.filter (fun r => uploads disk r.1) regs).*2 /\
      m_loadedTextures (scene w') <= m_loadedTextures (scene w) + Z.of_nat (length regs).
Proof.
  induction regs as [|[filename tag] regs IH]; intros w Hwf Hroom.
  - exists w. cbn. rewrite app_nil_r. split; [reflexivity|]. split; [exact Hwf|].
    split; [reflexivity|lia].
  - cbn [length] in Hroom. cbn [register_all].
    destruct (CreateGLTexture_uploads disk filename tag w) as (w1 & Hc).
    { destruct Hwf as [Hn Hlen]. lia. }
    rewrite Hc. cbn [bind fst snd].
    destruct (CreateGLTexture_loaded_tags disk filename tag w _ w1 Hwf Hc)
      as (Hwf1 & Htags1 & Hcount1).
    destruct (IH w1 Hwf1) as (w' & Hr & Hwf' & Htags' & Hcount').
    { rewrite Hcount1. destruct (uploads disk filename); cbn; lia. }
    rewrite Hr. cbn [bind fst snd]. exists w'.
    split; [reflexivity|]. split; [exact Hwf'|]. split.
    + rewrite Htags', Htags1, <- app_assoc. cbn [List.filter fst].
      destruct (uploads disk filename); reflexivity.
    + rewrite Hcount1 in Hcount'. cbn [length].
      destruct (uploads disk filename); cbn [Z.b2z] in Hcount'; lia.
Qed.
End MoreRegistration.

(** X3.  The texture registry accepts a tag that is already registered:
    the registration returns true and adds a second entry with the tag.
    Lookup still returns the slot of the first one, and no lookup, for any
    tag, returns the slot of the new entry. *)
Theorem CreateGLTexture_duplicate_tag
    {T : Type} (disk : filesystem) (filename tag : string) (w w' : World T) (k : Z) :
  wf (scene w) ->
  tag ∈ loaded_tags (scene w) ->
  FindTextureSlot tag (scene w) = Ok k ->
  CreateGLTexture disk filename tag w = Ok (true, w') ->
  loaded_tags (scene w') = loaded_tags (scene w) ++ [tag] /\
  m_loadedTextures (scene w') = m_loadedTextures (scene w) + 1 /\
  FindTextureSlot tag (scene w') = Ok k /\
  forall tag', FindTextureSlot tag' (scene w') <> Ok (m_loadedTextures (scene w)).
Proof.
  intros Hwf Hin Hk Hc.
  destruct (CreateGLTexture_loaded_tags disk filename tag w true w' Hwf Hc)
    as (Hwf' & Htags & Hcount).
  split; [exact Htags|]. split; [exact Hcount|].
  pose proof (length_loaded_tags (scene w) Hwf) as Hlen.
  rewrite FindTextureSlot_spec in Hk by exact Hwf. injection Hk as Hk.
  assert (index_from tag (loaded_tags (scene w')) 0 (-1) = k) as Hk'.
  { rewrite Htags, index_from_app_found by exact Hin. exact Hk. }
  split; [rewrite FindTextureSlot_spec by exact Hwf'; now rewrite Hk'|].
  intros tag'. rewrite FindTextureSlot_spec by exact Hwf'. intros [= Hslot].
  destruct Hwf as [Hn _].
  destruct (String.eqb_spec tag tag') as [<-|Hne].
  - rewrite Hk' in Hslot.
    destruct (index_from_range tag (loaded_tags (scene w)) 0 (-1)) as [E|Hr]; lia.
  - rewrite Htags in Hslot.
    destruct (index_from_cases tag' (loaded_tags (scene w) ++ [tag]) 0 (-1))
      as [[_ E]|(pre & post & Happ & Hpre & E)]; [lia|].
    rewrite E in Hslot.
    assert (length pre = length (loaded_tags (scene w))) as Hpl by lia.
    apply app_inj_1 in Happ as [_ Hpost]; [|now symmetry].
    destruct post; cbn in Hpost; congruence.
Qed.

Lemma CreateGLTexture_duplicate_tag_witness :
  exists w',
    CreateGLTexture disk0 "textures/wood.jpg" "wood" (world2 (T := R)) = Ok (true, w') /\
    loaded_tags (scene w') = loaded_tags (scene (world2 (T := R))) ++ ["wood"] /\
    FindTextureSlot "wood" (scene w') = Ok 0.
Proof.
  eexists.
  assert (CreateGLTexture disk0 "textures/wood.jpg" "wood" (world2 (T := R)) = Ok (true, _))
    as Hc by (vm_compute; reflexivity).
  assert ("wood" ∈ loaded_tags (scene (world2 (T := R)))) as Hin.
  { assert (loaded_tags (scene (world2 (T := R))) = ["wood"; "glasscup"]) as ->
      by (vm_compute; reflexivity). left. }
  assert (FindTextureSlot "wood" (scene (world2 (T := R))) = Ok 0) as Hk
    by (vm_compute; reflexivity).
  destruct (CreateGLTexture_duplicate_tag disk0 _ _ _ _ 0 wf_world2 Hin Hk Hc)
    as (Htags & _ & Hslot & _).
  auto.
Defined.

(** X4.  With room in the array, CreateGLTexture always returns, and it
    returns true exactly when the file decodes to an image with 3 or 4
    channels.  When it returns false the scene manager is unchanged; when it
    returns true one entry is appended, holding the tag and a texture name
    that was not in use, and the entries registered before are untouched. *)
Theorem CreateGLTexture_true_iff_supported
    {T : Type} (disk : filesystem) (filename tag : string) (w : World T) :
  wf (scene w) ->
  m_loadedTextures (scene w) < MAX_TEXTURES ->
  exists b w',
    CreateGLTexture disk filename tag w = Ok (b, w') /\
    (b = true <-> exists image, disk filename = Some image /\ supported image) /\
    (b = false -> scene w' = scene w) /\
    (b = true ->
     loaded (scene w')
     = loaded (scene w) ++ [TEXTURE_INFO.Make (GL.fresh_name (GL.names (gl w))) tag] /\
     (GL.fresh_name (GL.names (gl w)) ∉ GL.names (gl w)) /\
     m_objectMaterials (scene w') = m_objectMaterials (scene w) /\
     m_pShaderManager (scene w') = m_pShaderManager (scene w)).
Proof.
  intros [Hn Hlen] Hroom.
  destruct (CreateGLTexture_uploads disk filename tag w) as (w' & Hc); [lia|].
  exists (uploads disk filename), w'. split; [exact Hc|].
  split; [apply uploads_supported|].
  pose proof (CreateGLTexture_scene _ _ _ _ _ _ Hc) as Hsc.
  split; intros Hb; rewrite Hb in Hsc.
  - exact Hsc.
  - destruct Hsc as (Hrange & _ & ->).
    split; [now apply loaded_registered|].
    split; [apply fresh_name_fresh|]. split; reflexivity.
Qed.

Lemma CreateGLTexture_true_iff_supported_witness :
  exists b w',
    CreateGLTexture disk0 "textures/missing.jpeg" "missing" (world2 (T := R)) = Ok (b, w') /\
    (b = true <->
     exists image, disk0 "textures/missing.jpeg" = Some image /\ supported image) /\
    (b = false -> scene w' = scene (world2 (T := R))).
Proof.
  destruct (CreateGLTexture_true_iff_supported disk0 "textures/missing.jpeg" "missing"
              (world2 (T := R)) wf_world2) as (b & w' & Hc & Hiff & Hfalse & _).
  - vm_compute. reflexivity.
  - exists b, w'. auto.
Defined.

(** ** The texture a registration uploads *)

Section Upload.
Context {T : Type}.
Implicit Types (w : World T) (disk : filesystem) (g : GL.state).

(* one call on the texture bound on the active unit *)
Lemma on_bound_spec f g (id : Z) t :
  GL.binding g (GL.active_unit g) = id ->
  GL.objects g !! id = Some t ->
  GL.objects (GL.on_bound f g) !! id = Some (f t) /\
  (forall id', id' <> id -> GL.objects (GL.on_bound f g) !! id' = GL.objects g !! id') /\
  GL.active_unit (GL.on_bound f g) = GL.active_unit g /\
  GL.bound_2d (GL.on_bound f g) = GL.bound_2d g /\
  GL.names (GL.on_bound f g) = GL.names g /\
  GL.binding (GL.on_bound f g) (GL.active_unit (GL.on_bound f g)) = id.
Proof.
  intros Hb Ht. unfold GL.on_bound; cbn [GL.objects GL.active_unit GL.bound_2d GL.names].
  rewrite Hb. split; [now rewrite lookup_alter_eq, Ht|].
  split; [intros id' Hne; now rewrite lookup_alter_ne by congruence|].
  repeat split. exact Hb.
Qed.

Lemma glBindTexture_spec g (id : Z) :
  id <> 0 ->
  (exists t, GL.objects (GL.glBindTexture id g) !! id = Some t) /\
  (forall id', id' <> id -> GL.objects (GL.glBindTexture id g) !! id' = GL.objects g !! id') /\
  GL.active_unit (GL.glBindTexture id g) = GL.active_unit g /\
  GL.bound_2d (GL.glBindTexture id g) = <[GL.active_unit g := id]> (GL.bound_2d g) /\
  GL.names (GL.glBindTexture id g) = GL.names g /\
  GL.binding (GL.glBindTexture id g) (GL.active_unit (GL.glBindTexture id g)) = id.
Proof.
  intros Hid. unfold GL.glBindTexture, GL.binding;
    cbn [GL.objects GL.active_unit GL.bound_2d GL.names].
  replace (id =? 0) with false by (symmetry; apply Z.eqb_neq; exact Hid).
  rewrite lookup_insert_eq. cbn [default].
  split; [|split; [|repeat split]].
  - destruct (GL.objects g !! id) as [t|] eqn:E; [eauto|].
    rewrite lookup_insert_eq. eauto.
  - intros id' Hne. destruct (GL.objects g !! id); [reflexivity|].
    now rewrite lookup_insert_ne by congruence.
Qed.

(* the calls CreateGLTexture makes on a new texture, from the first
   glBindTexture to the last *)
Lemma upload_chain g (id : Z) fmt wd ht :
  id <> 0 ->
  let g' :=
    GL.glBindTexture 0 (GL.glGenerateMipmap (GL.glTexImage2D fmt wd ht
      (GL.glTexParameteri_filter GL.GL_TEXTURE_MAG_FILTER GL.GL_LINEAR
        (GL.glTexParameteri_filter GL.GL_TEXTURE_MIN_FILTER GL.GL_LINEAR
          (GL.glTexParameteri_wrap GL.GL_TEXTURE_WRAP_T GL.GL_REPEAT
            (GL.glTexParameteri_wrap GL.GL_TEXTURE_WRAP_S GL.GL_REPEAT
              (GL.glBindTexture id g))))))) in
  GL.objects g' !! id
  = Some (GL.TexObj GL.GL_REPEAT GL.GL_REPEAT GL.GL_LINEAR GL.GL_LINEAR
            (Some (fmt, wd, ht)) true) /\
  (forall id', id' <> id -> GL.objects g' !! id' = GL.objects g !! id') /\
  GL.active_unit g' = GL.active_unit g /\
  GL.bound_2d g' = <[GL.active_unit g := 0]> (GL.bound_2d g) /\
  GL.names g' = GL.names g.
Proof.
  intros Hid. cbv zeta.
  unfold GL.glGenerateMipmap, GL.glTexImage2D, GL.glTexParameteri_filter,
    GL.glTexParameteri_wrap.
  destruct (glBindTexture_spec g id Hid) as ((t0 & Ht0) & Ho0 & Ha0 & Hb0 & Hn0 & Hc0).
  set (g0 := GL.glBindTexture id g) in *.
  pose proof (on_bound_spec
                (fun t => GL.TexObj GL.GL_REPEAT (GL.wrap_t t) (GL.min_filter t)
                            (GL.mag_filter t) (GL.image t) (GL.mipmaps t)) g0 id t0 Hc0 Ht0)
    as (Ht1 & Ho1 & Ha1 & Hb1 & Hn1 & Hc1).
  set (g1 := GL.on_bound _ g0) in *.
  pose proof (on_bound_spec
                (fun t => GL.TexObj (GL.wrap_s t) GL.GL_REPEAT (GL.min_filter t)
                            (GL.mag_filter t) (GL.image t) (GL.mipmaps t)) g1 id _ Hc1 Ht1)
    as (Ht2 & Ho2 & Ha2 & Hb2 & Hn2 & Hc2).
  set (g2 := GL.on_bound _ g1) in *.
  pose proof (on_bound_spec
                (fun t => GL.TexObj (GL.wrap_s t) (GL.wrap_t t) GL.GL_LINEAR
                            (GL.mag_filter t) (GL.image t) (GL.mipmaps t)) g2 id _ Hc2 Ht2)
    as (Ht3 & Ho3 & Ha3 & Hb3 & Hn3 & Hc3).
  set (g3 := GL.on_bound _ g2) in *.
  pose proof (on_bound_spec
                (fun t => GL.TexObj (GL.wrap_s t) (GL.wrap_t t) (GL.min_filter t)
                            GL.GL_LINEAR (GL.image t) (GL.mipmaps t)) g3 id _ Hc3 Ht3)
    as (Ht4 & Ho4 & Ha4 & Hb4 & Hn4 & Hc4).
  set (g4 := GL.on_bound _ g3) in *.
  pose proof (on_bound_spec
                (fun t => GL.TexObj (GL.wrap_s t) (GL.wrap_t t) (GL.min_filter t)
                            (GL.mag_filter t) (Some (fmt, wd, ht)) (GL.mipmaps t))
                g4 id _ Hc4 Ht4)
    as (Ht5 & Ho5 & Ha5 & Hb5 & Hn5 & Hc5).
  set (g5 := GL.on_bound _ g4) in *.
  pose proof (on_bound_spec
                (fun t => GL.TexObj (GL.wrap_s t) (GL.wrap_t t) (GL.min_filter t)
                            (GL.mag_filter t) (GL.image t) true) g5 id _ Hc5 Ht5)
    as (Ht6 & Ho6 & Ha6 & Hb6 & Hn6 & Hc6).
  set (g6 := GL.on_bound _ g5) in *.
  unfold GL.glBindTexture; cbn [GL.objects GL.active_unit GL.bound_2d GL.names Z.eqb].
  split; [|split; [|split; [|split]]].
  - rewrite Ht6. reflexivity.
  - intros id' Hne.
    rewrite Ho6, Ho5, Ho4, Ho3, Ho2, Ho1, Ho0 by exact Hne. reflexivity.
  - rewrite Ha6, Ha5, Ha4, Ha3, Ha2, Ha1, Ha0. reflexivity.
  - rewrite Hb6, Hb5, Hb4, Hb3, Hb2, Hb1, Hb0, Ha6, Ha5, Ha4, Ha3, Ha2, Ha1, Ha0.
    apply insert_insert_eq.
  - rewrite Hn6, Hn5, Hn4, Hn3, Hn2, Hn1, Hn0. reflexivity.
Qed.

(* the OpenGL state and the services after a registration that returns true *)
Lemma CreateGLTexture_true_gl disk filename tag w w' :
  CreateGLTexture disk filename tag w = Ok (true, w') ->
  exists image,
    disk filename = Some image /\ supported image /\
    let id := GL.fresh_name (GL.names (gl w)) in
    let fmt := if colorChannels image =? 3 then GL.GL_RGB8 else GL.GL_RGBA8 in
    GL.objects (gl w') !! id
    = Some (GL.TexObj GL.GL_REPEAT GL.GL_REPEAT GL.GL_LINEAR GL.GL_LINEAR
              (Some (fmt, width image, height image)) true) /\
    (forall id', id' <> id -> GL.objects (gl w') !! id' = GL.objects (gl w) !! id') /\
    GL.active_unit (gl w') = GL.active_unit (gl w) /\
    GL.bound_2d (gl w') = <[GL.active_unit (gl w) := 0]> (GL.bound_2d (gl w)) /\
    GL.names (gl w') = id :: GL.names (gl w) /\
    stb_buffers w' = stb_buffers w /\
    console w'
    = console w ++ [MsgLoaded filename (width image) (height image) (colorChannels image)].
Proof.
  intros Hr. unfold CreateGLTexture in Hr.
  destruct (disk filename) as [image|] eqn:Hd; [|discriminate].
  cbn -[GL.glBindTexture GL.glTexParameteri_wrap GL.glTexParameteri_filter
        GL.glTexImage2D GL.glGenerateMipmap GL.fresh_name Z.add Z.sub] in Hr.
  pose proof (fresh_name_positive (GL.names (gl w))) as Hpos.
  exists image. split; [reflexivity|].
  destruct (Z.eqb_spec (colorChannels image) 3) as [E3|N3];
    [|destruct (Z.eqb_spec (colorChannels image) 4) as [E4|N4]; [|discriminate]].
  all: split; [unfold supported; auto|].
  all: destruct (array_update (m_textureIDs (scene w)) _ _) as [arr1|];
         cbn [bind] in Hr; [|discriminate].
  all: destruct (array_update arr1 _ _) as [arr2|]; cbn [bind] in Hr; [|discriminate].
  all: injection Hr as <-; cbn [gl stb_buffers console].
  all: match goal with
       | |- context [GL.glTexImage2D ?fmt ?wd ?ht (_ (_ (_ (_ (GL.glBindTexture ?id ?g)))))] =>
           destruct (upload_chain g id fmt wd ht) as (Hobj & Hothers & Hactive & Hbound & Hnames);
             [lia|]
       end.
  all: cbn zeta.
  all: split; [exact Hobj|]. all: split; [exact Hothers|]. all: split; [exact Hactive|].
  all: split; [exact Hbound|]. all: split; [exact Hnames|].
  all: split; [lia|reflexivity].
Qed.
End Upload.

(** X5.  A registration that returns true leaves a complete texture: the
    texture object of the new entry wraps with GL_REPEAT in both
    directions, filters with GL_LINEAR for minification and magnification,
    holds the image in GL_RGB8 for 3 channels and GL_RGBA8 for 4, with the
    size of the file, and has its mipmaps.  No other texture object is
    touched, the texture is unbound again from the active unit, the decoded
    image is freed and one line is written to the console. *)
Theorem CreateGLTexture_uploads_texture
    {T : Type} (disk : filesystem) (filename tag : string) (w w' : World T) :
  CreateGLTexture disk filename tag w = Ok (true, w') ->
  exists image e,
    disk filename = Some image /\
    last (loaded (scene w')) = Some e /\
    TEXTURE_INFO.tag e = tag /\
    TEXTURE_INFO.ID e <> 0 /\
    GL.objects (gl w') !! TEXTURE_INFO.ID e
    = Some (GL.TexObj GL.GL_REPEAT GL.GL_REPEAT GL.GL_LINEAR GL.GL_LINEAR
              (Some (if colorChannels image =? 3 then GL.GL_RGB8 else GL.GL_RGBA8,
                     width image, height image)) true) /\
    (forall id', id' <> TEXTURE_INFO.ID e ->
                 GL.objects (gl w') !! id' = GL.objects (gl w) !! id') /\
    GL.binding (gl w') (GL.active_unit (gl w')) = 0 /\
    stb_buffers w' = stb_buffers w /\
    console w'
    = console w ++ [MsgLoaded filename (width image) (height image) (colorChannels image)].
Proof.
  intros Hc.
  destruct (CreateGLTexture_true_gl disk filename tag w w' Hc)
    as (image & Hd & _ & Hobj & Hothers & Hactive & Hbound & _ & Hbufs & Hout).
  destruct (CreateGLTexture_true disk filename tag w w' Hc) as (Hn & Hsc & _).
  exists image, (TEXTURE_INFO.Make (GL.fresh_name (GL.names (gl w))) tag).
  split; [exact Hd|]. split.
  { rewrite Hsc, loaded_registered by exact Hn. apply last_snoc. }
  split; [reflexivity|]. cbn [TEXTURE_INFO.ID].
  split; [pose proof (fresh_name_positive (GL.names (gl w))); lia|].
  split; [exact Hobj|]. split; [exact Hothers|]. split.
  { unfold GL.binding. rewrite Hbound, Hactive, lookup_insert_eq. reflexivity. }
  split; [exact Hbufs|exact Hout].
Qed.

Lemma CreateGLTexture_uploads_texture_witness :
  exists w' image e,
    CreateGLTexture disk0 "textures/keyboard.png" "keyboard" (world2 (T := R))
    = Ok (true, w') /\
    disk0 "textures/keyboard.png" = Some image /\
    last (loaded (scene w')) = Some e /\
    GL.objects (gl w') !! TEXTURE_INFO.ID e
    = Some (GL.TexObj GL.GL_REPEAT GL.GL_REPEAT GL.GL_LINEAR GL.GL_LINEAR
              (Some (if colorChannels image =? 3 then GL.GL_RGB8 else GL.GL_RGBA8,
                     width image, height image)) true).
Proof.
  eexists.
  assert (CreateGLTexture disk0 "textures/keyboard.png" "keyboard" (world2 (T := R))
          = Ok (true, _)) as Hc by (vm_compute; reflexivity).
  destruct (CreateGLTexture_uploads_texture disk0 _ _ _ _ Hc)
    as (image & e & Hd & Hlast & _ & _ & Hobj & _).
  exists image, e. auto.
Defined.

(** ** What a script can do to the registries *)

Section Growth.
Context {T : Type} `{Scalar T}.
Implicit Types (w : World T) (sm : SceneManager T) (disk : filesystem).

Lemma grows_from_refl sm : wf sm -> grows_from sm sm.
Proof.
  intros Hwf. split; [exact Hwf|].
  split; exists []; now rewrite app_nil_r.
Qed.

Lemma grows_from_trans sm1 sm2 sm3 :
  grows_from sm1 sm2 -> grows_from sm2 sm3 -> grows_from sm1 sm3.
Proof.
  intros (_ & (t1 & Ht1) & (m1 & Hm1)) (Hwf & (t2 & Ht2) & (m2 & Hm2)).
  split; [exact Hwf|]. split.
  - exists (t1 ++ t2). now rewrite Ht2, Ht1, app_assoc.
  - exists (m1 ++ m2). now rewrite Hm2, Hm1, app_assoc.
Qed.

(* a change of the shader pointer alone *)
Lemma grows_from_with_shader sm o : wf sm -> grows_from sm (with_shader o sm).
Proof. intros Hwf. split; [exact Hwf|]. split; exists []; now rewrite app_nil_r. Qed.

Lemma grows_from_on_shader sm f : wf sm -> grows_from sm (on_shader f sm).
Proof.
  intros Hwf. unfold on_shader. destruct (m_pShaderManager sm).
  - now apply grows_from_with_shader.
  - now apply grows_from_refl.
Qed.

Lemma grows_from_with_materials sm more :
  wf sm -> grows_from sm (with_materials (m_objectMaterials sm ++ more) sm).
Proof.
  intros Hwf. split; [exact Hwf|]. split.
  - exists []. now rewrite app_nil_r.
  - exists more. reflexivity.
Qed.

Lemma CreateGLTexture_grows disk filename tag w b w' :
  wf (scene w) ->
  CreateGLTexture disk filename tag w = Ok (b, w') ->
  grows_from (scene w) (scene w').
Proof.
  intros Hwf Hc.
  destruct (CreateGLTexture_loaded_tags disk filename tag w b w' Hwf Hc) as (Hwf' & Htags & _).
  split; [exact Hwf'|]. split; [eauto|].
  exists []. rewrite app_nil_r.
  apply CreateGLTexture_scene in Hc. destruct b.
  - destruct Hc as (_ & _ & ->). reflexivity.
  - now rewrite Hc.
Qed.

Lemma BindGLTextures_scene w w' : BindGLTextures w = Ok w' -> scene w' = scene w.
Proof.
  unfold BindGLTextures. destruct (BindGLTextures_loop _ _ _ _); cbn; [|discriminate].
  now intros [= <-].
Qed.

Lemma DestroyGLTextures_grows w w' :
  wf (scene w) -> DestroyGLTextures w = Ok w' -> grows_from (scene w) (scene w').
Proof.
  intros [Hn Hlen]. unfold DestroyGLTextures.
  destruct (DestroyGLTextures_loop_spec (Z.to_nat (m_loadedTextures (scene w))) 0
              (m_textureIDs (scene w)) (gl w))
    as (arr' & g' & fresh & -> & Htags & _); [lia|lia|].
  cbn [bind]. intros [= <-]. cbn [scene].
  assert (length arr' = length (m_textureIDs (scene w))) as Hlen'.
  { rewrite <- (length_fmap TEXTURE_INFO.tag arr'), Htags. apply length_fmap. }
  split; [split; cbn; [exact Hn|now rewrite Hlen']|]. split.
  - exists []. rewrite app_nil_r. unfold loaded_tags, loaded; cbn.
    now rewrite !fmap_take, Htags.
  - exists []. now rewrite app_nil_r.
Qed.

Lemma SetShaderTexture_grows tag sm sm' :
  wf sm -> SetShaderTexture tag sm = Ok sm' -> grows_from sm sm'.
Proof.
  intros Hwf. unfold SetShaderTexture. destruct (m_pShaderManager sm).
  - destruct (FindTextureSlot tag sm); cbn; [|discriminate].
    intros [= <-]. now apply grows_from_with_shader.
  - intros [= <-]. now apply grows_from_refl.
Qed.

Lemma SetupSceneLights_grows sm sm' :
  wf sm -> SetupSceneLights sm = Ok sm' -> grows_from sm sm'.
Proof.
  intros Hwf. unfold SetupSceneLights. destruct (m_pShaderManager sm); [|discriminate].
  intros [= <-]. now apply grows_from_with_shader.
Qed.

Lemma register_all_grows disk regs :
  forall w bs w',
    wf (scene w) ->
    register_all disk regs w = Ok (bs, w') ->
    grows_from (scene w) (scene w').
Proof.
  induction regs as [|[filename tag] regs IH]; intros w bs w' Hwf Hr.
  - cbn in Hr. injection Hr as <- <-. now apply grows_from_refl.
  - cbn [register_all] in Hr.
    destruct (CreateGLTexture disk filename tag w) as [[b w1]|] eqn:Hc;
      cbn [bind fst snd] in Hr; [|discriminate].
    destruct (register_all disk regs w1) as [[bs1 w2]|] eqn:Hrest;
      cbn [bind fst snd] in Hr; [|discriminate].
    injection Hr as <- <-.
    pose proof (CreateGLTexture_grows _ _ _ _ _ _ Hwf Hc) as Hg1.
    apply (grows_from_trans _ _ _ Hg1). apply (IH w1 bs1 w2); [apply Hg1|exact Hrest].
Qed.

(* LoadSceneTextures is the ten registrations, then BindGLTextures *)
Lemma LoadSceneTextures_register_all disk w :
  LoadSceneTextures disk w
  = (r <- register_all disk scene_textures w ;; BindGLTextures r.2).
Proof.
  unfold LoadSceneTextures, scene_textures. cbn [register_all].
  repeat (match goal with
          | |- context [CreateGLTexture ?d ?f ?t ?x] =>
              destruct (CreateGLTexture d f t x) as [[? ?]|]; cbn [bind fst snd];
                [|reflexivity]
          end).
  reflexivity.
Qed.

Lemma LoadSceneTextures_grows disk w w' :
  wf (scene w) -> LoadSceneTextures disk w = Ok w' -> grows_from (scene w) (scene w').
Proof.
  intros Hwf. rewrite LoadSceneTextures_register_all.
  destruct (register_all disk scene_textures w) as [[bs w1]|] eqn:Hr; cbn [bind snd];
    [|discriminate].
  intros Hb. rewrite (BindGLTextures_scene _ _ Hb).
  now apply (register_all_grows disk scene_textures w bs w1).
Qed.

Lemma perform_grows disk op w w' :
  wf (scene w) -> perform disk op w = Ok w' -> grows_from (scene w) (scene w').
Proof.
  intros Hwf. destruct op; cbn [perform].
  - destruct (CreateGLTexture disk filename tag w) as [[b w1]|] eqn:Hc; cbn; [|discriminate].
    intros [= <-]. now apply (CreateGLTexture_grows disk filename tag w b).
  - intros Hb. rewrite (BindGLTextures_scene _ _ Hb). now apply grows_from_refl.
  - now apply DestroyGLTextures_grows.
  - destruct (FindTextureSlot tag (scene w)); cbn; [|discriminate].
    intros [= <-]. now apply grows_from_refl.
  - destruct (FindMaterial tag material (scene w)); cbn; [|discriminate].
    intros [= <-]. now apply grows_from_refl.
  - intros [= <-]. now apply grows_from_on_shader.
  - intros [= <-]. now apply grows_from_on_shader.
  - unfold lift. destruct (SetShaderTexture textureTag (scene w)) as [sm'|] eqn:Hs; cbn;
      [|discriminate].
    intros [= <-]. now apply (SetShaderTexture_grows textureTag).
  - intros [= <-]. now apply grows_from_on_shader.
  - unfold lift. destruct (SetShaderMaterial textureTag (scene w)) as [sm'|] eqn:Hs; cbn;
      [|discriminate].
    intros [= <-]. now apply (SetShaderTexture_grows textureTag).
  - now apply LoadSceneTextures_grows.
  - intros [= <-]. apply (grows_from_with_materials (scene w) [m] Hwf).
  - intros [= <-]. cbn [scene in_world].
    replace (DefineObjectMaterials (scene w))
      with (with_materials
              (m_objectMaterials (scene w)
                 ++ [woodMaterial; glassMaterial; goldMaterial; leatherMaterial; canvasMaterial])
              (scene w)).
    + now apply grows_from_with_materials.
    + unfold DefineObjectMaterials, push_back; cbn. now rewrite <- !app_assoc.
  - unfold lift. destruct (SetupSceneLights (scene w)) as [sm'|] eqn:Hs; cbn; [|discriminate].
    intros [= <-]. now apply SetupSceneLights_grows.
Qed.

Lemma run_grows disk ops :
  forall w w', wf (scene w) -> run disk ops w = Ok w' -> grows_from (scene w) (scene w').
Proof.
  induction ops as [|op ops IH]; intros w w' Hwf Hr; cbn [run] in Hr.
  - injection Hr as <-. now apply grows_from_refl.
  - destruct (perform disk op w) as [w1|] eqn:Hp; cbn [bind] in Hr; [|discriminate].
    pose proof (perform_grows disk op w w1 Hwf Hp) as Hg.
    apply (grows_from_trans _ _ _ Hg). apply IH; [apply Hg|exact Hr].
Qed.
End Growth.

(** X8.  The texture registry only grows, whatever is called.  After any
    sequence of calls that returns, started on a well-formed scene manager,
    the scene manager is well formed again (the counter is within the
    array), the tags registered before are still registered, in the same
    slots, possibly followed by new ones, and FindTextureSlot returns the
    same slot for every tag that had one. *)
Theorem script_keeps_texture_slots
    {T : Type} `{Scalar T} (disk : filesystem) (ops : list (operation T)) (w w' : World T) :
  wf (scene w) ->
  run disk ops w = Ok w' ->
  wf (scene w') /\
  (exists more, loaded_tags (scene w') = loaded_tags (scene w) ++ more) /\
  forall tag k,
    FindTextureSlot tag (scene w) = Ok k -> 0 <= k ->
    FindTextureSlot tag (scene w') = Ok k.
Proof.
  intros Hwf Hr.
  destruct (run_grows disk ops w w' Hwf Hr) as (Hwf' & (more & Htags) & _).
  split; [exact Hwf'|]. split; [eauto|].
  intros tag k Hk Hpos.
  rewrite FindTextureSlot_spec in Hk by exact Hwf. injection Hk as Hk.
  rewrite FindTextureSlot_spec by exact Hwf'. rewrite Htags.
  rewrite index_from_app_found; [now rewrite Hk|].
  destruct (index_from_cases tag (loaded_tags (scene w)) 0 (-1))
    as [[_ E]|(pre & post & -> & _)]; [lia|].
  apply elem_of_app. right. left.
Qed.

Lemma script_keeps_texture_slots_witness :
  exists w',
    run disk0 [CallCreateGLTexture "textures/pen.jpg" "pen"; CallDestroyGLTextures;
               CallCreateGLTexture "textures/wood.jpg" "glasscup"]
      (world2 (T := R)) = Ok w' /\
    FindTextureSlot "glasscup" (scene w') = Ok 1.
Proof.
  evar (w1 : World R). evar (w2 : World R). evar (w3 : World R).
  assert (CreateGLTexture disk0 "textures/pen.jpg" "pen" (world2 (T := R)) = Ok (true, w1))
    as H1 by (subst w1; vm_compute; reflexivity).
  assert (DestroyGLTextures w1 = Ok w2) as H2 by (subst w1 w2; vm_compute; reflexivity).
  assert (CreateGLTexture disk0 "textures/wood.jpg" "glasscup" w2 = Ok (true, w3))
    as H3 by (subst w2 w3; vm_compute; reflexivity).
  assert (run disk0 [CallCreateGLTexture "textures/pen.jpg" "pen"; CallDestroyGLTextures;
                     CallCreateGLTexture "textures/wood.jpg" "glasscup"]
            (world2 (T := R)) = Ok w3) as Hr.
  { cbn [run perform]. rewrite H1. cbn [result_map bind snd]. rewrite H2. cbn [bind].
    rewrite H3. reflexivity. }
  exists w3. split; [exact Hr|].
  refine (proj2 (proj2 (script_keeps_texture_slots disk0 _ (world2 (T := R)) w3
                          wf_world2 Hr)) "glasscup" 1 _ _).
  - vm_compute. reflexivity.
  - lia.
Defined.

Section MaterialGrowth.
Context {T : Type}.

Lemma find_same_tag_app tag (ms more : list (OBJECT_MATERIAL.t T)) :
  tag ∈ (OBJECT_MATERIAL.tag <$> ms) ->
  List.find (same_tag tag) (ms ++ more) = List.find (same_tag tag) ms.
Proof.
  induction ms as [|m ms IH]; intros Hin; [now apply elem_of_nil in Hin|].
  cbn. unfold same_tag at 1 3.
  destruct (String.eqb_spec (OBJECT_MATERIAL.tag m) tag) as [_|Hne]; [reflexivity|].
  apply IH. cbn in Hin. apply elem_of_cons in Hin as [E|Hin]; [congruence|exact Hin].
Qed.
End MaterialGrowth.

(** X9.  The material registry only grows, whatever is called: after any
    sequence of calls that returns, the materials defined before are still
    there, in the same order, possibly followed by new ones.  So for a tag
    that had a material, FindMaterial gives the same answer after the calls
    as before: a later definition never replaces an earlier one. *)
Theorem script_keeps_materials
    {T : Type} `{Scalar T} (disk : filesystem) (ops : list (operation T)) (w w' : World T) :
  wf (scene w) ->
  run disk ops w = Ok w' ->
  (exists more, m_objectMaterials (scene w') = m_objectMaterials (scene w) ++ more) /\
  forall tag material,
    tag ∈ material_tags (scene w) ->
    FindMaterial tag material (scene w') = FindMaterial tag material (scene w).
Proof.
  intros Hwf Hr.
  destruct (run_grows disk ops w w' Hwf Hr) as (_ & _ & (more & Hms)).
  split; [eauto|].
  intros tag material Hin. rewrite !FindMaterial_spec, Hms.
  rewrite find_same_tag_app by exact Hin.
  unfold material_tags in Hin.
  destruct (m_objectMaterials (scene w)) as [|m ms]; [now apply elem_of_nil in Hin|].
  reflexivity.
Qed.

Lemma script_keeps_materials_witness :
  exists w',
    run disk0 [CallPushMaterial shinyWoodMaterial; CallDefineObjectMaterials]
      (in_world DefineObjectMaterials (world2 (T := R))) = Ok w' /\
    FindMaterial "wood" glassMaterial (scene w')
    = FindMaterial "wood" glassMaterial (DefineObjectMaterials (scene (world2 (T := R)))).
Proof.
  eexists. split; [cbn [run perform bind]; reflexivity|].
  apply (proj2 (script_keeps_materials disk0
                  [CallPushMaterial shinyWoodMaterial; CallDefineObjectMaterials]
                  (in_world DefineObjectMaterials (world2 (T := R))) _ wf_world2 eq_refl)
           "wood" glassMaterial).
  cbn. left.
Defined.

(** ** The uniforms the setters write *)

Section Frames.
Context {T : Type} `{Scalar T}.
Implicit Types (sm : SceneManager T) (sh : ShaderManager.t T) (name : string).

Lemma get_set_ne name name' (u : ShaderManager.uniform T) sh :
  name' <> name ->
  ShaderManager.get name (ShaderManager.set name' u sh) = ShaderManager.get name sh.
Proof.
  intros Hne. unfold ShaderManager.get, ShaderManager.set; cbn.
  now apply lookup_insert_ne.
Qed.

Lemma uniform_of_on_shader f sm name :
  (forall sh, ShaderManager.get name (f sh) = ShaderManager.get name sh) ->
  uniform_of name (on_shader f sm) = uniform_of name sm.
Proof.
  intros Hf. unfold uniform_of, on_shader.
  destruct (m_pShaderManager sm) as [sh|] eqn:Hsh; cbn.
  - apply Hf.
  - now rewrite Hsh.
Qed.

Lemma SetShaderTexture_frame tag sm sm' name :
  SetShaderTexture tag sm = Ok sm' ->
  name <> g_UseTextureName -> name <> g_TextureValueName ->
  uniform_of name sm' = uniform_of name sm.
Proof.
  unfold SetShaderTexture, uniform_of.
  destruct (m_pShaderManager sm) as [sh|] eqn:Hsh.
  - destruct (FindTextureSlot tag sm); cbn [bind]; [|discriminate].
    intros [= <-] H1 H2. cbn.
    unfold ShaderManager.setSampler2DValue, ShaderManager.setIntValue.
    rewrite !get_set_ne by congruence. reflexivity.
  - intros [= <-] _ _. now rewrite Hsh.
Qed.

Lemma SetShaderTexture_registries tag sm sm' :
  SetShaderTexture tag sm = Ok sm' -> same_registries sm sm'.
Proof.
  unfold SetShaderTexture, same_registries. destruct (m_pShaderManager sm).
  - destruct (FindTextureSlot tag sm); cbn [bind]; [|discriminate].
    intros [= <-]. auto.
  - intros [= <-]. auto.
Qed.

Lemma on_shader_registries f sm : same_registries sm (on_shader f sm).
Proof. unfold on_shader, same_registries. destruct (m_pShaderManager sm); auto. Qed.
End Frames.

(** X10.  A tag that is not registered is not an error for SetShaderTexture
    or SetShaderMaterial: with a shader manager attached, the call returns,
    "bUseTexture" is 1 and the sampler "objectTexture" is set to -1, the
    value FindTextureSlot returned, without any test. *)
Theorem SetShaderTexture_unregistered_tag
    {T : Type} (sm : SceneManager T) (sh : ShaderManager.t T) (tag : string) :
  m_pShaderManager sm = Some sh ->
  wf sm ->
  tag ∉ loaded_tags sm ->
  exists sm',
    SetShaderTexture tag sm = Ok sm' /\
    SetShaderMaterial tag sm = Ok sm' /\
    uniform_of g_UseTextureName sm' = Some (ShaderManager.UInt 1) /\
    uniform_of g_TextureValueName sm' = Some (ShaderManager.USampler2D (-1)).
Proof.
  intros Hsh Hwf Hnot.
  destruct (SetShaderTexture_uniforms sm sh tag Hsh Hwf) as (sm' & Hr & Hflag & Hsampler & _).
  exists sm'. split; [exact Hr|]. split; [exact Hr|]. split; [exact Hflag|].
  now rewrite index_from_absent in Hsampler.
Qed.

Lemma SetShaderTexture_unregistered_tag_witness :
  exists sm',
    SetShaderTexture "glass" (scene (world2 (T := R))) = Ok sm' /\
    SetShaderMaterial "glass" (scene (world2 (T := R))) = Ok sm' /\
    uniform_of g_UseTextureName sm' = Some (ShaderManager.UInt 1) /\
    uniform_of g_TextureValueName sm' = Some (ShaderManager.USampler2D (-1)).
Proof.
  apply (SetShaderTexture_unregistered_tag (scene (world2 (T := R))) (ShaderManager.Make ∅)
           "glass" eq_refl wf_world2).
  assert (loaded_tags (scene (world2 (T := R))) = ["wood"; "glasscup"]) as ->
    by (vm_compute; reflexivity).
  rewrite !not_elem_of_cons. repeat split; try discriminate. apply not_elem_of_nil.
Defined.

(** X11.  Each setter writes its own uniforms and nothing else, so what was
    set before stays until it is set again.  SetTransformations changes
    only "model"; SetShaderColor only "bUseTexture" and "objectColor";
    SetTextureUVScale only "UVscale"; SetShaderTexture and SetShaderMaterial
    only "bUseTexture" and "objectTexture".  None of them changes the
    texture array, the counter or the materials. *)
Theorem setters_write_their_own_uniforms
    {T : Type} `{Scalar T} (sm : SceneManager T) (name : string) :
  (forall s x y z p,
      same_registries sm (SetTransformations s x y z p sm) /\
      (name <> g_ModelName ->
       uniform_of name (SetTransformations s x y z p sm) = uniform_of name sm)) /\
  (forall r g b a,
      same_registries sm (SetShaderColor r g b a sm) /\
      (name <> g_UseTextureName -> name <> g_ColorValueName ->
       uniform_of name (SetShaderColor r g b a sm) = uniform_of name sm)) /\
  (forall u v,
      same_registries sm (SetTextureUVScale u v sm) /\
      (name <> "UVscale" ->
       uniform_of name (SetTextureUVScale u v sm) = uniform_of name sm)) /\
  (forall tag sm',
      SetShaderTexture tag sm = Ok sm' \/ SetShaderMaterial tag sm = Ok sm' ->
      same_registries sm sm' /\
      (name <> g_UseTextureName -> name <> g_TextureValueName ->
       uniform_of name sm' = uniform_of name sm)).
Proof.
  split; [|split; [|split]].
  - intros s x y z p. split; [apply on_shader_registries|].
    intros Hne. unfold SetTransformations. apply uniform_of_on_shader.
    intros sh. unfold ShaderManager.setMat4Value. now rewrite get_set_ne by congruence.
  - intros r g b a. split; [apply on_shader_registries|].
    intros H1 H2. unfold SetShaderColor. apply uniform_of_on_shader.
    intros sh. unfold ShaderManager.setVec4Value, ShaderManager.setIntValue.
    now rewrite !get_set_ne by congruence.
  - intros u v. split; [apply on_shader_registries|].
    intros Hne. unfold SetTextureUVScale. apply uniform_of_on_shader.
    intros sh. unfold ShaderManager.setVec2Value. now rewrite get_set_ne by congruence.
  - intros tag sm' Hs.
    assert (SetShaderTexture tag sm = Ok sm') as Hs' by (destruct Hs as [Hs|Hs]; exact Hs).
    split; [now apply (SetShaderTexture_registries tag)|].
    intros H1 H2. now apply (SetShaderTexture_frame tag sm).
Qed.

Lemma setters_write_their_own_uniforms_witness :
  uniform_of g_TextureValueName
    (SetShaderColor 1%R 1%R 1%R 1%R (SetTextureUVScale 5%R 1%R (scene0 (T := R))))
  = uniform_of g_TextureValueName (scene0 (T := R)).
Proof.
  pose proof (setters_write_their_own_uniforms
                (SetTextureUVScale 5%R 1%R (scene0 (T := R))) g_TextureValueName)
    as (_ & Hcolor & _).
  pose proof (setters_write_their_own_uniforms (scene0 (T := R)) g_TextureValueName)
    as (_ & _ & Huv & _).
  rewrite (proj2 (Hcolor 1%R 1%R 1%R 1%R)) by discriminate.
  apply (proj2 (Huv 5%R 1%R)). discriminate.
Defined.

Section Lights.
Context {T : Type} `{Scalar T}.

Lemma not_elem_of_light_uniforms (name : string) :
  name ∉ light_uniforms ->
  forall n', n' ∈ light_uniforms -> n' <> name.
Proof. intros Hnot n' Hin ->. contradiction. Qed.

Lemma SetupSceneLights_attached (sm : SceneManager T) sh :
  m_pShaderManager sm = Some sh ->
  exists sm',
    SetupSceneLights sm = Ok sm' /\
    uniform_of g_UseLightingName sm' = Some (ShaderManager.UBool true) /\
    uniform_of "directionalLight.bActive" sm' = Some (ShaderManager.UBool true) /\
    uniform_of "pointLights[0].bActive" sm' = Some (ShaderManager.UBool true) /\
    same_registries sm sm' /\
    forall name, name ∉ light_uniforms -> uniform_of name sm' = uniform_of name sm.
Proof.
  intros Hsh. unfold SetupSceneLights. rewrite Hsh.
  eexists. split; [reflexivity|].
  unfold uniform_of. rewrite Hsh. cbn [m_pShaderManager with_shader mbind option_bind].
  unfold ShaderManager.get, ShaderManager.setBoolValue, ShaderManager.setVec3Value,
    ShaderManager.set; cbn [ShaderManager.uniforms].
  split; [|split; [|split; [|split]]].
  - rewrite !lookup_insert_ne by discriminate. now rewrite lookup_insert_eq.
  - rewrite !lookup_insert_ne by discriminate. now rewrite lookup_insert_eq.
  - now rewrite lookup_insert_eq.
  - unfold same_registries. auto.
  - intros name Hnot.
    pose proof (not_elem_of_light_uniforms name Hnot) as Hne.
    rewrite !lookup_insert_ne; [reflexivity|..];
      apply Hne; unfold light_uniforms; set_solver.
Qed.
End Lights.

(** X12.  SetupSceneLights uses the shader manager without testing the
    pointer: with no shader manager it dereferences NULL, where the other
    setters do nothing.  With a shader manager it returns, turns
    "bUseLighting" on and marks the directional light and point light 0 as
    active; it writes the eleven light uniforms and no other, and leaves
    the texture array, the counter and the materials as they were. *)
Theorem SetupSceneLights_effect {T : Type} `{Scalar T} (sm : SceneManager T) :
  (m_pShaderManager sm = None ->
   SetupSceneLights sm = Undefined NullDereference /\
   (forall tag, SetShaderTexture tag sm = Ok sm) /\
   (forall r g b a, SetShaderColor r g b a sm = sm)) /\
  (forall sh,
      m_pShaderManager sm = Some sh ->
      exists sm',
        SetupSceneLights sm = Ok sm' /\
        uniform_of g_UseLightingName sm' = Some (ShaderManager.UBool true) /\
        uniform_of "directionalLight.bActive" sm' = Some (ShaderManager.UBool true) /\
        uniform_of "pointLights[0].bActive" sm' = Some (ShaderManager.UBool true) /\
        same_registries sm sm' /\
        forall name, name ∉ light_uniforms -> uniform_of name sm' = uniform_of name sm).
Proof.
  split.
  - intros Hsh. unfold SetupSceneLights. rewrite Hsh.
    split; [reflexivity|]. split.
    + intros tag. now apply SetShaderTexture_null.
    + intros r g b a. now apply SetShaderColor_null.
  - intros sh Hsh. now apply (SetupSceneLights_attached sm sh).
Qed.

Lemma SetupSceneLights_effect_witness :
  exists sm',
    SetupSceneLights (scene0 (T := R)) = Ok sm' /\
    uniform_of g_UseLightingName sm' = Some (ShaderManager.UBool true) /\
    same_registries (scene0 (T := R)) sm'.
Proof.
  destruct (proj2 (SetupSceneLights_effect (scene0 (T := R))) (ShaderManager.Make ∅) eq_refl)
    as (sm' & Hr & Hon & _ & _ & Hreg & _).
  exists sm'. auto.
Defined.

(** ** Loading the textures of the scene *)

Section Loading.
Context {T : Type}.
Implicit Types (w : World T) (disk : filesystem).

Lemma register_all_app disk regs1 regs2 w :
  register_all disk (regs1 ++ regs2) w
  = (r1 <- register_all disk regs1 w ;;
     r2 <- register_all disk regs2 r1.2 ;;
     Ok (r1.1 ++ r2.1, r2.2)).
Proof.
  revert w. induction regs1 as [|[filename tag] regs1 IH]; intros w; cbn [app register_all].
  - cbn [bind fst snd]. now destruct (register_all disk regs2 w) as [[bs w']|].
  - destruct (CreateGLTexture disk filename tag w) as [[b w1]|]; cbn [bind fst snd];
      [|reflexivity].
    rewrite IH.
    destruct (register_all disk regs1 w1) as [[bs1 w2]|]; cbn [bind fst snd]; [|reflexivity].
    now destruct (register_all disk regs2 w2) as [[bs2 w3]|].
Qed.

(* registrations that would upload more than the array can hold *)
Lemma register_all_overflow disk regs :
  forall w,
    wf (scene w) ->
    Forall (fun r => uploads disk r.1 = true) regs ->
    MAX_TEXTURES < m_loadedTextures (scene w) + Z.of_nat (length regs) ->
    register_all disk regs w = Undefined (ArrayOutOfBounds MAX_TEXTURES).
Proof.
  induction regs as [|[filename tag] regs IH]; intros w Hwf Hall Hmany.
  - destruct Hwf as [Hn _]. cbn in Hmany. lia.
  - apply Forall_cons in Hall as [Hup Hall]. cbn [fst] in Hup. cbn [register_all].
    apply uploads_supported in Hup as (image & Hd & Hs).
    destruct (Z.eq_dec (m_loadedTextures (scene w)) MAX_TEXTURES) as [Hfull|Hroom].
    + rewrite (CreateGLTexture_overflow disk filename tag w image Hd Hs)
        by (destruct Hwf as [_ Hlen]; lia).
      now rewrite Hfull.
    + destruct (CreateGLTexture_success disk filename tag w image Hd Hs)
        as (w1 & Hc & _); [destruct Hwf as [Hn Hlen]; lia|].
      rewrite Hc. cbn [bind fst snd].
      destruct (CreateGLTexture_loaded_tags disk filename tag w true w1 Hwf Hc)
        as (Hwf1 & _ & Hcount).
      rewrite (IH w1 Hwf1 Hall); [reflexivity|].
      rewrite Hcount. cbn [length Z.b2z] in Hmany |- *. lia.
Qed.

Lemma filter_all {A} (f : A -> bool) (l : list A) :
  Forall (fun x => f x = true) l -> List.filter f l = l.
Proof.
  induction 1 as [|x l Hx _ IH]; cbn; [reflexivity|]. now rewrite Hx, IH.
Qed.
End Loading.

Section LoadingScene.
Context {T : Type}.
Implicit Types (w : World T) (disk : filesystem).

Lemma LoadSceneTextures_registers_what_loads_lemma disk w :
  wf (scene w) ->
  m_loadedTextures (scene w) + 10 <= MAX_TEXTURES ->
  exists w',
    LoadSceneTextures disk w = Ok w' /\
    wf (scene w') /\
    loaded_tags (scene w')
    = loaded_tags (scene w)
      ++ (List.filter (fun r => uploads disk r.1) scene_textures).*2 /\
    (forall (i : nat) e,
        loaded (scene w') !! i = Some e ->
        GL.binding (gl w') (Z.of_nat i) = TEXTURE_INFO.ID e).
Proof.
  intros Hwf Hroom. rewrite LoadSceneTextures_register_all.
  destruct (register_all_uploads disk scene_textures w Hwf)
    as (w1 & Hr & Hwf1 & Htags & _); [exact Hroom|].
  rewrite Hr. cbn [bind snd].
  destruct (BindGLTextures_spec w1 Hwf1) as (w' & Hb & Hsc & _ & Hunits).
  exists w'. rewrite Hsc. auto.
Qed.

Lemma NoDup_scene_textures : NoDup scene_textures.*2.
Proof. apply (bool_decide_unpack _). vm_compute. exact I. Qed.
End LoadingScene.

(** X13.  LoadSceneTextures is best effort.  On a well-formed scene manager
    with room for ten more textures it returns whatever the disk holds.
    The tags it registers are those of the ten files that decode to 3 or 4
    channels, in the order of the calls, so a file that fails moves every
    later texture one slot down; and at the end every registered texture is
    bound to the unit of its slot.  When all ten files load into an empty
    registry, the i-th tag of the function has slot i. *)
Theorem LoadSceneTextures_registers_what_loads
    {T : Type} (disk : filesystem) (w : World T) :
  wf (scene w) ->
  m_loadedTextures (scene w) + 10 <= MAX_TEXTURES ->
  exists w',
    LoadSceneTextures disk w = Ok w' /\
    wf (scene w') /\
    loaded_tags (scene w')
    = loaded_tags (scene w)
      ++ (List.filter (fun r => uploads disk r.1) scene_textures).*2 /\
    (forall (i : nat) e,
        loaded (scene w') !! i = Some e ->
        GL.binding (gl w') (Z.of_nat i) = TEXTURE_INFO.ID e) /\
    (m_loadedTextures (scene w) = 0 ->
     Forall (fun r => uploads disk r.1 = true) scene_textures ->
     forall (i : nat) filename tag,
       scene_textures !! i = Some (filename, tag) ->
       FindTextureSlot tag (scene w') = Ok (Z.of_nat i)).
Proof.
  intros Hwf Hroom.
  destruct (LoadSceneTextures_registers_what_loads_lemma disk w Hwf Hroom)
    as (w' & Hl & Hwf1 & Htags & Hunits).
  exists w'. split; [exact Hl|]. split; [exact Hwf1|].
  split; [exact Htags|]. split; [exact Hunits|].
  intros Hzero Hall i filename tag Hi.
  rewrite FindTextureSlot_spec by exact Hwf1. rewrite Htags.
  assert (loaded_tags (scene w) = []) as -> by (unfold loaded_tags, loaded; now rewrite Hzero).
  rewrite filter_all by exact Hall. cbn [app]. f_equal.
  apply index_from_NoDup; [apply NoDup_scene_textures|].
  rewrite list_lookup_fmap, Hi. reflexivity.
Qed.

Lemma LoadSceneTextures_registers_what_loads_witness :
  exists w',
    LoadSceneTextures disk0 (world0 (T := R)) = Ok w' /\
    FindTextureSlot "leather" (scene w') = Ok 8.
Proof.
  destruct (LoadSceneTextures_registers_what_loads disk0 (world0 (T := R)) wf_scene0)
    as (w' & Hl & _ & _ & _ & Hslots).
  - vm_compute. discriminate.
  - exists w'. split; [exact Hl|].
    apply (Hslots eq_refl) with (i := 8%nat) (filename := "textures/leather.jpg").
    + repeat constructor.
    + reflexivity.
Defined.

(** X14.  LoadSceneTextures must not run twice.  When all ten files load,
    a first call on an empty registry returns with ten textures registered,
    and a second call registers six of them again and then writes past the
    end of the array, at index 16. *)
Theorem LoadSceneTextures_twice_overflows
    {T : Type} (disk : filesystem) (w : World T) :
  wf (scene w) ->
  m_loadedTextures (scene w) = 0 ->
  Forall (fun r => uploads disk r.1 = true) scene_textures ->
  exists w1,
    LoadSceneTextures disk w = Ok w1 /\
    m_loadedTextures (scene w1) = 10 /\
    LoadSceneTextures disk w1 = Undefined (ArrayOutOfBounds 16).
Proof.
  intros Hwf Hzero Hall.
  destruct (LoadSceneTextures_registers_what_loads_lemma disk w Hwf)
    as (w1 & Hl & Hwf1 & Htags & _); [rewrite Hzero; unfold MAX_TEXTURES; lia|].
  assert (m_loadedTextures (scene w1) = 10) as Hten.
  { pose proof (length_loaded_tags (scene w1) Hwf1) as Hlen.
    rewrite Htags, filter_all in Hlen by exact Hall.
    assert (loaded_tags (scene w) = []) as E
      by (unfold loaded_tags, loaded; now rewrite Hzero).
    rewrite E in Hlen. cbn in Hlen. destruct Hwf1 as [Hn _]. lia. }
  exists w1. split; [exact Hl|]. split; [exact Hten|].
  rewrite LoadSceneTextures_register_all.
  rewrite (register_all_overflow disk scene_textures w1 Hwf1 Hall); [reflexivity|].
  rewrite Hten. unfold MAX_TEXTURES. cbn. lia.
Qed.

Lemma LoadSceneTextures_twice_overflows_witness :
  exists w1,
    LoadSceneTextures disk0 (world0 (T := R)) = Ok w1 /\
    m_loadedTextures (scene w1) = 10 /\
    LoadSceneTextures disk0 w1 = Undefined (ArrayOutOfBounds 16).
Proof.
  apply (LoadSceneTextures_twice_overflows disk0 (world0 (T := R)) wf_scene0 eq_refl).
  repeat constructor.
Defined.

(** ** Defining the materials and preparing the scene *)

Section Preparing.
Context {T : Type} `{Scalar T}.
Implicit Types (w : World T) (sm : SceneManager T) (disk : filesystem).

Lemma DefineObjectMaterials_appends sm :
  DefineObjectMaterials sm = with_materials (m_objectMaterials sm ++ scene_materials) sm.
Proof.
  unfold DefineObjectMaterials, push_back, scene_materials; cbn.
  now rewrite <- !app_assoc.
Qed.

(* every material of the list is the first one with its tag *)
Lemma scene_materials_split (m : OBJECT_MATERIAL.t T) :
  m ∈ scene_materials ->
  exists pre post,
    scene_materials = pre ++ m :: post /\
    OBJECT_MATERIAL.tag m ∉ (OBJECT_MATERIAL.tag <$> pre).
Proof.
  unfold scene_materials. intros Hin.
  repeat (apply elem_of_cons in Hin as [->|Hin]).
  - exists [], [glassMaterial; goldMaterial; leatherMaterial; canvasMaterial].
    split; [reflexivity|apply not_elem_of_nil].
  - exists [woodMaterial], [goldMaterial; leatherMaterial; canvasMaterial].
    split; [reflexivity|]. cbn. rewrite !not_elem_of_cons.
    repeat split; try discriminate. apply not_elem_of_nil.
  - exists [woodMaterial; glassMaterial], [leatherMaterial; canvasMaterial].
    split; [reflexivity|]. cbn. rewrite !not_elem_of_cons.
    repeat split; try discriminate. apply not_elem_of_nil.
  - exists [woodMaterial; glassMaterial; goldMaterial], [canvasMaterial].
    split; [reflexivity|]. cbn. rewrite !not_elem_of_cons.
    repeat split; try discriminate. apply not_elem_of_nil.
  - exists [woodMaterial; glassMaterial; goldMaterial; leatherMaterial], [].
    split; [reflexivity|]. cbn. rewrite !not_elem_of_cons.
    repeat split; try discriminate. apply not_elem_of_nil.
  - now apply elem_of_nil in Hin.
Qed.

Lemma register_all_keeps disk regs :
  forall w bs w',
    register_all disk regs w = Ok (bs, w') ->
    m_pShaderManager (scene w') = m_pShaderManager (scene w) /\
    m_objectMaterials (scene w') = m_objectMaterials (scene w).
Proof.
  induction regs as [|[filename tag] regs IH]; intros w bs w' Hr.
  - cbn in Hr. injection Hr as <- <-. auto.
  - cbn [register_all] in Hr.
    destruct (CreateGLTexture disk filename tag w) as [[b w1]|] eqn:Hc;
      cbn [bind fst snd] in Hr; [|discriminate].
    destruct (register_all disk regs w1) as [[bs1 w2]|] eqn:Hrest;
      cbn [bind fst snd] in Hr; [|discriminate].
    injection Hr as <- <-.
    destruct (IH w1 bs1 w2 Hrest) as [-> ->].
    apply CreateGLTexture_scene in Hc. destruct b.
    + destruct Hc as (_ & _ & ->). auto.
    + rewrite Hc. auto.
Qed.

Lemma LoadSceneTextures_keeps disk w w' :
  LoadSceneTextures disk w = Ok w' ->
  m_pShaderManager (scene w') = m_pShaderManager (scene w) /\
  m_objectMaterials (scene w') = m_objectMaterials (scene w).
Proof.
  rewrite LoadSceneTextures_register_all.
  destruct (register_all disk scene_textures w) as [[bs w1]|] eqn:Hr; cbn [bind snd];
    [|discriminate].
  intros Hb. rewrite (BindGLTextures_scene _ _ Hb).
  now apply (register_all_keeps disk scene_textures w bs).
Qed.
End Preparing.

(** X15.  DefineObjectMaterials appends its five materials to the registry.
    When none of their tags was defined before, FindMaterial finds each of
    the five by its tag and hands out its colours and shininess.  A second
    call appends the five again, ten entries in all, and every lookup still
    answers with the entry of the first call. *)
Theorem DefineObjectMaterials_lookup
    {T : Type} `{Scalar T} (sm : SceneManager T) (m material : OBJECT_MATERIAL.t T) :
  m ∈ scene_materials ->
  (forall m', m' ∈ scene_materials -> OBJECT_MATERIAL.tag m' ∉ material_tags sm) ->
  m_objectMaterials (DefineObjectMaterials sm) = m_objectMaterials sm ++ scene_materials /\
  FindMaterial (OBJECT_MATERIAL.tag m) material (DefineObjectMaterials sm)
  = Ok (true, assigned_from m material) /\
  m_objectMaterials (DefineObjectMaterials (DefineObjectMaterials sm))
  = m_objectMaterials sm ++ scene_materials ++ scene_materials /\
  FindMaterial (OBJECT_MATERIAL.tag m) material
    (DefineObjectMaterials (DefineObjectMaterials sm))
  = Ok (true, assigned_from m material).
Proof.
  intros Hin Hnew.
  destruct (scene_materials_split m Hin) as (pre & post & Hsplit & Hpre).
  assert (OBJECT_MATERIAL.tag m ∉ (OBJECT_MATERIAL.tag <$> (m_objectMaterials sm ++ pre)))
    as Hfirst.
  { rewrite fmap_app. intros [Hold|Hp]%elem_of_app; [|contradiction].
    now apply (Hnew m Hin). }
  rewrite !DefineObjectMaterials_appends. cbn [m_objectMaterials with_materials].
  split; [reflexivity|]. split; [|split; [now rewrite <- app_assoc|]].
  - apply (FindMaterial_first _ _ _ (m_objectMaterials sm ++ pre) m post);
      [|exact Hfirst|reflexivity].
    cbn. rewrite Hsplit, <- app_assoc. reflexivity.
  - apply (FindMaterial_first _ _ _ (m_objectMaterials sm ++ pre) m (post ++ scene_materials));
      [|exact Hfirst|reflexivity].
    cbn. rewrite Hsplit at 1. rewrite <- !app_assoc. reflexivity.
Qed.

Lemma DefineObjectMaterials_lookup_witness :
  FindMaterial "leather" glassMaterial (DefineObjectMaterials (scene0 (T := R)))
  = Ok (true, assigned_from leatherMaterial glassMaterial) /\
  FindMaterial "leather" glassMaterial
    (DefineObjectMaterials (DefineObjectMaterials (scene0 (T := R))))
  = Ok (true, assigned_from leatherMaterial glassMaterial).
Proof.
  destruct (DefineObjectMaterials_lookup (scene0 (T := R)) leatherMaterial glassMaterial)
    as (_ & Hone & _ & Htwo).
  - unfold scene_materials. set_solver.
  - intros m' _. apply not_elem_of_nil.
  - auto.
Defined.

Section PreparingScene.
Context {T : Type} `{Scalar T}.
Implicit Types (w : World T) (disk : filesystem).

Lemma PrepareScene_steps disk w :
  wf (scene w) ->
  m_loadedTextures (scene w) + 10 <= MAX_TEXTURES ->
  exists w1,
    LoadSceneTextures disk w = Ok w1 /\
    PrepareScene disk w
    = lift (SetupSceneLights (scene (in_world DefineObjectMaterials w1)))
        (in_world DefineObjectMaterials w1) /\
    m_pShaderManager (scene (in_world DefineObjectMaterials w1))
    = m_pShaderManager (scene w).
Proof.
  intros Hwf Hroom.
  destruct (LoadSceneTextures_registers_what_loads_lemma disk w Hwf Hroom)
    as (w1 & Hl & _).
  destruct (LoadSceneTextures_keeps disk w w1 Hl) as (Hsh1 & _).
  exists w1. split; [exact Hl|]. unfold PrepareScene. rewrite Hl. cbn [bind].
  split; [reflexivity|]. cbn [scene in_world].
  rewrite DefineObjectMaterials_appends. exact Hsh1.
Qed.

Lemma PrepareScene_attached disk w sh :
  wf (scene w) ->
  m_loadedTextures (scene w) + 10 <= MAX_TEXTURES ->
  m_pShaderManager (scene w) = Some sh ->
  exists w',
    PrepareScene disk w = Ok w' /\
    wf (scene w') /\
    is_Some (m_pShaderManager (scene w')) /\
    loaded_tags (scene w')
    = loaded_tags (scene w)
      ++ (List.filter (fun r => uploads disk r.1) scene_textures).*2 /\
    m_objectMaterials (scene w') = m_objectMaterials (scene w) ++ scene_materials /\
    (forall (i : nat) e,
        loaded (scene w') !! i = Some e ->
        GL.binding (gl w') (Z.of_nat i) = TEXTURE_INFO.ID e) /\
    uniform_of g_UseLightingName (scene w') = Some (ShaderManager.UBool true).
Proof.
  intros Hwf Hroom Hsh.
  destruct (LoadSceneTextures_registers_what_loads_lemma disk w Hwf Hroom)
    as (w1 & Hl & Hwf1 & Htags & Hunits).
  destruct (LoadSceneTextures_keeps disk w w1 Hl) as (Hsh1 & Hms1).
  unfold PrepareScene. rewrite Hl. cbn [bind].
  set (w2 := in_world DefineObjectMaterials w1).
  assert (m_pShaderManager (scene w2) = Some sh) as Hsh2.
  { unfold w2. cbn [scene in_world]. rewrite DefineObjectMaterials_appends.
    cbn. now rewrite Hsh1. }
  destruct (SetupSceneLights_attached (scene w2) sh Hsh2)
    as (sm' & Hlights & Hon & _ & _ & Hreg & _).
  assert (is_Some (m_pShaderManager sm')) as Hsome.
  { revert Hlights. unfold SetupSceneLights. rewrite Hsh2. intros [= <-]. cbn. eauto. }
  unfold lift. rewrite Hlights. cbn [result_map bind].
  eexists. split; [reflexivity|]. cbn [scene in_world gl].
  destruct Hreg as (Harr & Hcount & Hms).
  assert (loaded sm' = loaded (scene w1)) as Hloaded.
  { unfold loaded. rewrite Harr, Hcount. unfold w2. cbn [scene in_world].
    now rewrite DefineObjectMaterials_appends. }
  split; [|split; [exact Hsome|split; [|split; [|split]]]].
  - destruct Hwf1 as [Hn Hlen]. split; rewrite ?Harr, ?Hcount; unfold w2;
      cbn [scene in_world]; rewrite DefineObjectMaterials_appends; assumption.
  - unfold loaded_tags. rewrite Hloaded. exact Htags.
  - rewrite Hms. unfold w2. cbn [scene in_world].
    rewrite DefineObjectMaterials_appends. cbn. now rewrite Hms1.
  - intros i e Hi. rewrite Hloaded in Hi. now apply Hunits.
  - exact Hon.
Qed.
End PreparingScene.

(** X16.  PrepareScene loads the textures, defines the materials and sets
    up the lights, in that order.  With a shader manager attached and room
    for ten textures it returns: the tags of the files that loaded and the
    five materials are appended to the registries, every registered texture
    is bound to the unit of its slot, and lighting is on.  With no shader
    manager it loads the textures, defines the materials and then
    dereferences NULL in SetupSceneLights. *)
Theorem PrepareScene_effect {T : Type} `{Scalar T} (disk : filesystem) (w : World T) :
  wf (scene w) ->
  m_loadedTextures (scene w) + 10 <= MAX_TEXTURES ->
  (m_pShaderManager (scene w) = None ->
   PrepareScene disk w = Undefined NullDereference) /\
  (forall sh,
      m_pShaderManager (scene w) = Some sh ->
      exists w',
        PrepareScene disk w = Ok w' /\
        wf (scene w') /\
        loaded_tags (scene w')
        = loaded_tags (scene w)
          ++ (List.filter (fun r => uploads disk r.1) scene_textures).*2 /\
        m_objectMaterials (scene w') = m_objectMaterials (scene w) ++ scene_materials /\
        (forall (i : nat) e,
            loaded (scene w') !! i = Some e ->
            GL.binding (gl w') (Z.of_nat i) = TEXTURE_INFO.ID e) /\
        uniform_of g_UseLightingName (scene w') = Some (ShaderManager.UBool true)).
Proof.
  intros Hwf Hroom. split.
  - intros Hnull.
    destruct (PrepareScene_steps disk w Hwf Hroom) as (w1 & _ & -> & Hsh).
    unfold lift, SetupSceneLights. rewrite Hsh, Hnull. reflexivity.
  - intros sh Hsh.
    destruct (PrepareScene_attached disk w sh Hwf Hroom Hsh)
      as (w' & Hp & Hwf' & _ & Htags & Hms & Hunits & Hon).
    exists w'. split; [exact Hp|]. split; [exact Hwf'|]. split; [exact Htags|].
    split; [exact Hms|]. split; [exact Hunits|exact Hon].
Qed.

Lemma PrepareScene_effect_witness :
  exists w',
    PrepareScene disk0 (world0 (T := R)) = Ok w' /\
    m_objectMaterials (scene w') = scene_materials /\
    uniform_of g_UseLightingName (scene w') = Some (ShaderManager.UBool true).
Proof.
  destruct (proj2 (PrepareScene_effect disk0 (world0 (T := R)) wf_scene0
                     ltac:(cbn; unfold MAX_TEXTURES; lia))
              (ShaderManager.Make ∅) eq_refl)
    as (w' & Hp & _ & _ & Hms & _ & Hon).
  exists w'. auto.
Defined.

(** ** Rendering *)

Section Render.
Context {T : Type} `{Scalar T}.
Implicit Types (sm : SceneManager T) (fr : frame T) (st : statement).

Lemma selection_of_uniforms sm :
  selection_of sm = (uniform_of g_UseTextureName sm, uniform_of g_TextureValueName sm).
Proof. reflexivity. Qed.

Lemma wf_same_registries sm sm' : same_registries sm sm' -> wf sm -> wf sm'.
Proof. intros (Harr & Hn & _) Hwf. unfold wf. now rewrite Harr, Hn. Qed.

Lemma loaded_tags_same_registries sm sm' :
  same_registries sm sm' -> loaded_tags sm' = loaded_tags sm.
Proof. intros (Harr & Hn & _). unfold loaded_tags, loaded. now rewrite Harr, Hn. Qed.

Lemma same_registries_refl sm : same_registries sm sm.
Proof. unfold same_registries. auto. Qed.

Lemma same_registries_trans sm1 sm2 sm3 :
  same_registries sm1 sm2 -> same_registries sm2 sm3 -> same_registries sm1 sm3.
Proof.
  unfold same_registries. intros (A1 & B1 & C1) (A2 & B2 & C2).
  rewrite A2, B2, C2. auto.
Qed.

Lemma on_shader_attached f sm sh :
  m_pShaderManager sm = Some sh -> is_Some (m_pShaderManager (on_shader f sm)).
Proof. intros Hsh. unfold on_shader. rewrite Hsh. cbn. eauto. Qed.

(* a setter that writes neither the flag nor the sampler *)
Lemma selection_of_on_shader f sm :
  (forall sh name, name = g_UseTextureName \/ name = g_TextureValueName ->
                   ShaderManager.get name (f sh) = ShaderManager.get name sh) ->
  selection_of (on_shader f sm) = selection_of sm.
Proof.
  intros Hf. rewrite !selection_of_uniforms.
  rewrite !uniform_of_on_shader; [reflexivity| |]; intros sh; apply Hf; auto.
Qed.

(** One statement: it returns, keeps the registries and the shader manager
    attached, selects what [select] says and issues a draw exactly when it
    is a draw. *)
Lemma execute_spec st fr sh :
  m_pShaderManager (manager fr) = Some sh ->
  wf (manager fr) ->
  exists fr',
    execute st fr = Ok fr' /\
    same_registries (manager fr) (manager fr') /\
    is_Some (m_pShaderManager (manager fr')) /\
    selection_of (manager fr')
    = select (loaded_tags (manager fr)) st (selection_of (manager fr)) /\
    draws fr'
    = draws fr ++ match st with
                  | Draw m => [{| drawn := m; seen := m_pShaderManager (manager fr) |}]
                  | _ => []
                  end.
Proof.
  intros Hsh Hwf.
  destruct st; cbn [execute select].
  1-5: eexists; split; [reflexivity|]; cbn [manager draws assign];
       rewrite app_nil_r, Hsh; split; [apply same_registries_refl|]; eauto.
  - eexists. split; [reflexivity|]. cbn [manager draws call]. rewrite app_nil_r.
    split; [apply on_shader_registries|]. split; [now apply (on_shader_attached _ _ sh)|].
    split; [|reflexivity]. unfold SetTransformations. apply selection_of_on_shader.
    intros sh' name [->| ->]; unfold ShaderManager.setMat4Value;
      now rewrite get_set_ne by discriminate.
  - eexists. split; [reflexivity|]. cbn [manager draws call]. rewrite app_nil_r.
    split; [apply on_shader_registries|]. split; [now apply (on_shader_attached _ _ sh)|].
    split; [|reflexivity]. rewrite !selection_of_uniforms. cbn [snd]. f_equal.
    + apply (proj1 (SetShaderColor_uniforms (manager fr) sh _ _ _ _ Hsh)).
    + unfold SetShaderColor. apply uniform_of_on_shader. intros sh'.
      unfold ShaderManager.setVec4Value, ShaderManager.setIntValue.
      now rewrite !get_set_ne by discriminate.
  - destruct (SetShaderTexture_uniforms (manager fr) sh textureTag Hsh Hwf)
      as (sm' & Hs & Hflag & Hsampler & _ & Hsome).
    rewrite Hs. cbn [bind]. eexists. split; [reflexivity|]. cbn [manager draws call].
    rewrite app_nil_r. split; [now apply (SetShaderTexture_registries textureTag)|].
    split; [exact Hsome|]. split; [|reflexivity].
    rewrite selection_of_uniforms, Hflag, Hsampler. reflexivity.
  - eexists. split; [reflexivity|]. cbn [manager draws call]. rewrite app_nil_r.
    split; [apply on_shader_registries|]. split; [now apply (on_shader_attached _ _ sh)|].
    split; [|reflexivity]. unfold SetTextureUVScale. apply selection_of_on_shader.
    intros sh' name [->| ->]; unfold ShaderManager.setVec2Value;
      now rewrite get_set_ne by discriminate.
  - change (SetShaderMaterial textureTag) with (SetShaderTexture (T := T) textureTag).
    destruct (SetShaderTexture_uniforms (manager fr) sh textureTag Hsh Hwf)
      as (sm' & Hs & Hflag & Hsampler & _ & Hsome).
    rewrite Hs. cbn [bind]. eexists. split; [reflexivity|]. cbn [manager draws call].
    rewrite app_nil_r. split; [now apply (SetShaderTexture_registries textureTag)|].
    split; [exact Hsome|]. split; [|reflexivity].
    rewrite selection_of_uniforms, Hflag, Hsampler. reflexivity.
  - eexists. split; [reflexivity|]. cbn [manager draws]. rewrite Hsh.
    split; [apply same_registries_refl|]. eauto.
Qed.

Lemma draw_selections_cons tags st script (sel : selection T) :
  draw_selections tags (st :: script) sel
  = match st with
    | Draw m => [(m, sel)]
    | _ => []
    end ++ draw_selections tags script (select tags st sel).
Proof. destruct st; reflexivity. Qed.

Lemma execute_all_spec script :
  forall fr sh,
    m_pShaderManager (manager fr) = Some sh ->
    wf (manager fr) ->
    exists fr',
      execute_all script fr = Ok fr' /\
      same_registries (manager fr) (manager fr') /\
      is_Some (m_pShaderManager (manager fr')) /\
      drawn_with <$> draws fr'
      = (drawn_with <$> draws fr)
        ++ draw_selections (loaded_tags (manager fr)) script (selection_of (manager fr)).
Proof.
  induction script as [|st script IH]; intros fr sh Hsh Hwf.
  - exists fr. cbn. rewrite app_nil_r. split; [reflexivity|].
    split; [apply same_registries_refl|]. rewrite Hsh. eauto.
  - cbn [execute_all].
    destruct (execute_spec st fr sh Hsh Hwf) as (fr1 & -> & Hreg1 & [sh1 Hsh1] & Hsel1 & Hd1).
    cbn [bind].
    destruct (IH fr1 sh1 Hsh1 (wf_same_registries _ _ Hreg1 Hwf))
      as (fr' & Hr & Hreg & Hsome & Hd).
    exists fr'. split; [exact Hr|].
    split; [exact (same_registries_trans _ _ _ Hreg1 Hreg)|]. split; [exact Hsome|].
    rewrite Hd, Hd1, Hsel1, (loaded_tags_same_registries _ _ Hreg1), draw_selections_cons.
    rewrite fmap_app, <- app_assoc. f_equal. f_equal.
    destruct st; reflexivity.
Qed.

Lemma execute_all_app script1 script2 fr :
  execute_all (script1 ++ script2) fr
  = (fr1 <- execute_all script1 fr ;; execute_all script2 fr1).
Proof.
  revert fr. induction script1 as [|st script1 IH]; intros fr; cbn [app execute_all bind].
  - reflexivity.
  - destruct (execute st fr) as [fr1|]; cbn [bind]; [apply IH|reflexivity].
Qed.
End Render.

(** X17.  A draw is textured with what was selected last.  With a shader
    manager attached, every sequence of the statements RenderScene is made
    of runs to its end and changes neither registry; each draw sees the
    use-texture flag and the sampler left by the last SetShaderColor,
    SetShaderTexture or SetShaderMaterial before it (SetShaderColor clears
    the flag and keeps the sampler; the other two set the flag and set the
    sampler to the slot of their tag, -1 when it is not registered), and
    what was selected for one draw stays selected for the next ones. *)
Theorem draws_see_last_selection
    {T : Type} `{Scalar T} (script : list statement) (v : locals.t T)
    (sm : SceneManager T) (sh : ShaderManager.t T) :
  m_pShaderManager sm = Some sh ->
  wf sm ->
  exists fr,
    execute_all script {| vars := v; manager := sm; draws := [] |} = Ok fr /\
    same_registries sm (manager fr) /\
    drawn_with <$> draws fr = draw_selections (loaded_tags sm) script (selection_of sm).
Proof.
  intros Hsh Hwf.
  destruct (execute_all_spec script {| vars := v; manager := sm; draws := [] |} sh Hsh Hwf)
    as (fr & Hr & Hreg & _ & Hd).
  exists fr. split; [exact Hr|]. split; [exact Hreg|]. exact Hd.
Qed.

Lemma draws_see_last_selection_witness :
  exists fr,
    execute_all [DoSetShaderTexture "glasscup"; Draw CylinderMesh;
                 DoSetShaderColor 1 1 1 1; Draw BoxMesh]
      {| vars := locals.Make (glm.Vec3 0%R 0%R 0%R) 0%R 0%R 0%R (glm.Vec3 0%R 0%R 0%R);
         manager := scene (world2 (T := R)); draws := [] |} = Ok fr /\
    drawn_with <$> draws fr = [(CylinderMesh, textured 1); (BoxMesh, flat 1)].
Proof.
  destruct (draws_see_last_selection
              [DoSetShaderTexture "glasscup"; Draw CylinderMesh;
               DoSetShaderColor 1 1 1 1; Draw BoxMesh]
              (locals.Make (glm.Vec3 0%R 0%R 0%R) 0%R 0%R 0%R (glm.Vec3 0%R 0%R 0%R))
              (scene (world2 (T := R))) (ShaderManager.Make ∅) eq_refl wf_world2)
    as (fr & Hr & _ & Hd).
  exists fr. split; [exact Hr|]. rewrite Hd.
  assert (loaded_tags (scene (world2 (T := R))) = ["wood"; "glasscup"]) as ->
    by (vm_compute; reflexivity).
  reflexivity.
Defined.

Section RenderSceneBody.
Context {T : Type} `{Scalar T}.

(* the meshes RenderScene draws, whatever the tags and the selection *)
Lemma RenderScene_meshes (tags : list string) (sel : selection T) :
  fst <$> draw_selections tags RenderScene_body sel
  = [PlaneMesh; PlaneMesh; CylinderMesh; TorusMesh; CylinderMesh; PlaneMesh; BoxMesh;
     BoxMesh; BoxMesh; CylinderMesh; ConeMesh; CylinderMesh; TaperedCylinderMesh;
     BoxMesh; BoxMesh].
Proof. reflexivity. Qed.

(* the five locals are assigned before the first call reads them *)
Lemma RenderScene_assigns_first (v v' : locals.t T) (sm : SceneManager T) :
  execute_all (take 8 RenderScene_body) {| vars := v; manager := sm; draws := [] |}
  = execute_all (take 8 RenderScene_body) {| vars := v'; manager := sm; draws := [] |}.
Proof. reflexivity. Qed.

Lemma RenderScene_independent (v v' : locals.t T) (sm : SceneManager T) :
  RenderScene v sm = RenderScene v' sm.
Proof.
  unfold RenderScene. rewrite <- (take_drop 8 RenderScene_body).
  rewrite !execute_all_app. now rewrite (RenderScene_assigns_first v v').
Qed.
End RenderSceneBody.

(** X18.  With a shader manager attached, RenderScene runs to its end on
    every well-formed scene manager, registered textures or not.  It issues
    fifteen draws: two planes, a cylinder, a torus, a cylinder, a plane,
    three boxes, a cylinder, a cone, a cylinder, a tapered cylinder and two
    boxes, in that order.  It changes neither the texture registry nor the
    materials, and the result does not depend on what scaleXYZ and
    positionXYZ hold before their first assignment. *)
Theorem RenderScene_draws
    {T : Type} `{Scalar T} (v : locals.t T) (sm : SceneManager T) (sh : ShaderManager.t T) :
  m_pShaderManager sm = Some sh ->
  wf sm ->
  exists fr,
    RenderScene v sm = Ok fr /\
    same_registries sm (manager fr) /\
    drawn <$> draws fr
    = [PlaneMesh; PlaneMesh; CylinderMesh; TorusMesh; CylinderMesh; PlaneMesh; BoxMesh;
       BoxMesh; BoxMesh; CylinderMesh; ConeMesh; CylinderMesh; TaperedCylinderMesh;
       BoxMesh; BoxMesh] /\
    forall v', RenderScene v' sm = Ok fr.
Proof.
  intros Hsh Hwf. unfold RenderScene at 1.
  destruct (execute_all_spec RenderScene_body {| vars := v; manager := sm; draws := [] |}
              sh Hsh Hwf) as (fr & Hr & Hreg & _ & Hd).
  exists fr. split; [exact Hr|]. split; [exact Hreg|]. split.
  - cbn [draws manager fmap list_fmap app] in Hd.
    rewrite <- (RenderScene_meshes (loaded_tags sm) (selection_of sm)), <- Hd.
    rewrite <- list_fmap_compose. reflexivity.
  - intros v'. rewrite (RenderScene_independent v' v). exact Hr.
Qed.

Lemma RenderScene_draws_witness :
  exists fr,
    RenderScene (locals.Make (glm.Vec3 0%R 0%R 0%R) 0%R 0%R 0%R (glm.Vec3 0%R 0%R 0%R))
      (scene0 (T := R)) = Ok fr /\
    length (draws fr) = 15%nat.
Proof.
  destruct (RenderScene_draws
              (locals.Make (glm.Vec3 0%R 0%R 0%R) 0%R 0%R 0%R (glm.Vec3 0%R 0%R 0%R))
              (scene0 (T := R)) (ShaderManager.Make ∅) eq_refl wf_scene0)
    as (fr & Hr & _ & Hd & _).
  exists fr. split; [exact Hr|].
  rewrite <- (length_fmap drawn), Hd. reflexivity.
Defined.

(** X19.  The scene as it is rendered.  On a scene manager with a shader
    manager and an empty texture registry, when the ten texture files load,
    PrepareScene followed by RenderScene runs to its end and issues its
    fifteen draws with these selections.  The floor plane samples unit 1
    ("wood"), the coffee surface unit 2, the laptop screen unit 7, the
    keyboard unit 5, the lamp box unit 4 and the book cover unit 8; the
    second plane and the book pages are drawn in the flat colour.  The cup,
    its handle, the laptop base, the lamp stand, the lamp shade, the pen
    and the pen tip are drawn with the sampler at -1: their texture was
    selected, and then SetShaderMaterial looked "glass", "metal" or
    "canvas" up among the textures, where they are not registered.  The
    lamp box keeps unit 4 only because its SetShaderMaterial comes after
    its draw. *)
Theorem PrepareScene_then_RenderScene
    {T : Type} `{Scalar T} (disk : filesystem) (w : World T) (sh : ShaderManager.t T)
    (v : locals.t T) :
  wf (scene w) ->
  m_loadedTextures (scene w) = 0 ->
  m_pShaderManager (scene w) = Some sh ->
  Forall (fun r => uploads disk r.1 = true) scene_textures ->
  exists w' fr,
    PrepareScene disk w = Ok w' /\
    RenderScene v (scene w') = Ok fr /\
    drawn_with <$> draws fr
    = [(PlaneMesh, textured 1); (PlaneMesh, flat 1);
       (CylinderMesh, textured (-1)); (TorusMesh, textured (-1));
       (CylinderMesh, textured 2); (PlaneMesh, textured 7); (BoxMesh, textured 5);
       (BoxMesh, textured (-1)); (BoxMesh, textured 4);
       (CylinderMesh, textured (-1)); (ConeMesh, textured (-1));
       (CylinderMesh, textured (-1)); (TaperedCylinderMesh, textured (-1));
       (BoxMesh, textured 8); (BoxMesh, flat 8)].
Proof.
  intros Hwf Hzero Hsh Hall.
  destruct (PrepareScene_attached disk w sh Hwf) as (w' & Hp & Hwf' & [sh' Hsh'] & Htags & _);
    [rewrite Hzero; unfold MAX_TEXTURES; lia|exact Hsh|].
  destruct (execute_all_spec RenderScene_body
              {| vars := v; manager := scene w'; draws := [] |} sh' Hsh' Hwf')
    as (fr & Hr & _ & _ & Hd).
  exists w', fr. split; [exact Hp|]. split; [exact Hr|].
  cbn [draws manager fmap list_fmap app] in Hd. rewrite Hd, Htags.
  assert (loaded_tags (scene w) = []) as ->
    by (unfold loaded_tags, loaded; now rewrite Hzero).
  rewrite filter_all by exact Hall. reflexivity.
Qed.

Lemma PrepareScene_then_RenderScene_witness :
  exists w' fr,
    PrepareScene disk0 (world0 (T := R)) = Ok w' /\
    RenderScene (locals.Make (glm.Vec3 0%R 0%R 0%R) 0%R 0%R 0%R (glm.Vec3 0%R 0%R 0%R))
      (scene w') = Ok fr /\
    drawn_with <$> take 3 (draws fr)
    = [(PlaneMesh, textured 1); (PlaneMesh, flat 1); (CylinderMesh, textured (-1))].
Proof.
  destruct (PrepareScene_then_RenderScene disk0 (world0 (T := R)) (ShaderManager.Make ∅)
              (locals.Make (glm.Vec3 0%R 0%R 0%R) 0%R 0%R 0%R (glm.Vec3 0%R 0%R 0%R))
              wf_scene0 eq_refl eq_refl ltac:(repeat constructor))
    as (w' & fr & Hp & Hr & Hd).
  exists w', fr. split; [exact Hp|]. split; [exact Hr|].
  rewrite fmap_take, Hd. reflexivity.
Defined.

(** ** Registering after binding *)

Section AfterBinding.
Context {T : Type}.
Implicit Types (w : World T) (sm : SceneManager T) (g : GL.state) (disk : filesystem).

(* BindGLTextures leaves the unit of the last entry active *)
Lemma BindGLTextures_loop_active (count : nat) :
  forall (i : Z) sm g g',
    BindGLTextures_loop count i sm g = Ok g' ->
    (0 < count)%nat ->
    GL.active_unit g' = i + Z.of_nat count - 1.
Proof.
  induction count as [|count IH]; intros i sm g g' Hl Hpos; [lia|].
  cbn [BindGLTextures_loop] in Hl.
  destruct (array_get (m_textureIDs sm) i) as [e|]; cbn [bind] in Hl; [|discriminate].
  destruct count as [|count].
  - cbn in Hl. injection Hl as <-. cbn. lia.
  - rewrite (IH (i + 1) sm _ g' Hl) by lia. lia.
Qed.
End AfterBinding.

(** X7.  BindGLTextures has to come after the registrations.  After it has
    bound the n registered textures (n >= 1), unit n-1 is the active one;
    a registration that then returns true binds its new texture there and
    unbinds it again, so unit n-1 is left with no texture, the units below
    keep theirs, and the unit of the new slot, n, is not bound to the new
    texture: it holds what it held before. *)
Theorem CreateGLTexture_after_BindGLTextures
    {T : Type} (disk : filesystem) (filename tag : string) (w w1 w2 : World T)
    (e : TEXTURE_INFO.t) :
  wf (scene w) ->
  loaded (scene w) !! Z.to_nat (m_loadedTextures (scene w) - 1) = Some e ->
  BindGLTextures w = Ok w1 ->
  CreateGLTexture disk filename tag w1 = Ok (true, w2) ->
  let n := m_loadedTextures (scene w) in
  GL.binding (gl w1) (n - 1) = TEXTURE_INFO.ID e /\
  GL.binding (gl w2) (n - 1) = 0 /\
  GL.binding (gl w2) n = GL.binding (gl w) n /\
  forall (i : nat) e',
    Z.of_nat i < n - 1 ->
    loaded (scene w) !! i = Some e' ->
    GL.binding (gl w2) (Z.of_nat i) = TEXTURE_INFO.ID e'.
Proof.
  intros Hwf He Hb Hc n.
  assert (1 <= n) as Hn1.
  { apply lookup_lt_Some in He. rewrite length_loaded in He by exact Hwf.
    destruct (Z_lt_le_dec 0 n) as [?|Hle]; [lia|]. subst n.
    replace (Z.to_nat (m_loadedTextures (scene w))) with 0%nat in He by lia. lia. }
  destruct Hwf as [Hn Hlen].
  unfold BindGLTextures in Hb.
  destruct (BindGLTextures_loop_spec (scene w) (Z.to_nat n) 0 (gl w))
    as (g1 & Hloop & _ & Hin & Hout); [lia|subst n; lia|].
  fold n in Hb. rewrite Hloop in Hb. cbn [bind] in Hb. injection Hb as <-.
  pose proof (BindGLTextures_loop_active _ _ _ _ _ Hloop ltac:(lia)) as Hactive.
  destruct (CreateGLTexture_true_gl disk filename tag _ w2 Hc)
    as (image & _ & _ & _ & _ & _ & Hbound & _).
  cbn [gl] in Hbound |- *. rewrite Hactive in Hbound.
  replace (0 + Z.of_nat (Z.to_nat n) - 1) with (n - 1) in Hbound by lia.
  assert (forall j, GL.binding (gl w2) j
                    = if decide (n - 1 = j) then 0 else GL.binding g1 j) as Hw2.
  { intros j. unfold GL.binding at 1. rewrite Hbound, lookup_insert.
    destruct (decide (n - 1 = j)); reflexivity. }
  assert (forall (i : nat) e', Z.of_nat i < n -> loaded (scene w) !! i = Some e' ->
                               GL.binding g1 (Z.of_nat i) = TEXTURE_INFO.ID e') as Hunits.
  { intros i e' Hi Hl. unfold loaded in Hl. apply lookup_take_Some in Hl as [Hl _].
    apply (Hin i e'); [lia|exact Hl]. }
  split; [|split; [|split]].
  - rewrite <- (Hunits (Z.to_nat (n - 1)) e) by (try lia; exact He). f_equal. lia.
  - rewrite Hw2. now destruct (decide (n - 1 = n - 1)).
  - rewrite Hw2. destruct (decide (n - 1 = n)); [lia|]. apply Hout. lia.
  - intros i e' Hi Hl. rewrite Hw2.
    destruct (decide (n - 1 = Z.of_nat i)); [lia|]. apply Hunits; [lia|exact Hl].
Qed.

Lemma CreateGLTexture_after_BindGLTextures_witness :
  exists w1 w2,
    BindGLTextures (world2 (T := R)) = Ok w1 /\
    CreateGLTexture disk0 "textures/pen.jpg" "pen" w1 = Ok (true, w2) /\
    GL.binding (gl w1) 1 = 2 /\
    GL.binding (gl w2) 1 = 0.
Proof.
  evar (w1 : World R). evar (w2 : World R).
  assert (BindGLTextures (world2 (T := R)) = Ok w1) as Hb
    by (subst w1; vm_compute; reflexivity).
  assert (CreateGLTexture disk0 "textures/pen.jpg" "pen" w1 = Ok (true, w2)) as Hc
    by (subst w1 w2; vm_compute; reflexivity).
  destruct (CreateGLTexture_after_BindGLTextures disk0 _ _ _ w1 w2
              (TEXTURE_INFO.Make 2 "glasscup") wf_world2 eq_refl Hb Hc)
    as (H1 & H2 & _).
  exists w1, w2. auto.
Defined.

(** ** The IDs of the registered textures *)

Section Ids.
Context {T : Type} `{Scalar T}.
Implicit Types (w : World T) (sm : SceneManager T) (g : GL.state) (disk : filesystem).

Lemma ids_in_use_same w w' :
  loaded (scene w') = loaded (scene w) ->
  (forall id, id ∈ GL.names (gl w) -> id ∈ GL.names (gl w')) ->
  ids_in_use w -> ids_in_use w'.
Proof.
  intros Hl Hnames (Hnd & Hin). unfold ids_in_use. rewrite Hl.
  split; [exact Hnd|]. intros id Hid. apply Hnames. now apply Hin.
Qed.

Lemma loaded_same_registries sm sm' : same_registries sm sm' -> loaded sm' = loaded sm.
Proof. intros (Harr & Hn & _). unfold loaded. now rewrite Harr, Hn. Qed.

Lemma CreateGLTexture_names disk filename tag w b w' :
  wf (scene w) ->
  CreateGLTexture disk filename tag w = Ok (b, w') ->
  GL.names (gl w') = GL.names (gl w) \/
  GL.names (gl w') = GL.fresh_name (GL.names (gl w)) :: GL.names (gl w).
Proof.
  intros Hwf Hc. destruct b.
  - right. now apply (CreateGLTexture_true disk filename tag w w').
  - destruct (disk filename) as [image|] eqn:Hd.
    + destruct (supported_dec image) as [Hs|Hs].
      * destruct Hwf as [Hn Hlen].
        destruct (Z.eq_dec (m_loadedTextures (scene w)) MAX_TEXTURES) as [Hfull|Hroom].
        -- rewrite (CreateGLTexture_overflow disk filename tag w image Hd Hs) in Hc by lia.
           discriminate.
        -- destruct (CreateGLTexture_success disk filename tag w image Hd Hs)
             as (w1 & Hc1 & _); [lia|]. congruence.
      * destruct (CreateGLTexture_unsupported disk filename tag w image Hd Hs)
          as (w1 & Hc1 & _ & Hnames & _).
        rewrite Hc in Hc1. injection Hc1 as <-. now right.
    + rewrite CreateGLTexture_missing in Hc by exact Hd. injection Hc as <-. now left.
Qed.

Lemma CreateGLTexture_ids disk filename tag w b w' :
  wf (scene w) ->
  ids_in_use w ->
  CreateGLTexture disk filename tag w = Ok (b, w') ->
  ids_in_use w'.
Proof.
  intros Hwf Hids Hc.
  pose proof (CreateGLTexture_names disk filename tag w b w' Hwf Hc) as Hnames.
  destruct b.
  - destruct (CreateGLTexture_true disk filename tag w w' Hc) as (Hn & Hsc & Hnames').
    destruct Hids as (Hnd & Hin). unfold ids_in_use.
    rewrite Hsc, loaded_registered by exact Hn. rewrite fmap_app, Hnames'. cbn [fmap list_fmap].
    split.
    + apply NoDup_app. split; [exact Hnd|]. split; [|apply NoDup_singleton].
      intros id Hid Hnew. apply list_elem_of_singleton in Hnew. subst id.
      apply (fresh_name_fresh (GL.names (gl w))). now apply Hin.
    + intros id [Hid|Hid]%elem_of_app.
      * right. now apply Hin.
      * apply list_elem_of_singleton in Hid. subst id. left.
  - apply (ids_in_use_same w w'); [|intros id Hid|exact Hids].
    + apply CreateGLTexture_scene in Hc. now rewrite Hc.
    + destruct Hnames as [-> | ->]; [exact Hid|now right].
Qed.

Lemma register_all_ids disk regs :
  forall w bs w',
    wf (scene w) -> ids_in_use w ->
    register_all disk regs w = Ok (bs, w') ->
    ids_in_use w'.
Proof.
  induction regs as [|[filename tag] regs IH]; intros w bs w' Hwf Hids Hr.
  - cbn in Hr. now injection Hr as <- <-.
  - cbn [register_all] in Hr.
    destruct (CreateGLTexture disk filename tag w) as [[b w1]|] eqn:Hc;
      cbn [bind fst snd] in Hr; [|discriminate].
    destruct (register_all disk regs w1) as [[bs1 w2]|] eqn:Hrest;
      cbn [bind fst snd] in Hr; [|discriminate].
    injection Hr as <- <-.
    apply (IH w1 bs1 w2); [|now apply (CreateGLTexture_ids disk filename tag w b)|exact Hrest].
    now apply (CreateGLTexture_loaded_tags disk filename tag w b w1 Hwf Hc).
Qed.

Lemma BindGLTextures_ids w w' :
  wf (scene w) -> ids_in_use w -> BindGLTextures w = Ok w' -> ids_in_use w'.
Proof.
  intros Hwf Hids Hb.
  destruct (BindGLTextures_spec w Hwf) as (w1 & Hb1 & Hsc & Hnames & _).
  rewrite Hb in Hb1. injection Hb1 as <-.
  apply (ids_in_use_same w w'); [now rewrite Hsc|now rewrite Hnames|exact Hids].
Qed.

(* the names DestroyGLTextures generates, one after the other *)
Lemma DestroyGLTextures_loop_ids (count : nat) :
  forall (i : Z) (arr : list TEXTURE_INFO.t) g,
    0 <= i ->
    i + Z.of_nat count <= Z.of_nat (length arr) ->
    exists arr' g' fresh,
      DestroyGLTextures_loop count i arr g = Ok (arr', g') /\
      length arr' = length arr /\
      GL.names g' = fresh ++ GL.names g /\
      NoDup fresh /\
      (forall id, id ∈ fresh -> (id ∉ GL.names g) /\ 0 < id) /\
      GL.objects g' = GL.objects g /\
      TEXTURE_INFO.ID <$> take count (drop (Z.to_nat i) arr') = reverse fresh /\
      take (Z.to_nat i) arr' = take (Z.to_nat i) arr.
Proof.
  induction count as [|count IH]; intros i arr g Hi Hlen.
  - exists arr, g, []. cbn. rewrite take_0.
    split; [reflexivity|]. split; [reflexivity|]. split; [reflexivity|].
    split; [apply NoDup_nil_2|]. split; [intros id Hid; now apply elem_of_nil in Hid|].
    split; [reflexivity|]. split; reflexivity.
  - cbn [DestroyGLTextures_loop GL.glGenTextures1].
    rewrite array_update_in_range by lia. cbn [bind].
    set (id0 := GL.fresh_name (GL.names g)).
    set (arr1 := alter (TEXTURE_INFO.set_ID id0) (Z.to_nat i) arr).
    set (g1 := GL.State (id0 :: GL.names g) (GL.objects g) (GL.active_unit g)
                 (GL.bound_2d g)).
    assert (length arr1 = length arr) as Hlen1 by apply length_alter.
    destruct (IH (i + 1) arr1 g1)
      as (arr' & g' & fresh & Hloop & Hlen' & Hnames & Hnd & Hnew & Hobj & Hids & Htake);
      [lia|rewrite Hlen1; lia|].
    replace (Z.to_nat (i + 1)) with (S (Z.to_nat i)) in Hids, Htake by lia.
    exists arr', g', (fresh ++ [id0]).
    split; [exact Hloop|]. split; [congruence|].
    split; [rewrite Hnames; cbn; now rewrite <- app_assoc|].
    assert (id0 ∉ fresh) as Hid0.
    { intros Hin. apply (proj1 (Hnew id0 Hin)). cbn. left. }
    split; [apply NoDup_app; split; [exact Hnd|];
            split; [|apply NoDup_singleton];
            intros id Hin Hs; apply list_elem_of_singleton in Hs; now subst id|].
    split.
    { intros id [Hin|Hin]%elem_of_app.
      - destruct (Hnew id Hin) as [Hnot Hpos]. split; [|exact Hpos].
        intros Hbad. apply Hnot. cbn. now right.
      - apply list_elem_of_singleton in Hin. subst id.
        split; [apply fresh_name_fresh|apply fresh_name_positive]. }
    split; [exact Hobj|].
    assert (exists e, arr !! Z.to_nat i = Some e) as [e He]
      by (apply lookup_lt_is_Some_2; lia).
    assert (arr' !! Z.to_nat i = Some (TEXTURE_INFO.set_ID id0 e)) as He'.
    { rewrite <- (lookup_take_lt arr' (S (Z.to_nat i)) (Z.to_nat i)) by lia.
      rewrite Htake, lookup_take_lt by lia. unfold arr1.
      now rewrite list_lookup_alter_eq, He. }
    split.
    + rewrite (drop_S _ _ _ He'). cbn [take fmap list_fmap]. rewrite Hids.
      rewrite reverse_app. reflexivity.
    + transitivity (take (Z.to_nat i) (take (S (Z.to_nat i)) arr')).
      { rewrite take_take. f_equal. lia. }
      rewrite Htake, take_take.
      replace (Z.to_nat i `min` S (Z.to_nat i))%nat with (Z.to_nat i) by lia.
      unfold arr1. now rewrite take_alter_ge by lia.
Qed.

Lemma DestroyGLTextures_ids w w' :
  wf (scene w) -> DestroyGLTextures w = Ok w' -> ids_in_use w'.
Proof.
  intros [Hn Hlen] Hd. unfold DestroyGLTextures in Hd.
  destruct (DestroyGLTextures_loop_ids (Z.to_nat (m_loadedTextures (scene w))) 0
              (m_textureIDs (scene w)) (gl w))
    as (arr' & g' & fresh & Hloop & _ & Hnames & Hnd & _ & _ & Hids & _); [lia|lia|].
  rewrite Hloop in Hd. cbn [bind] in Hd. injection Hd as <-.
  unfold ids_in_use, loaded. cbn [scene gl with_textures m_textureIDs m_loadedTextures fst snd].
  change (Z.to_nat 0) with 0%nat in Hids. rewrite drop_0 in Hids.
  rewrite Hids, Hnames. split.
  - now rewrite reverse_Permutation.
  - intros id Hid. rewrite elem_of_reverse in Hid. rewrite elem_of_app. now left.
Qed.

Lemma perform_ids disk op w w' :
  wf (scene w) -> ids_in_use w -> perform disk op w = Ok w' -> ids_in_use w'.
Proof.
  intros Hwf Hids. destruct op; cbn [perform].
  - destruct (CreateGLTexture disk filename tag w) as [[b w1]|] eqn:Hc; cbn; [|discriminate].
    intros [= <-]. now apply (CreateGLTexture_ids disk filename tag w b).
  - now apply BindGLTextures_ids.
  - intros Hd. now apply (DestroyGLTextures_ids w).
  - destruct (FindTextureSlot tag (scene w)); cbn; [|discriminate]. now intros [= <-].
  - destruct (FindMaterial tag material (scene w)); cbn; [|discriminate]. now intros [= <-].
  - intros [= <-]. apply (ids_in_use_same w); [|auto|exact Hids].
    apply loaded_same_registries, on_shader_registries.
  - intros [= <-]. apply (ids_in_use_same w); [|auto|exact Hids].
    apply loaded_same_registries, on_shader_registries.
  - unfold lift. destruct (SetShaderTexture textureTag (scene w)) as [sm'|] eqn:Hs; cbn;
      [|discriminate].
    intros [= <-]. apply (ids_in_use_same w); [|auto|exact Hids].
    apply loaded_same_registries. now apply (SetShaderTexture_registries textureTag).
  - intros [= <-]. apply (ids_in_use_same w); [|auto|exact Hids].
    apply loaded_same_registries, on_shader_registries.
  - unfold lift. destruct (SetShaderMaterial textureTag (scene w)) as [sm'|] eqn:Hs; cbn;
      [|discriminate].
    intros [= <-]. apply (ids_in_use_same w); [|auto|exact Hids].
    apply loaded_same_registries. now apply (SetShaderTexture_registries textureTag).
  - rewrite LoadSceneTextures_register_all.
    destruct (register_all disk scene_textures w) as [[bs w1]|] eqn:Hr; cbn [bind snd];
      [|discriminate].
    intros Hb. apply (BindGLTextures_ids w1 w'); [| |exact Hb].
    + now apply (register_all_grows disk scene_textures w bs w1).
    + now apply (register_all_ids disk scene_textures w bs w1).
  - intros [= <-]. now apply (ids_in_use_same w).
  - intros [= <-]. apply (ids_in_use_same w); [|auto|exact Hids].
    cbn [scene in_world]. now rewrite DefineObjectMaterials_appends.
  - unfold lift. destruct (SetupSceneLights (scene w)) as [sm'|] eqn:Hs; cbn; [|discriminate].
    intros [= <-]. apply (ids_in_use_same w); [|auto|exact Hids].
    revert Hs. unfold SetupSceneLights. destruct (m_pShaderManager (scene w)); [|discriminate].
    now intros [= <-].
Qed.
End Ids.

(** X6.  Registered textures never share a texture.  When the IDs of the
    registered entries are pairwise different names in use (as in an empty
    registry), they still are after any sequence of calls that returns:
    CreateGLTexture and DestroyGLTextures only ever store a name that
    glGenTextures has just handed out, and nothing else writes an ID.  So
    two registered slots that hold the same ID are the same slot. *)
Theorem script_keeps_ids_distinct
    {T : Type} `{Scalar T} (disk : filesystem) (ops : list (operation T)) (w w' : World T) :
  wf (scene w) ->
  ids_in_use w ->
  run disk ops w = Ok w' ->
  ids_in_use w' /\
  forall (i j : nat) e1 e2,
    loaded (scene w') !! i = Some e1 ->
    loaded (scene w') !! j = Some e2 ->
    TEXTURE_INFO.ID e1 = TEXTURE_INFO.ID e2 ->
    i = j.
Proof.
  intros Hwf Hids Hr.
  assert (ids_in_use w') as Hids'.
  { revert w Hwf Hids Hr. induction ops as [|op ops IH]; intros w Hwf Hids Hr;
      cbn [run] in Hr.
    - now injection Hr as <-.
    - destruct (perform disk op w) as [w1|] eqn:Hp; cbn [bind] in Hr; [|discriminate].
      apply (IH w1); [|now apply (perform_ids disk op w)|exact Hr].
      now apply (perform_grows disk op w w1 Hwf Hp). }
  split; [exact Hids'|].
  intros i j e1 e2 H1 H2 Heq. destruct Hids' as (Hnd & _).
  apply (NoDup_lookup _ i j (TEXTURE_INFO.ID e1) Hnd).
  - now rewrite list_lookup_fmap, H1.
  - now rewrite list_lookup_fmap, H2, Heq.
Qed.

Lemma script_keeps_ids_distinct_witness :
  exists w',
    run disk0 [CallCreateGLTexture "textures/pen.jpg" "pen"; CallDestroyGLTextures]
      (world2 (T := R)) = Ok w' /\
    ids_in_use w'.
Proof.
  assert (ids_in_use (world2 (T := R))) as Hstart.
  { assert (loaded (scene (world2 (T := R)))
            = [TEXTURE_INFO.Make 1 "wood"; TEXTURE_INFO.Make 2 "glasscup"]) as Hl
      by (vm_compute; reflexivity).
    assert (GL.names (gl (world2 (T := R))) = [2; 1]) as Hn by (vm_compute; reflexivity).
    unfold ids_in_use. rewrite Hl, Hn. cbn [fmap list_fmap TEXTURE_INFO.ID]. split.
    - apply NoDup_cons. split.
      + intros Hin. apply elem_of_cons in Hin as [Hin|Hin]; [discriminate|].
        now apply elem_of_nil in Hin.
      + apply NoDup_cons. split; [apply not_elem_of_nil|apply NoDup_nil_2].
    - intros id Hid. apply elem_of_cons in Hid as [->|Hid].
      + apply elem_of_cons. right. apply elem_of_cons. now left.
      + apply elem_of_cons in Hid as [->|Hid]; [apply elem_of_cons; now left|].
        now apply elem_of_nil in Hid. }
  evar (w1 : World R). evar (w2 : World R).
  assert (CreateGLTexture disk0 "textures/pen.jpg" "pen" (world2 (T := R)) = Ok (true, w1))
    as H1 by (subst w1; vm_compute; reflexivity).
  assert (DestroyGLTextures w1 = Ok w2) as H2 by (subst w1 w2; vm_compute; reflexivity).
  assert (run disk0 [CallCreateGLTexture "textures/pen.jpg" "pen"; CallDestroyGLTextures]
            (world2 (T := R)) = Ok w2) as Hr.
  { cbn [run perform]. rewrite H1. cbn [result_map bind snd]. rewrite H2. reflexivity. }
  exists w2. split; [exact Hr|].
  exact (proj1 (script_keeps_ids_distinct disk0
                  [CallCreateGLTexture "textures/pen.jpg" "pen"; CallDestroyGLTextures]
                  (world2 (T := R)) w2 wf_world2 Hstart Hr)).
Defined.


(** ** Binding after DestroyGLTextures *)

Section Rebinding.
Context {T : Type}.
Implicit Types (w : World T) (sm : SceneManager T) (g : GL.state).

(* binding never changes a texture object that exists *)
Lemma BindGLTextures_loop_keeps_objects (count : nat) :
  forall (i : Z) sm g g',
    BindGLTextures_loop count i sm g = Ok g' ->
    forall id t, GL.objects g !! id = Some t -> GL.objects g' !! id = Some t.
Proof.
  induction count as [|count IH]; intros i sm g g' Hl id t Ht; cbn [BindGLTextures_loop] in Hl.
  - now injection Hl as <-.
  - destruct (array_get (m_textureIDs sm) i) as [e|]; cbn [bind] in Hl; [|discriminate].
    apply (IH _ _ _ _ Hl). unfold GL.glBindTexture, GL.glActiveTexture; cbn [GL.objects].
    destruct (TEXTURE_INFO.ID e =? 0); [exact Ht|].
    destruct (GL.objects g !! TEXTURE_INFO.ID e) eqn:E; [exact Ht|].
    rewrite lookup_insert_ne; [exact Ht|]. intros Heq. rewrite Heq in E. congruence.
Qed.

(* binding a name for the first time creates its texture object, empty *)
Lemma BindGLTextures_loop_creates (count : nat) :
  forall (i : Z) sm g g',
    BindGLTextures_loop count i sm g = Ok g' ->
    0 <= i ->
    forall (j : nat) e,
      i <= Z.of_nat j < i + Z.of_nat count ->
      m_textureIDs sm !! j = Some e ->
      TEXTURE_INFO.ID e <> 0 ->
      GL.objects g !! TEXTURE_INFO.ID e = None ->
      GL.objects g' !! TEXTURE_INFO.ID e = Some GL.new_texture.
Proof.
  induction count as [|count IH]; intros i sm g g' Hl Hi j e Hj He Hid Hnone; [lia|].
  cbn [BindGLTextures_loop] in Hl.
  destruct (array_get (m_textureIDs sm) i) as [e0|] eqn:Hget; cbn [bind] in Hl; [|discriminate].
  set (g1 := GL.glBindTexture (TEXTURE_INFO.ID e0)
               (GL.glActiveTexture (GL.GL_TEXTURE0 + i) g)) in *.
  assert (forall id, id <> 0 -> GL.objects g !! id = None ->
                     GL.objects g1 !! id
                     = if decide (id = TEXTURE_INFO.ID e0) then Some GL.new_texture else None)
    as Hstep.
  { intros id Hne Hn. unfold g1, GL.glBindTexture, GL.glActiveTexture; cbn [GL.objects].
    destruct (decide (id = TEXTURE_INFO.ID e0)) as [<-|Hd].
    - replace (id =? 0) with false by (symmetry; now apply Z.eqb_neq).
      rewrite Hn. apply lookup_insert_eq.
    - destruct (TEXTURE_INFO.ID e0 =? 0); [exact Hn|].
      destruct (GL.objects g !! TEXTURE_INFO.ID e0); [exact Hn|].
      now rewrite lookup_insert_ne by congruence. }
  specialize (Hstep _ Hid Hnone).
  destruct (decide (TEXTURE_INFO.ID e = TEXTURE_INFO.ID e0)) as [Heq|Hne].
  - apply (BindGLTextures_loop_keeps_objects _ _ _ _ _ Hl). exact Hstep.
  - apply (IH (i + 1) sm g1 g' Hl ltac:(lia) j e); [|exact He|exact Hid|exact Hstep].
    destruct (decide (Z.of_nat j = i)) as [E|N]; [|lia].
    exfalso. apply Hne. unfold array_get in Hget.
    destruct ((0 <=? i) && (i <? Z.of_nat (length (m_textureIDs sm)))); [|discriminate].
    replace (Z.to_nat i) with j in Hget by lia. rewrite He in Hget. congruence.
Qed.
End Rebinding.

(** X20.  What DestroyGLTextures leaves behind.  On a well-formed scene
    manager, in an OpenGL state where every texture object has a name in
    use, DestroyGLTextures followed by BindGLTextures binds every unit i
    below m_loadedTextures to the new name of entry i, whose texture object
    is created empty by the binding: it has no image.  The texture objects
    that existed before, with the uploaded images, are all still there, and
    no registered entry refers to any of them. *)
Theorem BindGLTextures_after_DestroyGLTextures {T : Type} (w w1 w2 : World T) :
  wf (scene w) ->
  objects_named (gl w) ->
  DestroyGLTextures w = Ok w1 ->
  BindGLTextures w1 = Ok w2 ->
  (forall id t, GL.objects (gl w) !! id = Some t -> GL.objects (gl w2) !! id = Some t) /\
  forall (i : nat) e,
    loaded (scene w2) !! i = Some e ->
    GL.binding (gl w2) (Z.of_nat i) = TEXTURE_INFO.ID e /\
    GL.objects (gl w) !! TEXTURE_INFO.ID e = None /\
    GL.objects (gl w2) !! TEXTURE_INFO.ID e = Some GL.new_texture /\
    GL.image GL.new_texture = None.
Proof.
  intros Hwf Hnamed Hd Hb.
  destruct Hwf as [Hn Hlen]. unfold DestroyGLTextures in Hd.
  destruct (DestroyGLTextures_loop_ids (Z.to_nat (m_loadedTextures (scene w))) 0
              (m_textureIDs (scene w)) (gl w))
    as (arr' & g1 & fresh & Hloop & Hlen' & _ & _ & Hnew & Hobj & Hids & _); [lia|lia|].
  rewrite Hloop in Hd. cbn [bind fst snd] in Hd. injection Hd as <-.
  unfold BindGLTextures in Hb. cbn [scene gl with_textures m_loadedTextures] in Hb.
  destruct (BindGLTextures_loop (Z.to_nat (m_loadedTextures (scene w))) 0 _ g1)
    as [g2|] eqn:Hbind; cbn [bind] in Hb; [|discriminate].
  injection Hb as <-. cbn [gl scene].
  split.
  - intros id t Ht. apply (BindGLTextures_loop_keeps_objects _ _ _ _ _ Hbind).
    now rewrite Hobj.
  - intros i e He. unfold loaded in He. cbn [m_textureIDs m_loadedTextures with_textures] in He.
    apply lookup_take_Some in He as [He Hi].
    assert (TEXTURE_INFO.ID e ∈ fresh) as Hfresh.
    { apply elem_of_reverse. rewrite <- Hids. change (Z.to_nat 0) with 0%nat.
      rewrite drop_0. apply list_elem_of_lookup. exists i.
      now rewrite list_lookup_fmap, lookup_take_lt, He by lia. }
    destruct (Hnew _ Hfresh) as [Hnot Hpos].
    assert (GL.objects (gl w) !! TEXTURE_INFO.ID e = None) as Hnone.
    { destruct (GL.objects (gl w) !! TEXTURE_INFO.ID e) eqn:E; [|reflexivity].
      exfalso. apply Hnot. apply Hnamed. rewrite E. eauto. }
    destruct (BindGLTextures_loop_spec
                (with_textures arr' (m_loadedTextures (scene w)) (scene w))
                (Z.to_nat (m_loadedTextures (scene w))) 0 g1)
      as (g2' & Hbind' & _ & Hin & _); [lia|cbn; lia|].
    rewrite Hbind in Hbind'. injection Hbind' as <-.
    split; [apply (Hin i e); [lia|exact He]|]. split; [exact Hnone|].
    split; [|reflexivity].
    apply (BindGLTextures_loop_creates _ _ _ _ _ Hbind ltac:(lia) i e);
      [lia|exact He|lia|now rewrite Hobj].
Qed.

Lemma BindGLTextures_after_DestroyGLTextures_witness :
  exists w1 w2 : World R,
    DestroyGLTextures (world2 (T := R)) = Ok w1 /\
    BindGLTextures w1 = Ok w2 /\
    GL.binding (gl w2) 0 = 3 /\
    GL.objects (gl w2) !! 3 = Some GL.new_texture.
Proof.
  assert (objects_named (gl (world2 (T := R)))) as Hnamed.
  { intros id [t Ht]. apply elem_of_map_to_list in Ht.
    evar (l : list (Z * GL.texture_object)).
    assert (map_to_list (GL.objects (gl (world2 (T := R)))) = l) as Hl
      by (subst l; vm_compute; reflexivity).
    assert (GL.names (gl (world2 (T := R))) = [2; 1]) as Hn by (vm_compute; reflexivity).
    rewrite Hl in Ht. rewrite Hn. subst l.
    repeat match goal with
           | Hin : _ ∈ _ :: _ |- _ => apply elem_of_cons in Hin as [Hin|Hin]
           | Hin : _ ∈ [] |- _ => now apply elem_of_nil in Hin
           end;
      injection Ht as -> _;
      repeat first [apply list_elem_of_here | apply list_elem_of_further]. }
  evar (w1 : World R). evar (w2 : World R).
  assert (DestroyGLTextures (world2 (T := R)) = Ok w1) as H1
    by (subst w1; vm_compute; reflexivity).
  assert (BindGLTextures w1 = Ok w2) as H2 by (subst w1 w2; vm_compute; reflexivity).
  assert (loaded (scene w2) !! 0%nat = Some (TEXTURE_INFO.Make 3 "wood")) as He
    by (subst w1 w2; vm_compute; reflexivity).
  exists w1, w2. split; [exact H1|]. split; [exact H2|].
  destruct (BindGLTextures_after_DestroyGLTextures (world2 (T := R)) w1 w2
              wf_world2 Hnamed H1 H2) as [_ Hall].
  destruct (Hall 0%nat _ He) as (Hb & _ & Ho & _).
  split; [exact Hb|exact Ho].
Defined.
